(** * Flute: the vocabulary schema of [src/models/books.py]

    The module declares six mapped classes (books, chapters, tokens,
    book_vocab, token_progress, book_totals), their columns, CHECK
    constraints, indexes and foreign keys, and one statement builder,
    [BookTotals.upsert_stmt].  The declarations are transcribed below as
    data, and the statements that a session sends to the SQLite store
    (INSERT, UPDATE, DELETE, INSERT .. ON CONFLICT DO UPDATE) are given an
    executable meaning over lists of rows, so that what the schema lets a
    transaction commit can be computed and proved. *)

From Stdlib Require Import ZArith List String Ascii Bool Lia.
From Stdlib Require Import DecimalString.
Import ListNotations.
Open Scope string_scope.
Open Scope Z_scope.

(** ** Values and rows *)

(** What a column of a row holds.  [Integer], [SmallInteger] and [Boolean]
    columns hold integers, [String], [Text] and [DateTime] columns hold text
    (SQLite stores a date as ISO text); Python's [None] is NULL.  An integer
    of a statement is Python's, without a bound; the store holds signed
    64-bit integers, and the driver refuses to bind any other (see
    [bindable]).  Text is not bounded: SQLite does not enforce the length
    of a [String(n)] column, and its own limit on the size of a value is
    not modelled.  The statements are taken to give each column a value of
    its [Mapped[..]] type or [None]; SQLite's conversion of values of
    another type is not modelled. *)
Inductive value : Type :=
| VNull
| VInt (n : Z)
| VText (s : string).

Definition value_eqb (a b : value) : bool :=
  match a, b with
  | VNull, VNull => true
  | VInt x, VInt y => Z.eqb x y
  | VText x, VText y => String.eqb x y
  | _, _ => false
  end.

Definition is_null (v : value) : bool :=
  match v with VNull => true | _ => false end.

(** A row: column name and value, as keyword arguments are written. *)
Definition row : Type := list (string * value).

Fixpoint lookup (r : row) (c : string) : option value :=
  match r with
  | [] => None
  | (k, v) :: r' => if String.eqb k c then Some v else lookup r' c
  end.

(** An attribute that was never set reads as [None]. *)
Definition get (r : row) (c : string) : value :=
  match lookup r c with Some v => v | None => VNull end.

(** ** CHECK constraint expressions, with SQL's three-valued logic *)

Inductive scalar : Type :=
| Col (c : string)
| Lit (n : Z).

Inductive cond : Type :=
| Ne (a b : scalar)                       (* a != b *)
| In_ (a : scalar) (l : list scalar)      (* a IN (l) *)
| Between (a lo hi : scalar)              (* a BETWEEN lo AND hi *)
| Or (p q : cond).                        (* p OR q *)

Definition eval_scalar (r : row) (e : scalar) : value :=
  match e with
  | Col c => get r c
  | Lit n => VInt n
  end.

(** SQLite's ordering of values: NULL compares with nothing, integers sort
    before text, text is compared with the BINARY collation. *)
Definition sql_compare (a b : value) : option comparison :=
  match a, b with
  | VNull, _ | _, VNull => None
  | VInt x, VInt y => Some (Z.compare x y)
  | VInt _, VText _ => Some Lt
  | VText _, VInt _ => Some Gt
  | VText x, VText y => Some (String.compare x y)
  end.

Definition sql_eq (a b : value) : option bool :=
  match sql_compare a b with
  | Some Eq => Some true
  | Some _ => Some false
  | None => None
  end.

Definition sql_le (a b : value) : option bool :=
  match sql_compare a b with
  | Some Gt => Some false
  | Some _ => Some true
  | None => None
  end.

Definition sql_not (p : option bool) : option bool :=
  match p with Some b => Some (negb b) | None => None end.

Definition sql_or (p q : option bool) : option bool :=
  match p, q with
  | Some true, _ | _, Some true => Some true
  | Some false, Some false => Some false
  | _, _ => None
  end.

Definition sql_and (p q : option bool) : option bool :=
  match p, q with
  | Some false, _ | _, Some false => Some false
  | Some true, Some true => Some true
  | _, _ => None
  end.

Definition eval (r : row) (p : cond) : option bool :=
  (fix go (p : cond) : option bool :=
     match p with
     | Ne a b => sql_not (sql_eq (eval_scalar r a) (eval_scalar r b))
     | In_ a l =>
         fold_right (fun e acc => sql_or (sql_eq (eval_scalar r a) (eval_scalar r e)) acc)
                    (Some false) l
     | Between a lo hi =>
         sql_and (sql_le (eval_scalar r lo) (eval_scalar r a))
                 (sql_le (eval_scalar r a) (eval_scalar r hi))
     | Or p q => sql_or (go p) (go q)
     end) p.

(** A CHECK constraint is violated only when its expression is false; an
    expression that evaluates to NULL lets the row through. *)
Definition check_passes (r : row) (p : cond) : bool :=
  match eval r p with
  | Some false => false
  | _ => true
  end.

(** ** The declarations: columns, table arguments, mapped classes *)

(** The mapped classes of this module.  [Language] is mapped in
    [src.models.language]; this module only refers to its [id]. *)
Inductive model : Type :=
| Book | Chapter | Token | BookVocab | TokenProgress | BookTotals.

Definition model_eqb (a b : model) : bool :=
  match a, b with
  | Book, Book | Chapter, Chapter | Token, Token
  | BookVocab, BookVocab | TokenProgress, TokenProgress
  | BookTotals, BookTotals => true
  | _, _ => false
  end.

Definition all_models : list model :=
  [Book; Chapter; Token; BookVocab; TokenProgress; BookTotals].

Inductive column_type : Type :=
| Integer | SmallInteger | Boolean | DateTime | String_ (length : Z) | Text.

(** The target of a [ForeignKey(..)]: [Language.id], or a column of a class
    of this module. *)
Inductive reference : Type :=
| LanguageId
| ColumnOf (m : model) (c : string).

Inductive on_delete : Type := NoAction | Cascade.

Record ForeignKey : Type := {
  target : reference;
  ondelete : on_delete;
}.

Record Column : Type := {
  name : string;
  type_ : column_type;
  primary_key : bool;
  nullable : bool;
  index : bool;
  foreign_key : option ForeignKey;
  default : option value;           (* filled in by the session *)
  server_default : option string;   (* DEFAULT clause of the table *)
}.

Inductive table_arg : Type :=
| CheckConstraint (sqltext : cond) (constraint_name : string)
| Index (index_name : string) (cols : list string) (unique : bool)
| DialectOption (key : string) (flag : bool).

Record Table : Type := {
  tablename : string;
  table_args : list table_arg;
  columns : list Column;
}.

(** [mapped_column(type)]: not a key, no index, no default; [nullable] is
    given by the caller as the declaration (or its [Mapped[..]] annotation)
    has it. *)
Definition mapped_column (n : string) (ty : column_type) (null : bool) : Column :=
  {| name := n; type_ := ty; primary_key := false; nullable := null; index := false;
     foreign_key := None; default := None; server_default := None |}.

Definition with_primary_key (c : Column) : Column :=
  {| name := name c; type_ := type_ c; primary_key := true; nullable := false;
     index := index c; foreign_key := foreign_key c; default := default c;
     server_default := server_default c |}.

Definition with_index (c : Column) : Column :=
  {| name := name c; type_ := type_ c; primary_key := primary_key c;
     nullable := nullable c; index := true; foreign_key := foreign_key c;
     default := default c; server_default := server_default c |}.

Definition with_foreign_key (fk : ForeignKey) (c : Column) : Column :=
  {| name := name c; type_ := type_ c; primary_key := primary_key c;
     nullable := nullable c; index := index c; foreign_key := Some fk;
     default := default c; server_default := server_default c |}.

Definition with_default (v : value) (c : Column) : Column :=
  {| name := name c; type_ := type_ c; primary_key := primary_key c;
     nullable := nullable c; index := index c; foreign_key := foreign_key c;
     default := Some v; server_default := server_default c |}.

Definition with_server_default (s : string) (c : Column) : Column :=
  {| name := name c; type_ := type_ c; primary_key := primary_key c;
     nullable := nullable c; index := index c; foreign_key := foreign_key c;
     default := default c; server_default := Some s |}.

Definition references (r : reference) : ForeignKey :=
  {| target := r; ondelete := NoAction |}.

Definition references_cascade (r : reference) : ForeignKey :=
  {| target := r; ondelete := Cascade |}.

(** Python's [str] on an integer. *)
Definition str (n : Z) : string := NilZero.string_of_int (Z.to_int n).

Inductive TokenKind : Type := WORD | PHRASE.

Definition TokenKind_value (k : TokenKind) : Z :=
  match k with WORD => 1 | PHRASE => 2 end.

Inductive LearningStatus : Type := LEARNING | KNOWN | IGNORE.

Definition LearningStatus_value (s : LearningStatus) : Z :=
  match s with LEARNING => 1 | KNOWN => 2 | IGNORE => 3 end.

Definition NUM_LEARNING_STAGES : Z := 5.

(** The columns that [AuditMixin] adds to [Book], [Chapter] and
    [TokenProgress] are declared in [src.models.base]; they are timestamps
    with their own defaults, no constraint of this module reads them, and
    the rows below do not carry them. *)

Definition Book_table : Table := {|
  tablename := "books";
  table_args := [];
  columns := [
    with_primary_key (mapped_column "id" Integer false);
    with_index
      (with_foreign_key (references LanguageId) (mapped_column "language_id" Integer false));
    mapped_column "title" (String_ 500) false;
    mapped_column "cover_art_filepath" (String_ 500) true;
    mapped_column "source" (String_ 500) true;
    with_default (VInt 0) (mapped_column "is_archived" Boolean false);
    mapped_column "last_visited_chapter" Integer true;
    mapped_column "last_visited_word_index" Integer true;
    mapped_column "last_read" DateTime true ]
|}.

Definition Chapter_table : Table := {|
  tablename := "chapters";
  table_args := [
    Index "ix_chapter_book_id_chapter_number" ["book_id"; "chapter_number"] true ];
  columns := [
    with_primary_key (mapped_column "id" Integer false);
    with_foreign_key (references (ColumnOf Book "id")) (mapped_column "book_id" Integer false);
    mapped_column "chapter_number" Integer false;
    mapped_column "content" Text false;
    mapped_column "word_count" Integer false ]
|}.

Definition Token_table : Table := {|
  tablename := "tokens";
  table_args := [
    CheckConstraint (In_ (Col "kind") [Lit 1; Lit 2]) "ck_token_kind_valid";
    Index "ix_token_language_id_norm" ["language_id"; "norm"] true ];
  columns := [
    with_primary_key (mapped_column "id" Integer false);
    with_foreign_key (references LanguageId) (mapped_column "language_id" Integer false);
    mapped_column "norm" (String_ 255) false;
    with_server_default (str (TokenKind_value WORD))
      (mapped_column "kind" SmallInteger false) ]
|}.

Definition BookVocab_table : Table := {|
  tablename := "book_vocab";
  table_args := [
    Index "ix_book_vocab_token_book_count" ["token_id"; "book_id"; "token_count"] false;
    DialectOption "sqlite_with_rowid" false ];
  columns := [
    with_primary_key
      (with_foreign_key (references (ColumnOf Book "id")) (mapped_column "book_id" Integer false));
    with_primary_key
      (with_foreign_key (references (ColumnOf Token "id")) (mapped_column "token_id" Integer false));
    mapped_column "token_count" Integer false ]
|}.

Definition TokenProgress_table : Table := {|
  tablename := "token_progress";
  table_args := [
    CheckConstraint (In_ (Col "status") [Lit 1; Lit 2; Lit 3])
                    "ck_token_progress_status_valid";
    CheckConstraint (Or (Ne (Col "status") (Lit 1))
                        (Between (Col "learning_stage") (Lit 1) (Lit 5)))
                    "ck_token_progress_learning_stage_valid";
    Index "ix_token_progress_status_token" ["status"; "token_id"] false ];
  columns := [
    with_primary_key
      (with_foreign_key (references (ColumnOf Token "id")) (mapped_column "token_id" Integer false));
    mapped_column "status" SmallInteger false;
    mapped_column "learning_stage" SmallInteger true;
    mapped_column "translation" (String_ 500) true ]
|}.

Definition BookTotals_table : Table := {|
  tablename := "book_totals";
  table_args := [];
  columns := [
    with_primary_key
      (with_foreign_key (references_cascade (ColumnOf Book "id"))
         (mapped_column "book_id" Integer false));
    mapped_column "total_tokens" Integer false;
    mapped_column "total_types" Integer false ]
|}.

(** [relationship(..)] declarations.  [argument] is the class on the other
    side ([None] for [Language]); [cascade] lists the cascades, which are
    "save-update, merge" when the declaration names none. *)
Record Relationship : Type := {
  key : string;
  argument : option model;
  back_populates : option string;
  lazy : string;
  cascade : list string;
}.

Definition relationships (m : model) : list Relationship :=
  match m with
  | Book =>
      [ {| key := "chapters"; argument := Some Chapter; back_populates := Some "book";
           lazy := "dynamic"; cascade := ["all"; "delete-orphan"] |};
        {| key := "language"; argument := None; back_populates := None;
           lazy := "select"; cascade := ["save-update"; "merge"] |} ]
  | Chapter =>
      [ {| key := "book"; argument := Some Book; back_populates := Some "chapters";
           lazy := "select"; cascade := ["save-update"; "merge"] |} ]
  | Token =>
      [ {| key := "language"; argument := None; back_populates := None;
           lazy := "select"; cascade := ["save-update"; "merge"] |} ]
  | BookVocab | TokenProgress | BookTotals => []
  end.

Definition schema (m : model) : Table :=
  match m with
  | Book => Book_table
  | Chapter => Chapter_table
  | Token => Token_table
  | BookVocab => BookVocab_table
  | TokenProgress => TokenProgress_table
  | BookTotals => BookTotals_table
  end.

(** ** The store *)

(** The contents of the six tables, the ids of the [Language] rows, and the
    connection's [PRAGMA foreign_keys] (SQLite enforces foreign keys only
    when it is on; the engine is configured in [src.models.base], so both
    settings are covered). *)
Record Database : Type := {
  foreign_keys : bool;
  language_ids : list Z;
  books : list row;
  chapters : list row;
  tokens : list row;
  book_vocab : list row;
  token_progress : list row;
  book_totals : list row;
}.

Definition rows_of (db : Database) (m : model) : list row :=
  match m with
  | Book => books db
  | Chapter => chapters db
  | Token => tokens db
  | BookVocab => book_vocab db
  | TokenProgress => token_progress db
  | BookTotals => book_totals db
  end.

Definition set_rows (db : Database) (m : model) (rs : list row) : Database :=
  {| foreign_keys := foreign_keys db;
     language_ids := language_ids db;
     books := match m with Book => rs | _ => books db end;
     chapters := match m with Chapter => rs | _ => chapters db end;
     tokens := match m with Token => rs | _ => tokens db end;
     book_vocab := match m with BookVocab => rs | _ => book_vocab db end;
     token_progress := match m with TokenProgress => rs | _ => token_progress db end;
     book_totals := match m with BookTotals => rs | _ => book_totals db end |}.

Definition empty_db (fk : bool) (langs : list Z) : Database :=
  {| foreign_keys := fk; language_ids := langs;
     books := []; chapters := []; tokens := [];
     book_vocab := []; token_progress := []; book_totals := [] |}.

(** ** Errors *)

Inductive error : Type :=
| IntegrityError (msg : string)     (* a constraint of the store failed *)
| CompileError (msg : string)       (* the statement names an unknown column *)
| OperationalError (msg : string)   (* the store gave up *)
| OverflowError (msg : string).     (* an integer the store cannot hold *)

Inductive result (A : Type) : Type :=
| Ok (a : A)
| Err (e : error).
Arguments Ok {A} a.
Arguments Err {A} e.

Definition bind {A B : Type} (x : result A) (f : A -> result B) : result B :=
  match x with
  | Ok a => f a
  | Err e => Err e
  end.

Notation "x <- c1 ;; c2" := (bind c1 (fun x => c2))
  (at level 61, c1 at next level, right associativity).
Notation "c1 ;;; c2" := (bind c1 (fun _ => c2))
  (at level 61, right associativity).

Definition require (b : bool) (e : error) : result unit :=
  if b then Ok tt else Err e.

(** ** What is checked before a statement reaches the store *)

Definition column_names (t : Table) : list string := map name (columns t).

Definition known_columns (t : Table) (values : row) : bool :=
  forallb (fun kv => existsb (String.eqb (fst kv)) (column_names t)) values.

(** The integers of the store are signed 64-bit integers. *)
Definition min_int64 : Z := -9223372036854775808.
Definition max_int64 : Z := 9223372036854775807.

Definition int64 (n : Z) : bool := (min_int64 <=? n) && (n <=? max_int64).

(** The driver binds the values of a statement before the store sees it,
    and raises [OverflowError] on a Python [int] that is no signed 64-bit
    integer. *)
Definition bindable (values : row) : bool :=
  forallb (fun kv => match snd kv with
                     | VInt n => int64 n
                     | VNull | VText _ => true
                     end) values.

(** A statement that names a column the table does not have is not
    compiled; one with a value that cannot be bound is not executed.  (What
    a WHERE clause compares a column with is part of the predicate on rows
    that stands for the clause, and is taken to be a value that can be
    bound.) *)
Definition check_statement (t : Table) (values : row) : result unit :=
  require (known_columns t values) (CompileError "Unconsumed column names") ;;;
  require (bindable values)
          (OverflowError "Python int too large to convert to SQLite INTEGER").

(** ** What the store checks on a row *)

Definition primary_key_columns (t : Table) : list string :=
  map name (filter primary_key (columns t)).

(** The column sets that must be unique: the primary key and every index
    declared with [unique=True]. *)
Definition unique_keys (t : Table) : list (list string) :=
  match primary_key_columns t with
  | [] => []
  | pk => [pk]
  end ++
  flat_map (fun a => match a with
                     | Index _ cols true => [cols]
                     | _ => []
                     end) (table_args t).

Definition not_null_ok (t : Table) (r : row) : bool :=
  forallb (fun c => nullable c || negb (is_null (get r (name c)))) (columns t).

Definition checks_ok (t : Table) (r : row) : bool :=
  forallb (fun a => match a with
                    | CheckConstraint p _ => check_passes r p
                    | Index _ _ _ | DialectOption _ _ => true
                    end) (table_args t).

(** Two rows collide on a key when every key column is non-NULL and equal
    (NULLs are distinct from each other in a unique index). *)
Definition conflicts (cols : list string) (a b : row) : bool :=
  forallb (fun c => negb (is_null (get a c)) && value_eqb (get a c) (get b c)) cols.

Definition unique_ok (t : Table) (others : list row) (r : row) : bool :=
  forallb (fun k => forallb (fun o => negb (conflicts k o r)) others) (unique_keys t).

Definition check_row (t : Table) (others : list row) (r : row) : result unit :=
  require (not_null_ok t r) (IntegrityError "NOT NULL constraint failed") ;;;
  require (checks_ok t r) (IntegrityError "CHECK constraint failed") ;;;
  require (unique_ok t others r) (IntegrityError "UNIQUE constraint failed").

(** Foreign keys, child side: a non-NULL reference must name a parent. *)
Definition parent_has (db : Database) (ref : reference) (v : value) : bool :=
  match ref with
  | LanguageId =>
      match v with
      | VInt n => existsb (Z.eqb n) (language_ids db)
      | _ => false
      end
  | ColumnOf m c => existsb (fun p => value_eqb (get p c) v) (rows_of db m)
  end.

Definition fk_child_ok (db : Database) (t : Table) (written : string -> bool) (r : row) : bool :=
  forallb (fun c => match foreign_key c with
                    | Some fk => negb (written (name c))
                                 || is_null (get r (name c))
                                 || parent_has db (target fk) (get r (name c))
                    | None => true
                    end) (columns t).

Definition check_fk_child (db : Database) (t : Table) (written : string -> bool) (r : row)
  : result unit :=
  require (negb (foreign_keys db) || fk_child_ok db t written r)
          (IntegrityError "FOREIGN KEY constraint failed").

(** Foreign keys, parent side: the columns of other classes that refer to
    class [m], each with the parent column it names. *)
Definition referrers (m : model) : list (model * string * string * on_delete) :=
  flat_map (fun m' =>
    flat_map (fun c =>
      match foreign_key c with
      | Some fk =>
          match target fk with
          | ColumnOf p pc => if model_eqb p m then [(m', name c, pc, ondelete fk)] else []
          | LanguageId => []
          end
      | None => []
      end) (columns (schema m'))) all_models.

(** Child row [r'] refers through [child_col] to one of the rows [gone]. *)
Definition refers_to (child_col parent_col : string) (gone : list row) (r' : row) : bool :=
  negb (is_null (get r' child_col))
  && existsb (fun g => value_eqb (get g parent_col) (get r' child_col)) gone.

(** ** INSERT *)

Definition is_integer (ty : column_type) : bool :=
  match ty with Integer | SmallInteger | Boolean => true | _ => false end.

(** The table is declared WITHOUT ROWID ([sqlite_with_rowid=False]). *)
Definition without_rowid (t : Table) : bool :=
  existsb (fun a => match a with
                    | DialectOption k flag => String.eqb k "sqlite_with_rowid" && negb flag
                    | _ => false
                    end) (table_args t).

(** The column is the table's rowid: the only column of the primary key of
    a table that has a rowid, declared INTEGER.  SQLite makes it so whether
    or not the column is a foreign key as well, and assigns it on insert
    when it is left unset. *)
Definition autoincrement (t : Table) (c : Column) : bool :=
  primary_key c
  && match type_ c with Integer => true | _ => false end
  && (List.length (primary_key_columns t) =? 1)%nat
  && negb (without_rowid t).

Definition int_values (rows : list row) (c : string) : list Z :=
  flat_map (fun r => match get r c with VInt n => [n] | _ => [] end) rows.

(** The least positive integer that is not among [ids]. *)
Definition unused_rowid (ids : list Z) : Z :=
  match find (fun c => negb (existsb (Z.eqb c) ids))
             (map Z.of_nat (seq 1 (S (List.length ids)))) with
  | Some c => c
  | None => 0
  end.

(** The rowid of a new row: 1 in an empty table, else one more than the
    largest in use.  When the largest is the greatest 64-bit integer,
    SQLite draws positive integers at random until one is not in use; the
    store below takes the least one, and what is proved of a new rowid
    relies on nothing but its being unused. *)
Definition next_rowid (ids : list Z) : Z :=
  match ids with
  | [] => 1
  | n :: ns =>
      let largest := fold_right Z.max n ns in
      if largest <? max_int64 then largest + 1 else unused_rowid ids
  end.

(** A DEFAULT clause is a text literal; a column of integer affinity stores
    it as an integer when it reads as one. *)
Definition server_value (ty : column_type) (s : string) : value :=
  if is_integer ty then
    match NilZero.int_of_string s with
    | Some n => VInt (Z.of_int n)
    | None => VText s
    end
  else VText s.

(** The value stored for column [c]: the one given, else the session's
    default, else the server's default, else the next rowid, else NULL.  An
    attribute left at [None] is an attribute not set. *)
Definition stored_value (t : Table) (existing : list row) (values : row) (c : Column) : value :=
  match get values (name c) with
  | VNull =>
      match default c, server_default c with
      | Some v, _ => v
      | None, Some s => server_value (type_ c) s
      | None, None =>
          if autoincrement t c then VInt (next_rowid (int_values existing (name c)))
          else VNull
      end
  | v => v
  end.

Definition new_row (t : Table) (existing : list row) (values : row) : row :=
  map (fun c => (name c, stored_value t existing values c)) (columns t).

Definition exec_insert (db : Database) (m : model) (values : row) : result Database :=
  let t := schema m in
  let rows := rows_of db m in
  check_statement t values ;;;
  let r := new_row t rows values in
  check_row t rows r ;;;
  check_fk_child db t (fun _ => true) r ;;;
  Ok (set_rows db m (rows ++ [r])).

(** ** UPDATE *)

(** [SET]: the assigned columns take their new value (NULL included), the
    others keep theirs. *)
Definition assign (vals : row) (r : row) : row :=
  map (fun kv => (fst kv, match lookup vals (fst kv) with
                          | Some v => v
                          | None => snd kv
                          end)) r.

Definition written (vals : row) (c : string) : bool :=
  match lookup vals c with Some _ => true | None => false end.

(** No column of another class may still refer to a key that the update
    changes (no declaration has an ON UPDATE action). *)
Definition parent_key_free (db : Database) (m : model) (old new : row) : bool :=
  forallb (fun ref =>
             match ref with
             | (m', cc, pc, _) =>
                 value_eqb (get old pc) (get new pc)
                 || negb (existsb (refers_to cc pc [old]) (rows_of db m'))
             end) (referrers m).

(** Rows are visited in table order; each changed row is checked against
    the table as it stands at that moment. *)
Fixpoint update_rows (db : Database) (m : model) (where_ : row -> bool) (vals : row)
         (done todo : list row) : result (list row) :=
  match todo with
  | [] => Ok done
  | r :: rest =>
      if where_ r then
        let r' := assign vals r in
        check_row (schema m) (done ++ rest) r' ;;;
        check_fk_child db (schema m) (written vals) r' ;;;
        require (negb (foreign_keys db) || parent_key_free db m r r')
                (IntegrityError "FOREIGN KEY constraint failed") ;;;
        update_rows db m where_ vals (done ++ [r']) rest
      else update_rows db m where_ vals (done ++ [r]) rest
  end.

Definition exec_update (db : Database) (m : model) (where_ : row -> bool) (vals : row)
  : result Database :=
  check_statement (schema m) vals ;;;
  rows <- update_rows db m where_ vals [] (rows_of db m) ;;
  Ok (set_rows db m rows).

(** ** DELETE *)

(** With foreign keys enforced, the rows of other classes that refer to a
    deleted row are deleted too where the reference says ON DELETE CASCADE,
    and make the statement fail otherwise.  [depth] bounds the nesting of
    cascades. *)
Fixpoint delete_where (depth : nat) (db : Database) (m : model) (where_ : row -> bool)
  : result Database :=
  match depth with
  | O => Err (OperationalError "too many levels of trigger recursion")
  | S depth' =>
      let gone := filter where_ (rows_of db m) in
      let db1 := set_rows db m (filter (fun r => negb (where_ r)) (rows_of db m)) in
      if foreign_keys db then
        fold_left
          (fun acc ref =>
             match ref with
             | (m', cc, pc, action) =>
                 db' <- acc ;;
                 match action with
                 | Cascade => delete_where depth' db' m' (refers_to cc pc gone)
                 | NoAction =>
                     require (negb (existsb (refers_to cc pc gone) (rows_of db' m')))
                             (IntegrityError "FOREIGN KEY constraint failed") ;;;
                     Ok db'
                 end
             end)
          (referrers m) (Ok db1)
      else Ok db1
  end.

(** References between the classes form no cycle, so a cascade never nests
    deeper than there are classes. *)
Definition max_cascade_depth : nat := List.length all_models.

Definition exec_delete (db : Database) (m : model) (where_ : row -> bool) : result Database :=
  delete_where max_cascade_depth db m where_.

(** ** INSERT .. ON CONFLICT (index_elements) DO UPDATE SET set_ *)

(** The first stored row that collides with [r] on the conflict target,
    with the rows before and after it. *)
Fixpoint split_conflict (cols : list string) (r : row) (rows : list row)
  : option (list row * row * list row) :=
  match rows with
  | [] => None
  | o :: rest =>
      if conflicts cols o r then Some ([], o, rest)
      else match split_conflict cols r rest with
           | Some (before, x, after) => Some (o :: before, x, after)
           | None => None
           end
  end.

Definition exec_upsert (db : Database) (m : model) (vals : row)
           (index_elements : list string) (set_ : row) : result Database :=
  let t := schema m in
  let rows := rows_of db m in
  check_statement t (vals ++ set_)%list ;;;
  let r := new_row t rows vals in
  require (not_null_ok t r) (IntegrityError "NOT NULL constraint failed") ;;;
  require (checks_ok t r) (IntegrityError "CHECK constraint failed") ;;;
  match split_conflict index_elements r rows with
  | Some (before, old, after) =>
      let r' := assign set_ old in
      check_row t (before ++ after) r' ;;;
      check_fk_child db t (written set_) r' ;;;
      require (negb (foreign_keys db) || parent_key_free db m old r')
              (IntegrityError "FOREIGN KEY constraint failed") ;;;
      Ok (set_rows db m (before ++ r' :: after))
  | None =>
      require (unique_ok t rows r) (IntegrityError "UNIQUE constraint failed") ;;;
      check_fk_child db t (fun _ => true) r ;;;
      Ok (set_rows db m (rows ++ [r]))
  end.

(** ** Statements *)

Inductive stmt : Type :=
| Insert (m : model) (vals : row)
| Update (m : model) (where_ : row -> bool) (vals : row)
| Delete (m : model) (where_ : row -> bool)
| InsertOnConflictDoUpdate (m : model) (vals : row)
                           (index_elements : list string) (set_ : row).

Definition exec (s : stmt) (db : Database) : result Database :=
  match s with
  | Insert m vals => exec_insert db m vals
  | Update m where_ vals => exec_update db m where_ vals
  | Delete m where_ => exec_delete db m where_
  | InsertOnConflictDoUpdate m vals index_elements set_ =>
      exec_upsert db m vals index_elements set_
  end.

(** The store after a statement was tried: a failed statement is rolled
    back and leaves the store as it was. *)
Definition run (s : stmt) (db : Database) : Database :=
  match exec s db with
  | Ok db' => db'
  | Err _ => db
  end.

(** A transaction: all of its statements, or none. *)
Fixpoint transaction (ss : list stmt) (db : Database) : result Database :=
  match ss with
  | [] => Ok db
  | s :: ss' => db' <- exec s db ;; transaction ss' db'
  end.

(** The statement builders used by [upsert_stmt]. *)
Definition insert (cls : model) : stmt := Insert cls [].

Definition values (vals : row) (s : stmt) : stmt :=
  match s with
  | Insert m _ => Insert m vals
  | InsertOnConflictDoUpdate m _ ie set_ => InsertOnConflictDoUpdate m vals ie set_
  | other => other
  end.

Definition on_conflict_do_update (index_elements : list string) (set_ : row) (s : stmt) : stmt :=
  match s with
  | Insert m vals => InsertOnConflictDoUpdate m vals index_elements set_
  | other => other
  end.

(** [BookTotals.upsert_stmt(book_id, total_tokens, total_types)] *)
Definition upsert_stmt (book_id total_tokens total_types : Z) : stmt :=
  on_conflict_do_update
    ["book_id"]
    [("total_tokens", VInt total_tokens); ("total_types", VInt total_types)]
    (values [("book_id", VInt book_id);
             ("total_tokens", VInt total_tokens);
             ("total_types", VInt total_types)]
            (insert BookTotals)).

(** ** Deleting a book through the session *)

Definition column_is (c : string) (v : value) (r : row) : bool :=
  value_eqb (get r c) v.

(** The relationship deletes the rows on its other side with the parent. *)
Definition cascades_delete (rel : Relationship) : bool :=
  existsb (fun c => String.eqb c "all" || String.eqb c "delete") (cascade rel).

(** The DELETE statements the session sends for the children of the row
    [id] of class [m]: for every relationship of [m] that cascades a
    delete, the rows of its class whose foreign key names that row. *)
Definition cascaded_deletes (m : model) (id : value) : list stmt :=
  flat_map (fun rel =>
    match argument rel with
    | Some child =>
        if cascades_delete rel then
          flat_map (fun ref =>
                      match ref with
                      | (m', cc, _, _) =>
                          if model_eqb m' child then [Delete m' (column_is cc id)] else []
                      end) (referrers m)
        else []
    | None => []
    end) (relationships m).

(** [session.delete(book)] followed by a commit: the session deletes the
    rows that the relationships of [Book] cascade to ([Book.chapters] is
    the only one that does), then the book; what happens to the rows of the
    other classes is left to the store's foreign keys. *)
Definition session_delete_book (db : Database) (book_id : Z) : result Database :=
  transaction (cascaded_deletes Book (VInt book_id)
               ++ [Delete Book (column_is "id" (VInt book_id))]) db.

(** ** Reachable stores *)

(** Every store that statements can produce from empty tables. *)
Inductive reachable : Database -> Prop :=
| reachable_empty : forall fk langs, reachable (empty_db fk langs)
| reachable_exec : forall db s db',
    reachable db -> exec s db = Ok db' -> reachable db'.

(** ** Order-preserving sub-lists *)

Inductive subseq {A : Type} : list A -> list A -> Prop :=
| subseq_nil : subseq [] []
| subseq_skip : forall x l1 l2, subseq l1 l2 -> subseq l1 (x :: l2)
| subseq_keep : forall x l1 l2, subseq l1 l2 -> subseq (x :: l1) (x :: l2).


(** ** What every stored row satisfies *)

(** A row that has the columns of its table, in their order, and passed
    the table's NOT NULL and CHECK constraints. *)
Definition row_ok (t : Table) (r : row) : Prop :=
  map fst r = column_names t /\ not_null_ok t r = true /\ checks_ok t r = true.

(** No two rows of the list collide on key [k]. *)
Definition distinct_on (k : list string) (rows : list row) : Prop :=
  ForallOrdPairs (fun a b => conflicts k a b = false) rows.

Definition table_ok (t : Table) (rows : list row) : Prop :=
  Forall (row_ok t) rows /\ Forall (fun k => distinct_on k rows) (unique_keys t).

Definition db_ok (db : Database) : Prop :=
  forall m, table_ok (schema m) (rows_of db m).

(** The store [db'] holds, table by table, a sub-list of what [db] holds. *)
Definition shrinks (db db' : Database) : Prop :=
  foreign_keys db' = foreign_keys db
  /\ language_ids db' = language_ids db
  /\ forall m, subseq (rows_of db' m) (rows_of db m).

(** ** The properties stated about the rows *)

(** [learning_stage] is set exactly when [status] is LEARNING, and a set
    stage lies in 1..5. *)
Definition stage_iff_learning (r : row) : Prop :=
  (get r "learning_stage" <> VNull
   <-> get r "status" = VInt (LearningStatus_value LEARNING))
  /\ (get r "learning_stage" <> VNull ->
      exists n, get r "learning_stage" = VInt n /\ 1 <= n <= NUM_LEARNING_STAGES).

(** [status] is one of the three codes, and a stage that is set while the
    status is LEARNING lies in 1..5. *)
Definition stage_in_range_when_learning (r : row) : Prop :=
  (exists s, get r "status" = VInt (LearningStatus_value s))
  /\ (get r "status" = VInt (LearningStatus_value LEARNING) ->
      get r "learning_stage" <> VNull ->
      exists n, get r "learning_stage" = VInt n /\ 1 <= n <= NUM_LEARNING_STAGES).

Definition count_positive (r : row) : Prop :=
  exists n, get r "token_count" = VInt n /\ 0 < n.

(** Rows [a] and [b] agree on every column of [cols]. *)
Definition same_on (cols : list string) (a b : row) : Prop :=
  forall c, In c cols -> get a c = get b c.

(** No two rows of the list, at different positions, agree on [cols]. *)
Definition unique_on (cols : list string) (rows : list row) : Prop :=
  forall i j a b,
    nth_error rows i = Some a -> nth_error rows j = Some b ->
    same_on cols a b -> i = j.

Definition valid_kind (r : row) : Prop :=
  exists k : TokenKind, get r "kind" = VInt (TokenKind_value k).

Definition valid_status (r : row) : Prop :=
  exists s : LearningStatus, get r "status" = VInt (LearningStatus_value s).

(** ** Sample stores *)

(** One language, the token "sat" and the book "Alpha", with foreign keys
    enforced or not. *)
Definition alpha_db (fk : bool) : Database :=
  {| foreign_keys := fk;
     language_ids := [1];
     books := [[("id", VInt 1); ("language_id", VInt 1); ("title", VText "Alpha");
                ("cover_art_filepath", VNull); ("source", VNull);
                ("is_archived", VInt 0); ("last_visited_chapter", VNull);
                ("last_visited_word_index", VNull); ("last_read", VNull)]];
     chapters := [];
     tokens := [[("id", VInt 1); ("language_id", VInt 1); ("norm", VText "sat");
                 ("kind", VInt 1)]];
     book_vocab := [];
     token_progress := [];
     book_totals := [] |}.

Definition alpha_statements : list stmt :=
  [ Insert Token [("language_id", VInt 1); ("norm", VText "sat")];
    Insert Book [("language_id", VInt 1); ("title", VText "Alpha")] ].

(** The statement fails and the store is what it was. *)
Definition refused (s : stmt) (db : Database) : Prop :=
  (exists e, exec s db = Err e) /\ run s db = db.

(** Every column of key [k] is declared NOT NULL in table [t]. *)
Definition key_not_null (t : Table) (k : list string) : bool :=
  forallb (fun c => existsb (fun col => String.eqb (name col) c && negb (nullable col))
                            (columns t)) k.

(** ** Book totals *)

Definition totals_row (book_id total_tokens total_types : Z) : row :=
  [("book_id", VInt book_id);
   ("total_tokens", VInt total_tokens);
   ("total_types", VInt total_types)].

Definition has_totals (db : Database) (book_id : Z) : bool :=
  existsb (column_is "book_id" (VInt book_id)) (book_totals db).

Definition has_book (db : Database) (book_id : Z) : bool :=
  existsb (column_is "id" (VInt book_id)) (books db).

(** The book "Alpha" indexed: one chapter, one inverted-index row and its
    totals. *)
Definition indexed_statements : list stmt :=
  [ Insert Chapter [("book_id", VInt 1); ("chapter_number", VInt 1);
                    ("content", VText "sat"); ("word_count", VInt 1)];
    Insert BookVocab [("book_id", VInt 1); ("token_id", VInt 1); ("token_count", VInt 1)];
    upsert_stmt 1 1 1 ].

Definition indexed_db (fk : bool) : Database :=
  {| foreign_keys := fk;
     language_ids := language_ids (alpha_db fk);
     books := books (alpha_db fk);
     chapters := [[("id", VInt 1); ("book_id", VInt 1); ("chapter_number", VInt 1);
                   ("content", VText "sat"); ("word_count", VInt 1)]];
     tokens := tokens (alpha_db fk);
     book_vocab := [[("book_id", VInt 1); ("token_id", VInt 1); ("token_count", VInt 1)]];
     token_progress := [];
     book_totals := [totals_row 1 1 1] |}.

(** ** The learning progress tracker *)

(** Modelled from the spec: the error taxonomy of section 7, for the
    tracker's operations, which are not among the sources. *)
Inductive tracker_error : Type :=
| ValidationError
| NotFoundError
| ConstraintViolation (e : error).

(** Modelled from the spec: what a transition of the tracker returns, the
    store it committed or the error it was rejected with. *)
Inductive outcome : Type :=
| Committed (db : Database)
| Rejected (e : tracker_error).

Definition find_progress (db : Database) (token_id : Z) : option row :=
  find (column_is "token_id" (VInt token_id)) (token_progress db).

Definition status_of (db : Database) (token_id : Z) : option value :=
  option_map (fun r => get r "status") (find_progress db token_id).

Definition stage_of (db : Database) (token_id : Z) : option value :=
  option_map (fun r => get r "learning_stage") (find_progress db token_id).

(** Modelled from the spec: [advance(tokenId)] of the Learning Progress
    Tracker (section 4.5: "valid only from LEARNING; increments stage by 1,
    capped at 5") is not among the sources, which give the table, its
    constraints and [NUM_LEARNING_STAGES].  The new stage is written with an
    UPDATE of the token's row, which the store checks as any other; a token
    without a row is not found, and a row that is not LEARNING with a stage
    is a validation error. *)
Definition advance (db : Database) (token_id : Z) : outcome :=
  match find_progress db token_id with
  | None => Rejected NotFoundError
  | Some r =>
      if value_eqb (get r "status") (VInt (LearningStatus_value LEARNING)) then
        match get r "learning_stage" with
        | VInt stage =>
            match exec (Update TokenProgress (column_is "token_id" (VInt token_id))
                          [("learning_stage",
                            VInt (Z.min (stage + 1) NUM_LEARNING_STAGES))]) db with
            | Ok db' => Committed db'
            | Err e => Rejected (ConstraintViolation e)
            end
        | _ => Rejected ValidationError
        end
      else Rejected ValidationError
  end.

(** Modelled from the spec: [n] calls of [advance] in a row, as scenario C
    of section 8 makes them; the first that is rejected ends them. *)
Fixpoint advance_times (n : nat) (db : Database) (token_id : Z) : outcome :=
  match n with
  | O => Committed db
  | S n' =>
      match advance db token_id with
      | Committed db' => advance_times n' db' token_id
      | Rejected e => Rejected e
      end
  end.

(** ** Further notions for the properties of the schema *)

(** Every foreign key of every stored row names a parent (or is NULL). *)
Definition references_resolved (db : Database) : Prop :=
  forall m r, In r (rows_of db m) ->
              fk_child_ok db (schema m) (fun _ => true) r = true.

(** Whatever row of [db'] refers to a row of [db], that row is in [db']
    too. *)
Definition parents_survive (db db' : Database) : Prop :=
  forall m r c fk mp pc p,
    In r (rows_of db' m) -> In c (columns (schema m)) ->
    foreign_key c = Some fk -> target fk = ColumnOf mp pc ->
    In p (rows_of db mp) ->
    get r (name c) <> VNull -> value_eqb (get p pc) (get r (name c)) = true ->
    In p (rows_of db' mp).

(** A Python [int | None] and [str | None] as column values. *)
Definition opt_int (o : option Z) : value :=
  match o with Some n => VInt n | None => VNull end.

Definition opt_text (o : option string) : value :=
  match o with Some s => VText s | None => VNull end.

(** The totals stored for a book, if any. *)
Definition totals_of (db : Database) (book_id : Z) : option row :=
  find (column_is "book_id" (VInt book_id)) (book_totals db).

(** Row [r'] is what an UPDATE with assignments [vals] made of row [r]: the
    row itself when the WHERE did not select it, else the assigned row,
    which passed the foreign-key checks. *)
Definition rewritten (db : Database) (m : model) (vals : row) (r r' : row) : Prop :=
  r' = r
  \/ (r' = assign vals r
      /\ fk_child_ok db (schema m) (written vals) r' = true
      /\ parent_key_free db m r r' = true).

Definition has_token (db : Database) (token_id : Z) : bool :=
  existsb (column_is "id" (VInt token_id)) (tokens db).
(** * Properties *)

Open Scope list_scope.

(** ** Results *)

Lemma bind_Ok {A B : Type} (x : result A) (f : A -> result B) (b : B) :
  bind x f = Ok b -> exists a, x = Ok a /\ f a = Ok b.
Proof.
  destruct x as [a | e]; simpl; intros H; [exists a; auto | discriminate].
Qed.

Lemma require_Ok (b : bool) (e : error) (u : unit) :
  require b e = Ok u -> b = true.
Proof. destruct b; simpl; [reflexivity | discriminate]. Qed.

Lemma require_true (b : bool) (e : error) :
  b = true -> require b e = Ok tt.
Proof. intros ->; reflexivity. Qed.

(** Splits a hypothesis [c1 ;;; c2 ;;; .. = Ok x] into what each step gave. *)
Ltac ok_inv H :=
  match type of H with
  | bind _ _ = Ok _ =>
      let a := fresh "a" in
      let H1 := fresh H "_1" in
      let H2 := fresh H "_2" in
      apply bind_Ok in H; destruct H as (a & H1 & H2);
      ok_inv H1; ok_inv H2
  | require _ _ = Ok _ => apply require_Ok in H
  | Ok _ = Ok _ => injection H as H
  | _ => idtac
  end.

(** ** Values and keys *)

Lemma value_eqb_eq (a b : value) : value_eqb a b = true <-> a = b.
Proof.
  destruct a, b; simpl; split; intros H; try discriminate; try reflexivity.
  - apply Z.eqb_eq in H; congruence.
  - injection H as ->; apply Z.eqb_refl.
  - apply String.eqb_eq in H; congruence.
  - injection H as ->; apply String.eqb_refl.
Qed.

Lemma value_eqb_refl (a : value) : value_eqb a a = true.
Proof. apply value_eqb_eq; reflexivity. Qed.

Lemma value_eqb_sym (a b : value) : value_eqb a b = value_eqb b a.
Proof.
  destruct (value_eqb a b) eqn:E.
  - apply value_eqb_eq in E; subst; symmetry; apply value_eqb_refl.
  - destruct (value_eqb b a) eqn:E'; [| reflexivity].
    apply value_eqb_eq in E'; subst; rewrite value_eqb_refl in E; discriminate.
Qed.

Lemma conflicts_sym (k : list string) (a b : row) :
  conflicts k a b = conflicts k b a.
Proof.
  unfold conflicts; induction k as [| c k IH]; simpl; [reflexivity |].
  rewrite IH; f_equal.
  rewrite (value_eqb_sym (get b c) (get a c)).
  destruct (value_eqb (get a c) (get b c)) eqn:E.
  - apply value_eqb_eq in E; rewrite E; reflexivity.
  - rewrite !andb_false_r; reflexivity.
Qed.

(** Rows that agree on the key columns collide alike. *)
Lemma conflicts_same_key (k : list string) (a b o : row) :
  (forall c, In c k -> get a c = get b c) ->
  conflicts k o a = conflicts k o b.
Proof.
  intros H; unfold conflicts; induction k as [| c k IH]; simpl; [reflexivity |].
  rewrite (H c) by (simpl; auto).
  rewrite IH; [reflexivity |].
  intros c' Hc'; apply H; simpl; auto.
Qed.

(** ** The store as a record *)

Lemma set_rows_set_rows (db : Database) (m : model) (rs rs' : list row) :
  set_rows (set_rows db m rs) m rs' = set_rows db m rs'.
Proof. destruct m; reflexivity. Qed.

(** ** Order-preserving sub-lists, for what DELETE leaves behind *)

Section Subseq.

Context {A : Type}.

Lemma subseq_refl (l : list A) : subseq l l.
Proof. induction l; constructor; assumption. Qed.

Lemma subseq_filter (f : A -> bool) (l : list A) : subseq (filter f l) l.
Proof.
  induction l as [| x l IH]; simpl; [constructor |].
  destruct (f x); constructor; assumption.
Qed.

Lemma subseq_trans (l1 l2 l3 : list A) :
  subseq l1 l2 -> subseq l2 l3 -> subseq l1 l3.
Proof.
  intros H12 H23; revert l1 H12.
  induction H23 as [| x l2 l3 H IH | x l2 l3 H IH]; intros l1 H12.
  - assumption.
  - constructor; auto.
  - inversion H12; subst; [apply subseq_skip | apply subseq_keep]; auto.
Qed.

Lemma subseq_app_skip (p q : list A) (x : A) :
  subseq (p ++ q) (p ++ x :: q).
Proof.
  induction p; simpl; [apply subseq_skip, subseq_refl | apply subseq_keep; assumption].
Qed.

Lemma subseq_In (l1 l2 : list A) (x : A) :
  subseq l1 l2 -> In x l1 -> In x l2.
Proof.
  induction 1; simpl; intros Hx; auto.
  destruct Hx; auto.
Qed.

Lemma subseq_Forall (P : A -> Prop) (l1 l2 : list A) :
  subseq l1 l2 -> Forall P l2 -> Forall P l1.
Proof.
  intros Hs Hf; apply Forall_forall; intros x Hx.
  rewrite Forall_forall in Hf; eauto using subseq_In.
Qed.

Lemma subseq_ForallOrdPairs (R : A -> A -> Prop) (l1 l2 : list A) :
  subseq l1 l2 -> ForallOrdPairs R l2 -> ForallOrdPairs R l1.
Proof.
  induction 1; intros Hf.
  - constructor.
  - inversion Hf; subst; auto.
  - inversion Hf; subst; apply FOP_cons; eauto using subseq_Forall.
Qed.

End Subseq.

(** ** Keys stay distinct *)

Lemma distinct_on_app (k : list string) (l1 l2 : list row) :
  distinct_on k (l1 ++ l2) <->
  distinct_on k l1 /\ distinct_on k l2
  /\ Forall (fun a => Forall (fun b => conflicts k a b = false) l2) l1.
Proof.
  unfold distinct_on; induction l1 as [| x l1 IH]; simpl.
  - split; [intros H; repeat split; auto; constructor | intros (_ & H & _); exact H].
  - split.
    + intros H; inversion H as [| ? ? Hx Hrest]; subst.
      apply IH in Hrest; destruct Hrest as (H1 & H2 & H12).
      apply Forall_app in Hx; destruct Hx as [Hx1 Hx2].
      repeat split; auto; constructor; auto.
    + intros (H1 & H2 & H12).
      inversion H1 as [| ? ? Hx1 H1']; subst.
      inversion H12 as [| ? ? Hx2 H12']; subst.
      constructor; [apply Forall_app; auto | apply IH; auto].
Qed.

Lemma no_conflict_Forall (k : list string) (r : row) (others : list row) :
  forallb (fun o => negb (conflicts k o r)) others = true ->
  Forall (fun o => conflicts k o r = false) others.
Proof.
  rewrite forallb_forall, Forall_forall; intros H o Ho.
  apply H in Ho; apply negb_true_iff in Ho; exact Ho.
Qed.

(** A row that collides with none of the others can stand anywhere among
    them. *)
Lemma distinct_on_insert (k : list string) (p q : list row) (r : row) :
  distinct_on k (p ++ q) ->
  Forall (fun o => conflicts k o r = false) (p ++ q) ->
  distinct_on k (p ++ r :: q).
Proof.
  intros Hd Hr.
  apply distinct_on_app in Hd; destruct Hd as (Hp & Hq & Hpq).
  apply Forall_app in Hr; destruct Hr as [Hrp Hrq].
  apply distinct_on_app; repeat split; auto.
  - constructor; auto.
    apply Forall_forall; intros o Ho; rewrite conflicts_sym.
    rewrite Forall_forall in Hrq; auto.
  - apply Forall_forall; intros a Ha.
    rewrite Forall_forall in Hrp, Hpq.
    constructor; [apply Hrp; exact Ha | apply Hpq; exact Ha].
Qed.

Lemma distinct_on_remove (k : list string) (p q : list row) (r : row) :
  distinct_on k (p ++ r :: q) -> distinct_on k (p ++ q).
Proof.
  intros H; eapply subseq_ForallOrdPairs; [| exact H].
  apply subseq_app_skip.
Qed.

Lemma unique_ok_Forall (t : Table) (others : list row) (r : row) :
  unique_ok t others r = true ->
  Forall (fun k => Forall (fun o => conflicts k o r = false) others) (unique_keys t).
Proof.
  unfold unique_ok; rewrite forallb_forall, Forall_forall.
  intros H k Hk; apply no_conflict_Forall; auto.
Qed.

Lemma check_row_Ok (t : Table) (others : list row) (r : row) (u : unit) :
  check_row t others r = Ok u ->
  not_null_ok t r = true /\ checks_ok t r = true /\ unique_ok t others r = true.
Proof.
  unfold check_row; intros H; ok_inv H; auto.
Qed.

Lemma new_row_columns (t : Table) (existing : list row) (vals : row) :
  map fst (new_row t existing vals) = column_names t.
Proof.
  unfold new_row, column_names; rewrite map_map; reflexivity.
Qed.

Lemma assign_columns (vals r : row) : map fst (assign vals r) = map fst r.
Proof.
  unfold assign; rewrite map_map; reflexivity.
Qed.

(** ** Tables stay well-formed *)

Lemma table_ok_nil (t : Table) : table_ok t [].
Proof.
  split; [constructor |].
  apply Forall_forall; intros; constructor.
Qed.

Lemma table_ok_insert (t : Table) (p q : list row) (r : row) :
  table_ok t (p ++ q) -> row_ok t r -> unique_ok t (p ++ q) r = true ->
  table_ok t (p ++ r :: q).
Proof.
  intros [Hrows Hkeys] Hr Hu; split.
  - apply Forall_app in Hrows; destruct Hrows.
    apply Forall_app; split; auto.
  - apply unique_ok_Forall in Hu.
    rewrite Forall_forall in *; intros k Hk.
    apply distinct_on_insert; auto.
Qed.

Lemma table_ok_remove (t : Table) (p q : list row) (r : row) :
  table_ok t (p ++ r :: q) -> table_ok t (p ++ q).
Proof.
  intros [Hrows Hkeys]; split.
  - apply Forall_app in Hrows; destruct Hrows as [Hp Hq].
    inversion Hq; subst; apply Forall_app; auto.
  - rewrite Forall_forall in *; intros k Hk.
    eapply distinct_on_remove; eauto.
Qed.

Lemma table_ok_subseq (t : Table) (rows rows' : list row) :
  subseq rows' rows -> table_ok t rows -> table_ok t rows'.
Proof.
  intros Hs [Hrows Hkeys]; split.
  - eapply subseq_Forall; eauto.
  - rewrite Forall_forall in *; intros k Hk.
    eapply subseq_ForallOrdPairs; eauto.
    apply Hkeys; exact Hk.
Qed.

Lemma table_ok_snoc (t : Table) (rows : list row) (r : row) :
  table_ok t rows -> row_ok t r -> unique_ok t rows r = true ->
  table_ok t (rows ++ [r]).
Proof.
  intros H Hr Hu.
  apply table_ok_insert; rewrite ?app_nil_r; assumption.
Qed.

Lemma db_ok_set_rows (db : Database) (m : model) (rs : list row) :
  db_ok db -> table_ok (schema m) rs -> db_ok (set_rows db m rs).
Proof.
  intros Hdb Hrs m'.
  destruct m, m'; try exact Hrs;
    match goal with |- table_ok (schema ?x) _ => exact (Hdb x) end.
Qed.

Lemma db_ok_empty (fk : bool) (langs : list Z) : db_ok (empty_db fk langs).
Proof. intros m; destruct m; apply table_ok_nil. Qed.

(** *** INSERT *)

Lemma exec_insert_Ok (db db' : Database) (m : model) (vals : row) :
  exec_insert db m vals = Ok db' ->
  db' = set_rows db m (rows_of db m ++ [new_row (schema m) (rows_of db m) vals])
  /\ row_ok (schema m) (new_row (schema m) (rows_of db m) vals)
  /\ unique_ok (schema m) (rows_of db m) (new_row (schema m) (rows_of db m) vals) = true
  /\ (foreign_keys db = true ->
      fk_child_ok db (schema m) (fun _ => true)
                  (new_row (schema m) (rows_of db m) vals) = true).
Proof.
  unfold exec_insert, check_fk_child; intros H; ok_inv H.
  apply check_row_Ok in H_2_1; destruct H_2_1 as (Hn & Hc & Hu).
  subst db'; repeat split; auto using new_row_columns.
  intros Hfk; rewrite Hfk in H_2_2_1; exact H_2_2_1.
Qed.

Lemma exec_insert_db_ok (db db' : Database) (m : model) (vals : row) :
  db_ok db -> exec_insert db m vals = Ok db' -> db_ok db'.
Proof.
  intros Hdb H; apply exec_insert_Ok in H; destruct H as (-> & Hr & Hu & _).
  apply db_ok_set_rows; [assumption |].
  apply table_ok_snoc; auto.
Qed.

(** *** UPDATE *)

Lemma update_rows_table_ok (db : Database) (m : model) (where_ : row -> bool) (vals : row)
      (todo done rows : list row) :
  table_ok (schema m) (done ++ todo) ->
  update_rows db m where_ vals done todo = Ok rows ->
  table_ok (schema m) rows.
Proof.
  revert done; induction todo as [| r rest IH]; intros done Hok H; simpl in H.
  - injection H as <-; rewrite app_nil_r in Hok; exact Hok.
  - destruct (where_ r).
    + ok_inv H.
      apply check_row_Ok in H_1; destruct H_1 as (Hn & Hc & Hu).
      apply (IH (done ++ [assign vals r])%list); [| exact H_2_2_2].
      rewrite <- app_assoc; simpl.
      apply table_ok_insert; auto.
      * eapply table_ok_remove; eauto.
      * repeat split; auto.
        rewrite assign_columns.
        destruct Hok as [Hrows _]; apply Forall_app in Hrows; destruct Hrows as [_ Hr].
        inversion Hr as [| ? ? Hr' _]; subst; apply Hr'.
    + apply (IH (done ++ [r])%list); [| exact H].
      rewrite <- app_assoc; exact Hok.
Qed.

Lemma exec_update_db_ok (db db' : Database) (m : model) (where_ : row -> bool) (vals : row) :
  db_ok db -> exec_update db m where_ vals = Ok db' -> db_ok db'.
Proof.
  unfold exec_update; intros Hdb H; ok_inv H; subst db'.
  apply db_ok_set_rows; [assumption |].
  eapply update_rows_table_ok; [| eassumption].
  apply (Hdb m).
Qed.

(** *** DELETE *)

Lemma shrinks_trans (db1 db2 db3 : Database) :
  shrinks db1 db2 -> shrinks db2 db3 -> shrinks db1 db3.
Proof.
  intros (F12 & L12 & S12) (F23 & L23 & S23); repeat split; try congruence.
  intros m; eapply subseq_trans; eauto.
Qed.

Lemma shrinks_filter (db : Database) (m : model) (f : row -> bool) :
  shrinks db (set_rows db m (filter f (rows_of db m))).
Proof.
  repeat split; intros m'.
  destruct m, m'; simpl; try apply subseq_refl; apply subseq_filter.
Qed.

Lemma delete_where_shrinks (depth : nat) :
  forall (db db' : Database) (m : model) (where_ : row -> bool),
    delete_where depth db m where_ = Ok db' -> shrinks db db'.
Proof.
  induction depth as [| depth IH]; intros db db' m where_ H; simpl in H; [discriminate |].
  destruct (foreign_keys db).
  - remember (filter where_ (rows_of db m)) as gone eqn:Egone; clear Egone.
    assert (Hstart : forall dbs, Ok (set_rows db m (filter (fun r => negb (where_ r)) (rows_of db m)))
                                 = Ok dbs -> shrinks db dbs).
    { intros dbs E; injection E as <-; apply shrinks_filter. }
    revert H Hstart.
    generalize (Ok (set_rows db m (filter (fun r => negb (where_ r)) (rows_of db m)))).
    induction (referrers m) as [| [[[m' cc] pc] action] refs IHrefs];
      intros acc H Hstart; simpl in H.
    + apply Hstart; exact H.
    + apply (IHrefs _ H); intros dbs E.
      ok_inv E.
      specialize (Hstart _ E_1).
      destruct action.
      * ok_inv E_2; subst; exact Hstart.
      * eapply shrinks_trans; [exact Hstart |].
        eapply IH; exact E_2.
  - injection H as <-; apply shrinks_filter.
Qed.

Lemma shrinks_db_ok (db db' : Database) : shrinks db db' -> db_ok db -> db_ok db'.
Proof.
  intros (_ & _ & Hs) Hdb m.
  eapply table_ok_subseq; [apply Hs | apply Hdb].
Qed.

(** *** INSERT .. ON CONFLICT DO UPDATE *)

Lemma split_conflict_Some (cols : list string) (r : row) (rows before after : list row) (x : row) :
  split_conflict cols r rows = Some (before, x, after) ->
  rows = before ++ x :: after
  /\ conflicts cols x r = true
  /\ Forall (fun o => conflicts cols o r = false) before.
Proof.
  revert before; induction rows as [| o rest IH]; intros before H; simpl in H; [discriminate |].
  destruct (conflicts cols o r) eqn:E.
  - injection H as <- <- <-; repeat split; auto.
  - destruct (split_conflict cols r rest) as [[[b y] a] |] eqn:E'; [| discriminate].
    injection H as <- <- <-.
    destruct (IH b eq_refl) as (-> & Hy & Hb); repeat split; auto.
Qed.

Lemma split_conflict_None (cols : list string) (r : row) (rows : list row) :
  split_conflict cols r rows = None ->
  Forall (fun o => conflicts cols o r = false) rows.
Proof.
  induction rows as [| o rest IH]; simpl; intros H; [constructor |].
  destruct (conflicts cols o r) eqn:E; [discriminate |].
  destruct (split_conflict cols r rest) as [[[b y] a] |]; [discriminate |].
  constructor; auto.
Qed.

Lemma exec_upsert_db_ok (db db' : Database) (m : model) (vals : row)
      (index_elements : list string) (set_ : row) :
  db_ok db -> exec_upsert db m vals index_elements set_ = Ok db' -> db_ok db'.
Proof.
  unfold exec_upsert; intros Hdb H; ok_inv H.
  destruct (split_conflict index_elements _ (rows_of db m)) as [[[before old] after] |] eqn:E.
  - ok_inv H_2_2_2.
    apply split_conflict_Some in E; destruct E as (Erows & _ & _).
    apply check_row_Ok in H_2_2_2_1; destruct H_2_2_2_1 as (Hn & Hc & Hu).
    pose proof (Hdb m) as Hm; rewrite Erows in Hm.
    subst db'; apply db_ok_set_rows; [assumption |].
    apply table_ok_insert; auto.
    + eapply table_ok_remove; exact Hm.
    + repeat split; auto.
      rewrite assign_columns.
      destruct Hm as [Hrows _]; apply Forall_app in Hrows; destruct Hrows as [_ Hr].
      inversion Hr as [| ? ? Hr' _]; subst; apply Hr'.
  - ok_inv H_2_2_2; subst db'.
    apply db_ok_set_rows; [assumption |].
    apply table_ok_snoc; [apply Hdb | | assumption].
    repeat split; auto using new_row_columns.
Qed.

(** *** Every statement, every reachable store *)

Lemma exec_db_ok (s : stmt) (db db' : Database) :
  db_ok db -> exec s db = Ok db' -> db_ok db'.
Proof.
  intros Hdb H; destruct s; simpl in H.
  - eapply exec_insert_db_ok; eauto.
  - eapply exec_update_db_ok; eauto.
  - eapply shrinks_db_ok; [| exact Hdb].
    eapply delete_where_shrinks; exact H.
  - eapply exec_upsert_db_ok; eauto.
Qed.

Lemma reachable_db_ok (db : Database) : reachable db -> db_ok db.
Proof.
  induction 1 as [fk langs | db s db' _ IH H].
  - apply db_ok_empty.
  - eapply exec_db_ok; eauto.
Qed.

(** ** Reading the constraints of a row *)

Lemma not_null_ok_column (t : Table) (r : row) (c : Column) :
  not_null_ok t r = true -> In c (columns t) -> nullable c = false ->
  get r (name c) <> VNull.
Proof.
  unfold not_null_ok; rewrite forallb_forall; intros H Hc Hn E.
  apply H in Hc; rewrite Hn, E in Hc; discriminate.
Qed.

Lemma checks_ok_constraint (t : Table) (r : row) (p : cond) (n : string) :
  checks_ok t r = true -> In (CheckConstraint p n) (table_args t) ->
  check_passes r p = true.
Proof.
  unfold checks_ok; rewrite forallb_forall; intros H Hin.
  apply (H _ Hin).
Qed.

(** [c IN (l)]: a row passes with NULL, or with one of the listed integers. *)
Lemma check_in_literals (r : row) (c : string) (l : list Z) :
  check_passes r (In_ (Col c) (map Lit l)) = true ->
  get r c = VNull \/ exists n, get r c = VInt n /\ In n l.
Proof.
  unfold check_passes; simpl.
  destruct (get r c) as [| x | s] eqn:E; [left; reflexivity | |].
  - intros H; right; exists x; split; [reflexivity |].
    induction l as [| n l IH]; simpl in *; [discriminate |].
    unfold sql_eq at 1 in H; simpl in H.
    destruct (Z.compare_spec x n) as [-> | Hlt | Hgt]; [left; reflexivity | |];
      right; apply IH;
      destruct (fold_right _ _ (map Lit l)) as [[|] |]; simpl in H; congruence.
  - intros H; exfalso.
    induction l as [| n l IH]; simpl in *; [discriminate |].
    unfold sql_eq at 1 in H; simpl in H.
    destruct (fold_right _ _ (map Lit l)) as [[|] |]; simpl in H; auto; discriminate.
Qed.

(** [(a != x) OR (b BETWEEN lo AND hi)] on a row where [a = x]: it passes
    with [b] NULL, or with [b] an integer of the range. *)
Lemma check_ne_or_between (r : row) (a b : string) (x lo hi : Z) :
  check_passes r (Or (Ne (Col a) (Lit x)) (Between (Col b) (Lit lo) (Lit hi))) = true ->
  get r a = VInt x ->
  get r b = VNull \/ exists n, get r b = VInt n /\ lo <= n <= hi.
Proof.
  unfold check_passes; simpl; intros H Ea; rewrite Ea in H.
  unfold sql_eq in H; simpl in H; rewrite Z.compare_refl in H; simpl in H.
  destruct (get r b) as [| n | s]; [left; reflexivity | | simpl in H; discriminate].
  right; exists n; split; [reflexivity |].
  unfold sql_le in H; simpl in H.
  destruct (Z.compare_spec lo n), (Z.compare_spec n hi); simpl in H;
    try discriminate; lia.
Qed.

Lemma valid_status_of_checks (r : row) :
  not_null_ok TokenProgress_table r = true -> checks_ok TokenProgress_table r = true ->
  valid_status r.
Proof.
  intros Hn Hc.
  pose proof (checks_ok_constraint _ _ _ _ Hc (or_introl eq_refl)) as H.
  apply (check_in_literals r "status" [1; 2; 3]) in H.
  destruct H as [H | (n & E & Hin)].
  - exfalso; revert H.
    apply (not_null_ok_column _ _ (mapped_column "status" SmallInteger false) Hn);
      simpl; auto.
  - simpl in Hin; destruct Hin as [<- | [<- | [<- | []]]];
      [exists LEARNING | exists KNOWN | exists IGNORE]; exact E.
Qed.

Lemma token_progress_row_ok (r : row) :
  row_ok TokenProgress_table r -> stage_in_range_when_learning r.
Proof.
  intros (_ & Hn & Hc); split.
  - apply valid_status_of_checks; assumption.
  - intros Es Hs.
    pose proof (checks_ok_constraint _ _ _ _ Hc (or_intror (or_introl eq_refl))) as H.
    destruct (check_ne_or_between _ _ _ _ _ _ H Es) as [E | E]; [contradiction | exact E].
Qed.

Lemma valid_kind_of_checks (r : row) :
  not_null_ok Token_table r = true -> checks_ok Token_table r = true -> valid_kind r.
Proof.
  intros Hn Hc.
  pose proof (checks_ok_constraint _ _ _ _ Hc (or_introl eq_refl)) as H.
  apply (check_in_literals r "kind" [1; 2]) in H.
  destruct H as [H | (n & E & Hin)].
  - exfalso; revert H.
    apply (not_null_ok_column _ _
             (with_server_default (str (TokenKind_value WORD))
                (mapped_column "kind" SmallInteger false)) Hn); simpl; auto.
  - simpl in Hin; destruct Hin as [<- | [<- | []]];
      [exists WORD | exists PHRASE]; exact E.
Qed.

Lemma book_vocab_row_ok (r : row) :
  row_ok BookVocab_table r -> get r "token_count" <> VNull.
Proof.
  intros (_ & Hn & _).
  apply (not_null_ok_column _ _ (mapped_column "token_count" Integer false) Hn);
    simpl; auto.
Qed.

(** The value a column has after [SET]. *)
Lemma get_assign (vals r : row) (c : string) :
  get (assign vals r) c =
  match lookup r c with
  | None => VNull
  | Some v => match lookup vals c with Some v' => v' | None => v end
  end.
Proof.
  unfold get; induction r as [| [k v] r IH]; simpl; [reflexivity |].
  destruct (String.eqb k c) eqn:E; [| exact IH].
  apply String.eqb_eq in E; subst k; reflexivity.
Qed.

Lemma get_written (vals : row) (c : string) :
  get vals c <> VNull -> lookup vals c = Some (get vals c).
Proof. unfold get; destruct (lookup vals c); [reflexivity | congruence]. Qed.

(** An UPDATE that reaches a row whose new version no check accepts fails. *)
Lemma update_rows_refused (db : Database) (m : model) (where_ : row -> bool) (vals : row)
      (todo done : list row) :
  (forall r, not_null_ok (schema m) (assign vals r) && checks_ok (schema m) (assign vals r)
             = false) ->
  existsb where_ todo = true ->
  exists e, update_rows db m where_ vals done todo = Err e.
Proof.
  intros Hbad; revert done; induction todo as [| r rest IH]; simpl; intros done Hex;
    [discriminate |].
  destruct (where_ r); [| apply IH; exact Hex].
  unfold check_row; specialize (Hbad r).
  destruct (not_null_ok (schema m) (assign vals r)); simpl; [| eauto].
  simpl in Hbad; rewrite Hbad; simpl; eauto.
Qed.

Lemma reachable_row_ok (db : Database) (m : model) (r : row) :
  reachable db -> In r (rows_of db m) -> row_ok (schema m) r.
Proof.
  intros Hdb Hr; apply reachable_db_ok in Hdb.
  destruct (Hdb m) as [Hrows _]; rewrite Forall_forall in Hrows; auto.
Qed.

Lemma reachable_transaction (ss : list stmt) (db db' : Database) :
  reachable db -> transaction ss db = Ok db' -> reachable db'.
Proof.
  revert db; induction ss as [| s ss IH]; simpl; intros db Hdb H.
  - injection H as <-; exact Hdb.
  - ok_inv H; eapply IH; [| eassumption].
    eapply reachable_exec; eassumption.
Qed.

(** ** The sample stores are stores the statements produce *)

Lemma alpha_db_reachable (fk : bool) : reachable (alpha_db fk).
Proof.
  apply (reachable_transaction alpha_statements (empty_db fk [1]));
    [apply reachable_empty | destruct fk; reflexivity].
Qed.

(** * Learning progress: status and stage *)

(** C1, as the schema has it: every stored token_progress row has one of
    the three status codes, and a learning_stage that is set while the
    status is LEARNING lies in 1..5.  (Nothing is said about the stage of a
    row whose status is not LEARNING.) *)
Theorem token_progress_stage_in_range (db : Database) (r : row) :
  reachable db -> In r (token_progress db) -> stage_in_range_when_learning r.
Proof.
  intros Hdb Hr; apply token_progress_row_ok.
  apply (reachable_row_ok db TokenProgress r Hdb Hr).
Qed.

Lemma token_progress_stage_in_range_witness :
  stage_in_range_when_learning
    [("token_id", VInt 1); ("status", VInt 1); ("learning_stage", VInt 1);
     ("translation", VNull)].
Proof.
  apply (token_progress_stage_in_range
           (run (Insert TokenProgress
                   [("token_id", VInt 1); ("status", VInt 1); ("learning_stage", VInt 1)])
                (alpha_db true))).
  - apply (reachable_exec (alpha_db true)
             (Insert TokenProgress
                [("token_id", VInt 1); ("status", VInt 1); ("learning_stage", VInt 1)]));
      [apply alpha_db_reachable | reflexivity].
  - simpl; auto.
Defined.

(** C1 as it is worded fails: a row with status KNOWN and learning_stage 3
    is committed, foreign keys enforced and the token present; its stage is
    set although its status is not LEARNING. *)
Lemma known_row_keeps_a_stage :
  exec (Insert TokenProgress
          [("token_id", VInt 1); ("status", VInt 2); ("learning_stage", VInt 3)])
       (alpha_db true)
  = Ok (set_rows (alpha_db true) TokenProgress
          [[("token_id", VInt 1); ("status", VInt 2); ("learning_stage", VInt 3);
            ("translation", VNull)]])
  /\ ~ stage_iff_learning
         [("token_id", VInt 1); ("status", VInt 2); ("learning_stage", VInt 3);
          ("translation", VNull)].
Proof.
  split; [reflexivity |].
  intros [[H _] _].
  assert (E : VInt 2 = VInt 1) by (apply H; discriminate).
  discriminate E.
Qed.

(** The CHECK on the stage evaluates to NULL, not to false, for a LEARNING
    row that has no stage, so such a row is committed too. *)
Example learning_row_without_stage_is_stored :
  exec (Insert TokenProgress [("token_id", VInt 1); ("status", VInt 1)]) (alpha_db true)
  = Ok (set_rows (alpha_db true) TokenProgress
          [[("token_id", VInt 1); ("status", VInt 1); ("learning_stage", VNull);
            ("translation", VNull)]]).
Proof. reflexivity. Qed.

Example learning_row_stage_six_is_refused :
  exec (Insert TokenProgress
          [("token_id", VInt 1); ("status", VInt 1); ("learning_stage", VInt 6)])
       (alpha_db true)
  = Err (IntegrityError "CHECK constraint failed").
Proof. reflexivity. Qed.

(** * The inverted index: token counts *)

(** C2, as the schema has it: every stored book_vocab row has a token_count
    that is not NULL.  (The schema has no CHECK on its sign.) *)
Theorem book_vocab_count_not_null (db : Database) (r : row) :
  reachable db -> In r (book_vocab db) -> get r "token_count" <> VNull.
Proof.
  intros Hdb Hr; apply book_vocab_row_ok.
  apply (reachable_row_ok db BookVocab r Hdb Hr).
Qed.

Lemma book_vocab_count_not_null_witness :
  get [("book_id", VInt 1); ("token_id", VInt 1); ("token_count", VInt 2)] "token_count"
  <> VNull.
Proof.
  apply (book_vocab_count_not_null
           (run (Insert BookVocab
                   [("book_id", VInt 1); ("token_id", VInt 1); ("token_count", VInt 2)])
                (alpha_db true))).
  - apply (reachable_exec (alpha_db true)
             (Insert BookVocab
                [("book_id", VInt 1); ("token_id", VInt 1); ("token_count", VInt 2)]));
      [apply alpha_db_reachable | reflexivity].
  - simpl; auto.
Defined.

(** C2 as it is worded fails: a book_vocab row with token_count 0 is
    committed, foreign keys enforced and both the book and the token
    present. *)
Lemma zero_count_is_stored :
  exec (Insert BookVocab
          [("book_id", VInt 1); ("token_id", VInt 1); ("token_count", VInt 0)])
       (alpha_db true)
  = Ok (set_rows (alpha_db true) BookVocab
          [[("book_id", VInt 1); ("token_id", VInt 1); ("token_count", VInt 0)]])
  /\ ~ count_positive
         [("book_id", VInt 1); ("token_id", VInt 1); ("token_count", VInt 0)].
Proof.
  split; [reflexivity |].
  intros (n & E & Hn); simpl in E.
  injection E as <-; lia.
Qed.

Example negative_count_is_stored_by_update :
  transaction
    [ Insert BookVocab [("book_id", VInt 1); ("token_id", VInt 1); ("token_count", VInt 2)];
      Update BookVocab (column_is "book_id" (VInt 1)) [("token_count", VInt (-4))] ]
    (alpha_db true)
  = Ok (set_rows (alpha_db true) BookVocab
          [[("book_id", VInt 1); ("token_id", VInt 1); ("token_count", VInt (-4))]]).
Proof. reflexivity. Qed.

(** * Enumeration codes *)

Lemma refused_intro (s : stmt) (db : Database) :
  (forall db', exec s db <> Ok db') -> refused s db.
Proof.
  intros H; unfold refused, run.
  destruct (exec s db) as [db' | e]; [destruct (H db' eq_refl) | eauto].
Qed.

Lemma get_new_row_kind (rows : list row) (vals : row) :
  get vals "kind" <> VNull ->
  get (new_row Token_table rows vals) "kind" = get vals "kind".
Proof.
  intros H; unfold new_row, get at 1; simpl.
  unfold stored_value; simpl.
  destruct (get vals "kind"); [contradiction | reflexivity | reflexivity].
Qed.

Lemma get_new_row_status (rows : list row) (vals : row) :
  get (new_row TokenProgress_table rows vals) "status" = get vals "status".
Proof.
  unfold new_row, get at 1; simpl.
  unfold stored_value; simpl.
  destruct (get vals "status"); reflexivity.
Qed.

(** C8: a token whose kind is set to anything but the code of a [TokenKind],
    and a token_progress row whose status is anything but the code of a
    [LearningStatus], are refused on INSERT and on UPDATE, and the store is
    left as it was. *)
Theorem invalid_codes_are_refused (db : Database) (token progress : row) :
  get token "kind" <> VNull -> ~ valid_kind token -> ~ valid_status progress ->
  refused (Insert Token token) db
  /\ refused (Insert TokenProgress progress) db
  /\ (forall where_, existsb where_ (tokens db) = true ->
                     refused (Update Token where_ token) db)
  /\ (forall where_, written progress "status" = true ->
                     existsb where_ (token_progress db) = true ->
                     refused (Update TokenProgress where_ progress) db).
Proof.
  intros Hset Hkind Hstatus; split; [| split; [| split]].
  - apply refused_intro.
    intros db' H; simpl in H; apply exec_insert_Ok in H.
    destruct H as (_ & (_ & Hn & Hc) & _).
    destruct (valid_kind_of_checks _ Hn Hc) as [k Hk].
    rewrite get_new_row_kind in Hk by exact Hset.
    apply Hkind; exists k; exact Hk.
  - apply refused_intro.
    intros db' H; simpl in H; apply exec_insert_Ok in H.
    destruct H as (_ & (_ & Hn & Hc) & _).
    destruct (valid_status_of_checks _ Hn Hc) as [k Hk].
    rewrite get_new_row_status in Hk.
    apply Hstatus; exists k; exact Hk.
  - intros where_ Hex; apply refused_intro; intros db' H.
    simpl in H; unfold exec_update in H.
    destruct (check_statement _ _); simpl in H; [| discriminate].
    destruct (update_rows_refused db Token where_ token (tokens db) []) as [e He];
      [| exact Hex | simpl in H; rewrite He in H; discriminate].
    intros r.
    destruct (not_null_ok _ _) eqn:Hn; [| reflexivity].
    destruct (checks_ok _ _) eqn:Hc; [| reflexivity].
    exfalso.
    destruct (valid_kind_of_checks _ Hn Hc) as [k Hk].
    rewrite get_assign in Hk.
    destruct (lookup r "kind"); [| discriminate].
    rewrite (get_written _ _ Hset) in Hk.
    apply Hkind; exists k; exact Hk.
  - intros where_ Hw Hex; apply refused_intro; intros db' H.
    simpl in H; unfold exec_update in H.
    destruct (check_statement _ _); simpl in H; [| discriminate].
    destruct (update_rows_refused db TokenProgress where_ progress (token_progress db) [])
      as [e He]; [| exact Hex | simpl in H; rewrite He in H; discriminate].
    intros r.
    destruct (not_null_ok _ _) eqn:Hn; [| reflexivity].
    destruct (checks_ok _ _) eqn:Hc; [| reflexivity].
    exfalso.
    destruct (valid_status_of_checks _ Hn Hc) as [k Hk].
    rewrite get_assign in Hk.
    destruct (lookup r "status"); [| discriminate].
    unfold written in Hw.
    apply Hstatus; exists k; unfold get.
    destruct (lookup progress "status"); [exact Hk | discriminate].
Qed.

Lemma invalid_codes_are_refused_witness :
  refused (Insert Token [("language_id", VInt 1); ("norm", VText "cat"); ("kind", VInt 3)])
          (alpha_db true)
  /\ refused (Insert TokenProgress [("token_id", VInt 1); ("status", VInt 4)])
             (alpha_db true).
Proof.
  destruct (invalid_codes_are_refused (alpha_db true)
              [("language_id", VInt 1); ("norm", VText "cat"); ("kind", VInt 3)]
              [("token_id", VInt 1); ("status", VInt 4)]) as (H1 & H2 & _).
  - simpl; discriminate.
  - intros [k H]; destruct k; simpl in H; discriminate.
  - intros [s H]; destruct s; simpl in H; discriminate.
  - split; [exact H1 | exact H2].
Defined.

(** No statement leaves a code behind that is not of the enumeration. *)
Lemma stored_codes_are_valid (db : Database) :
  reachable db ->
  Forall valid_kind (tokens db) /\ Forall valid_status (token_progress db).
Proof.
  intros Hdb; split; apply Forall_forall; intros r Hr.
  - destruct (reachable_row_ok db Token r Hdb Hr) as (_ & Hn & Hc).
    apply valid_kind_of_checks; assumption.
  - destruct (reachable_row_ok db TokenProgress r Hdb Hr) as (_ & Hn & Hc).
    apply valid_status_of_checks; assumption.
Qed.

(** * Unique indexes *)

Lemma ForallOrdPairs_nth {A : Type} (R : A -> A -> Prop) (l : list A) :
  ForallOrdPairs R l ->
  forall i j a b, (i < j)%nat ->
                  nth_error l i = Some a -> nth_error l j = Some b -> R a b.
Proof.
  induction 1 as [| x l Hx _ IH]; intros i j a b Hij Hi Hj.
  - destruct i; discriminate.
  - destruct j as [| j]; [lia |].
    destruct i as [| i]; simpl in Hi, Hj.
    + injection Hi as <-.
      rewrite Forall_forall in Hx; apply Hx.
      eapply nth_error_In; eassumption.
    + apply (IH i j); auto; lia.
Qed.

Lemma conflicts_true (k : list string) (a b : row) :
  (forall c, In c k -> get a c <> VNull) -> same_on k a b -> conflicts k a b = true.
Proof.
  intros Hn Hs; unfold conflicts; apply forallb_forall; intros c Hc.
  rewrite <- (Hs c Hc), value_eqb_refl.
  specialize (Hn c Hc); destruct (get a c); [contradiction | reflexivity | reflexivity].
Qed.

Lemma same_on_sym (k : list string) (a b : row) : same_on k a b -> same_on k b a.
Proof. intros H c Hc; symmetry; apply H; exact Hc. Qed.

Lemma distinct_on_unique_on (k : list string) (rows : list row) :
  distinct_on k rows ->
  (forall r c, In r rows -> In c k -> get r c <> VNull) ->
  unique_on k rows.
Proof.
  intros Hd Hn i j a b Hi Hj Hs.
  destruct (Nat.lt_trichotomy i j) as [Hlt | [Heq | Hgt]]; [exfalso | exact Heq | exfalso].
  - pose proof (ForallOrdPairs_nth _ _ Hd i j a b Hlt Hi Hj) as H; simpl in H.
    rewrite conflicts_true in H; [discriminate | | exact Hs].
    intros c Hc; eapply Hn; [eapply nth_error_In; exact Hi | exact Hc].
  - pose proof (ForallOrdPairs_nth _ _ Hd j i b a Hgt Hj Hi) as H; simpl in H.
    rewrite conflicts_true in H; [discriminate | | apply same_on_sym; exact Hs].
    intros c Hc; eapply Hn; [eapply nth_error_In; exact Hj | exact Hc].
Qed.

Lemma key_not_null_get (t : Table) (k : list string) (r : row) (c : string) :
  key_not_null t k = true -> not_null_ok t r = true -> In c k -> get r c <> VNull.
Proof.
  unfold key_not_null; rewrite forallb_forall; intros Hk Hn Hc.
  apply Hk in Hc; apply existsb_exists in Hc; destruct Hc as (col & Hin & H).
  apply andb_true_iff in H; destruct H as [Hname Hnull].
  apply String.eqb_eq in Hname; subst c.
  apply negb_true_iff in Hnull.
  eapply not_null_ok_column; eassumption.
Qed.

(** A key of NOT NULL columns under a unique index (or the primary key)
    is unique among the stored rows. *)
Lemma unique_key_enforced (db : Database) (m : model) (k : list string) :
  reachable db -> In k (unique_keys (schema m)) -> key_not_null (schema m) k = true ->
  unique_on k (rows_of db m).
Proof.
  intros Hdb Hk Hcols; pose proof (reachable_db_ok db Hdb m) as [Hrows Hkeys].
  apply distinct_on_unique_on.
  - rewrite Forall_forall in Hkeys; apply Hkeys; exact Hk.
  - intros r c Hr Hc.
    rewrite Forall_forall in Hrows; destruct (Hrows r Hr) as (_ & Hn & _).
    eapply key_not_null_get; eassumption.
Qed.

(** An INSERT whose row would repeat the key of a stored row is refused. *)
Lemma duplicate_key_refused (db : Database) (m : model) (k : list string) (old vals : row) :
  In k (unique_keys (schema m)) -> In old (rows_of db m) ->
  (forall c, In c k -> get old c <> VNull) ->
  same_on k old (new_row (schema m) (rows_of db m) vals) ->
  refused (Insert m vals) db.
Proof.
  intros Hk Hold Hn Hs; apply refused_intro; intros db' H.
  simpl in H; apply exec_insert_Ok in H; destruct H as (_ & _ & Hu & _).
  apply unique_ok_Forall in Hu; rewrite Forall_forall in Hu.
  specialize (Hu k Hk); rewrite Forall_forall in Hu; specialize (Hu old Hold).
  rewrite conflicts_true in Hu; [discriminate | exact Hn | exact Hs].
Qed.

Lemma get_new_row_token_key (rows : list row) (vals : row) (c : string) :
  In c ["language_id"; "norm"] ->
  get (new_row Token_table rows vals) c = get vals c.
Proof.
  intros [<- | [<- | []]]; unfold new_row, get at 1; simpl;
    unfold stored_value; simpl;
    match goal with |- context [get vals ?c] => destruct (get vals c) end; reflexivity.
Qed.

Lemma get_new_row_chapter_key (rows : list row) (vals : row) (c : string) :
  In c ["book_id"; "chapter_number"] ->
  get (new_row Chapter_table rows vals) c = get vals c.
Proof.
  intros [<- | [<- | []]]; unfold new_row, get at 1; simpl;
    unfold stored_value; simpl;
    match goal with |- context [get vals ?c] => destruct (get vals c) end; reflexivity.
Qed.

(** C5: in every store the statements can produce, no two token rows have
    the same (language_id, norm), and an INSERT of a token whose language
    and norm are those of a stored token is refused. *)
Theorem token_language_norm_unique (db : Database) :
  reachable db ->
  unique_on ["language_id"; "norm"] (tokens db)
  /\ forall old vals,
       In old (tokens db) -> same_on ["language_id"; "norm"] old vals ->
       refused (Insert Token vals) db.
Proof.
  intros Hdb; split.
  - apply (unique_key_enforced db Token); simpl; auto.
  - intros old vals Hold Hs.
    apply (duplicate_key_refused db Token ["language_id"; "norm"] old); simpl; auto.
    + intros c Hc.
      destruct (reachable_row_ok db Token old Hdb Hold) as (_ & Hn & _).
      apply (key_not_null_get Token_table ["language_id"; "norm"] old c eq_refl Hn Hc).
    + intros c Hc; rewrite get_new_row_token_key by exact Hc; apply Hs; exact Hc.
Qed.

(** C9: in every store the statements can produce, no two chapter rows have
    the same (book_id, chapter_number), and an INSERT of a chapter whose
    book and number are those of a stored chapter is refused. *)
Theorem chapter_number_unique_in_book (db : Database) :
  reachable db ->
  unique_on ["book_id"; "chapter_number"] (chapters db)
  /\ forall old vals,
       In old (chapters db) -> same_on ["book_id"; "chapter_number"] old vals ->
       refused (Insert Chapter vals) db.
Proof.
  intros Hdb; split.
  - apply (unique_key_enforced db Chapter); simpl; auto.
  - intros old vals Hold Hs.
    apply (duplicate_key_refused db Chapter ["book_id"; "chapter_number"] old); simpl; auto.
    + intros c Hc.
      destruct (reachable_row_ok db Chapter old Hdb Hold) as (_ & Hn & _).
      apply (key_not_null_get Chapter_table ["book_id"; "chapter_number"] old c eq_refl Hn Hc).
    + intros c Hc; rewrite get_new_row_chapter_key by exact Hc; apply Hs; exact Hc.
Qed.

Lemma token_language_norm_unique_witness :
  refused (Insert Token [("language_id", VInt 1); ("norm", VText "sat"); ("kind", VInt 2)])
          (alpha_db true).
Proof.
  destruct (token_language_norm_unique (alpha_db true) (alpha_db_reachable true)) as [_ H].
  apply (H [("id", VInt 1); ("language_id", VInt 1); ("norm", VText "sat"); ("kind", VInt 1)]).
  - simpl; auto.
  - intros c [<- | [<- | []]]; reflexivity.
Defined.

Lemma chapter_number_unique_in_book_witness :
  refused (Insert Chapter [("book_id", VInt 1); ("chapter_number", VInt 1);
                           ("content", VText "the cat ran"); ("word_count", VInt 3)])
          (run (Insert Chapter [("book_id", VInt 1); ("chapter_number", VInt 1);
                                ("content", VText "the cat sat"); ("word_count", VInt 3)])
               (alpha_db true)).
Proof.
  destruct (chapter_number_unique_in_book
              (run (Insert Chapter [("book_id", VInt 1); ("chapter_number", VInt 1);
                                    ("content", VText "the cat sat"); ("word_count", VInt 3)])
                   (alpha_db true))) as [_ H].
  - apply (reachable_exec (alpha_db true)
             (Insert Chapter [("book_id", VInt 1); ("chapter_number", VInt 1);
                              ("content", VText "the cat sat"); ("word_count", VInt 3)]));
      [apply alpha_db_reachable | reflexivity].
  - apply (H [("id", VInt 1); ("book_id", VInt 1); ("chapter_number", VInt 1);
              ("content", VText "the cat sat"); ("word_count", VInt 3)]).
    + simpl; auto.
    + intros c [<- | [<- | []]]; reflexivity.
Defined.

(** * The default kind of a token *)

Lemma fold_max_le (n : Z) (ns : list Z) :
  n <= fold_right Z.max n ns /\ forall x, In x ns -> x <= fold_right Z.max n ns.
Proof.
  induction ns as [| y ns [IH1 IH2]]; simpl; [split; [lia | intros x []] |].
  split; [lia |].
  intros x [-> | Hx]; [lia | specialize (IH2 x Hx); lia].
Qed.

Lemma fold_max_In (n : Z) (ns : list Z) : In (fold_right Z.max n ns) (n :: ns).
Proof.
  induction ns as [| y ns IH]; simpl; [auto |].
  destruct (Z.max_spec y (fold_right Z.max n ns)) as [[_ ->] | [_ ->]]; [| auto].
  destruct IH as [IH | IH]; [left; exact IH | right; right; exact IH].
Qed.

Lemma NoDup_map_of_nat (l : list nat) : NoDup l -> NoDup (map Z.of_nat l).
Proof.
  induction 1 as [| x l Hx _ IH]; simpl; constructor; [| exact IH].
  intros Hin; apply in_map_iff in Hin; destruct Hin as (y & Ey & Hy).
  apply Nat2Z.inj in Ey; subst y; contradiction.
Qed.

(** Among the first [length ids + 1] positive integers, one is not in
    [ids]; the least of them is not. *)
Lemma unused_rowid_unused (ids : list Z) : ~ In (unused_rowid ids) ids.
Proof.
  unfold unused_rowid.
  destruct (find _ _) as [c |] eqn:E.
  - apply find_some in E; destruct E as [_ E].
    apply negb_true_iff in E; intros Hin.
    assert (Hex : existsb (Z.eqb c) ids = true)
      by (apply existsb_exists; exists c; split; [exact Hin | apply Z.eqb_refl]).
    congruence.
  - exfalso.
    assert (Hincl : incl (map Z.of_nat (seq 1 (S (List.length ids)))) ids).
    { intros c Hc.
      pose proof (find_none _ _ E c Hc) as Hn; simpl in Hn.
      apply negb_false_iff, existsb_exists in Hn.
      destruct Hn as (x & Hx & Ex); apply Z.eqb_eq in Ex; subst x; exact Hx. }
    apply NoDup_incl_length in Hincl.
    + rewrite length_map, length_seq in Hincl; lia.
    + apply NoDup_map_of_nat, seq_NoDup.
Qed.

(** The new rowid is not in use. *)
Lemma next_rowid_unused (ids : list Z) : ~ In (next_rowid ids) ids.
Proof.
  destruct ids as [| m ms]; [intros [] |].
  unfold next_rowid.
  destruct (fold_right Z.max m ms <? max_int64); [| apply unused_rowid_unused].
  destruct (fold_max_le m ms) as [H1 H2].
  intros [E | Hin]; [lia | specialize (H2 _ Hin); lia].
Qed.

(** It is above every rowid in use, as long as the largest of them is not
    the greatest 64-bit integer. *)
Lemma next_rowid_above (ids : list Z) (n : Z) :
  (forall x, In x ids -> x < max_int64) -> In n ids -> n < next_rowid ids.
Proof.
  destruct ids as [| m ms]; [intros _ [] |].
  intros Hmax Hn; unfold next_rowid.
  pose proof (Hmax _ (fold_max_In m ms)) as Hlt.
  apply Z.ltb_lt in Hlt; rewrite Hlt.
  destruct (fold_max_le m ms) as [H1 H2].
  destruct Hn as [<- | Hn]; [lia | specialize (H2 n Hn); lia].
Qed.

Lemma int_values_In (rows : list row) (c : string) (r : row) (n : Z) :
  In r rows -> get r c = VInt n -> In n (int_values rows c).
Proof.
  intros Hr E; unfold int_values; apply in_flat_map.
  exists r; split; [exact Hr | rewrite E; simpl; auto].
Qed.

(** The rowid given to a new row collides with no stored row. *)
Lemma next_rowid_fresh (rows : list row) (c : string) (r : row) :
  get r c = VInt (next_rowid (int_values rows c)) ->
  forallb (fun o => negb (conflicts [c] o r)) rows = true.
Proof.
  intros E; apply forallb_forall; intros o Ho.
  unfold conflicts; simpl; rewrite E, andb_true_r.
  destruct (get o c) as [| n | s] eqn:Eo; simpl; try reflexivity.
  pose proof (next_rowid_unused (int_values rows c)) as Hnew.
  destruct (Z.eqb_spec n (next_rowid (int_values rows c))) as [En | _]; [| reflexivity].
  exfalso; apply Hnew; rewrite <- En.
  eapply int_values_In; eassumption.
Qed.

(** C10: whenever an INSERT of a token that leaves kind unset (or gives it
    as [None]) is committed, the row it adds has kind WORD (code 1), the
    column's server default. *)
Theorem token_kind_defaults_to_word (db db' : Database) (vals : row) :
  get vals "kind" = VNull -> exec (Insert Token vals) db = Ok db' ->
  exists r, tokens db' = tokens db ++ [r]
            /\ get r "kind" = VInt (TokenKind_value WORD).
Proof.
  intros Hkind H; simpl in H; apply exec_insert_Ok in H.
  destruct H as (-> & _).
  eexists; split; [reflexivity |].
  unfold new_row, get at 1; simpl.
  unfold stored_value; simpl; rewrite Hkind; reflexivity.
Qed.

Lemma token_kind_defaults_to_word_witness :
  exec (Insert Token [("language_id", VInt 1); ("norm", VText "cat")]) (alpha_db true)
  = Ok (set_rows (alpha_db true) Token
          [[("id", VInt 1); ("language_id", VInt 1); ("norm", VText "sat"); ("kind", VInt 1)];
           [("id", VInt 2); ("language_id", VInt 1); ("norm", VText "cat"); ("kind", VInt 1)]])
  /\ exists r,
       tokens (set_rows (alpha_db true) Token
                 [[("id", VInt 1); ("language_id", VInt 1); ("norm", VText "sat");
                   ("kind", VInt 1)];
                  [("id", VInt 2); ("language_id", VInt 1); ("norm", VText "cat");
                   ("kind", VInt 1)]])
       = tokens (alpha_db true) ++ [r]
       /\ get r "kind" = VInt (TokenKind_value WORD).
Proof.
  split; [reflexivity |].
  apply (token_kind_defaults_to_word (alpha_db true) _
           [("language_id", VInt 1); ("norm", VText "cat")]); reflexivity.
Defined.

(** * The totals upsert *)

Lemma conflicts_book_id (o : row) (b tok typ : Z) :
  conflicts ["book_id"] o (totals_row b tok typ) = column_is "book_id" (VInt b) o.
Proof.
  unfold conflicts, column_is; simpl; rewrite andb_true_r.
  change (get (totals_row b tok typ) "book_id") with (VInt b).
  destruct (get o "book_id"); reflexivity.
Qed.

Lemma split_conflict_app (cols : list string) (r x : row) (before after : list row) :
  Forall (fun o => conflicts cols o r = false) before ->
  conflicts cols x r = true ->
  split_conflict cols r (before ++ x :: after) = Some (before, x, after).
Proof.
  intros Hb Hx; induction Hb as [| o before Ho _ IH]; simpl.
  - rewrite Hx; reflexivity.
  - rewrite Ho, IH; reflexivity.
Qed.

(** The values of the statement of [upsert_stmt] name columns of the
    table; they can be bound when the three integers are 64-bit ones. *)
Lemma check_statement_totals (b tok typ : Z) :
  check_statement BookTotals_table
    ([("book_id", VInt b); ("total_tokens", VInt tok); ("total_types", VInt typ)]
     ++ [("total_tokens", VInt tok); ("total_types", VInt typ)])
  = require (int64 b && int64 tok && int64 typ)
            (OverflowError "Python int too large to convert to SQLite INTEGER").
Proof.
  unfold check_statement.
  change (known_columns BookTotals_table
            ([("book_id", VInt b); ("total_tokens", VInt tok); ("total_types", VInt typ)]
             ++ [("total_tokens", VInt tok); ("total_types", VInt typ)])) with true.
  cbn [require bind]; unfold bindable; cbn [app forallb snd].
  destruct (int64 b), (int64 tok), (int64 typ); reflexivity.
Qed.

(** A statement of [upsert_stmt] with an integer beyond 64 bits is not
    executed. *)
Lemma exec_upsert_stmt_overflow (db : Database) (b tok typ : Z) :
  int64 b && int64 tok && int64 typ = false ->
  exec (upsert_stmt b tok typ) db
  = Err (OverflowError "Python int too large to convert to SQLite INTEGER").
Proof.
  intros H; unfold upsert_stmt, exec; simpl; unfold exec_upsert.
  change (schema BookTotals) with BookTotals_table.
  rewrite check_statement_totals, H; reflexivity.
Qed.

(** What the statement of [upsert_stmt] does with 64-bit integers, once
    the checks that its three values always pass are taken out. *)
Lemma exec_upsert_stmt (db : Database) (b tok typ : Z) :
  int64 b && int64 tok && int64 typ = true ->
  exec (upsert_stmt b tok typ) db =
  match split_conflict ["book_id"] (totals_row b tok typ) (book_totals db) with
  | Some (before, old, after) =>
      let r' := assign [("total_tokens", VInt tok); ("total_types", VInt typ)] old in
      check_row BookTotals_table (before ++ after) r' ;;;
      Ok (set_rows db BookTotals (before ++ r' :: after))
  | None =>
      require (negb (foreign_keys db) || has_book db b)
              (IntegrityError "FOREIGN KEY constraint failed") ;;;
      Ok (set_rows db BookTotals (book_totals db ++ [totals_row b tok typ]))
  end.
Proof.
  intros Hbound.
  unfold upsert_stmt, exec; simpl; unfold exec_upsert.
  change (new_row (schema BookTotals) (rows_of db BookTotals)
            [("book_id", VInt b); ("total_tokens", VInt tok); ("total_types", VInt typ)])
    with (totals_row b tok typ).
  change (rows_of db BookTotals) with (book_totals db).
  change (schema BookTotals) with BookTotals_table.
  rewrite check_statement_totals, Hbound.
  change (not_null_ok BookTotals_table (totals_row b tok typ)) with true.
  change (checks_ok BookTotals_table (totals_row b tok typ)) with true.
  cbn [require bind].
  destruct (split_conflict ["book_id"] (totals_row b tok typ) (book_totals db))
    as [[[before old] after] |] eqn:E.
  - cbv zeta.
    destruct (check_row BookTotals_table (before ++ after) _) as [[] | e]; cbn [bind];
      [| reflexivity].
    unfold check_fk_child, fk_child_ok, parent_key_free; simpl.
    rewrite !orb_true_r; reflexivity.
  - apply split_conflict_None in E.
    assert (Hu : unique_ok BookTotals_table (book_totals db) (totals_row b tok typ) = true).
    { unfold unique_ok; apply forallb_forall; intros k Hk.
      change (In k [["book_id"]]) in Hk; destruct Hk as [<- | []].
      apply forallb_forall; intros o Ho.
      rewrite Forall_forall in E; rewrite (E o Ho); reflexivity. }
    rewrite Hu; cbn [require bind].
    unfold check_fk_child.
    replace (fk_child_ok db BookTotals_table (fun _ => true) (totals_row b tok typ))
      with (has_book db b); [reflexivity |].
    unfold fk_child_ok, has_book, column_is; simpl; rewrite andb_true_r; reflexivity.
Qed.

(** A committed statement of [upsert_stmt] had 64-bit integers. *)
Lemma exec_upsert_stmt_bound (db db' : Database) (b tok typ : Z) :
  exec (upsert_stmt b tok typ) db = Ok db' ->
  int64 b && int64 tok && int64 typ = true.
Proof.
  intros H; destruct (int64 b && int64 tok && int64 typ) eqn:E; [reflexivity |].
  rewrite exec_upsert_stmt_overflow in H by exact E; discriminate.
Qed.

Lemma distinct_on_middle (k : list string) (p q : list row) (x : row) :
  distinct_on k (p ++ x :: q) -> Forall (fun o => conflicts k o x = false) (p ++ q).
Proof.
  intros H; apply distinct_on_app in H; destruct H as (_ & Hxq & Hp).
  apply Forall_app; split.
  - apply Forall_forall; intros o Ho.
    rewrite Forall_forall in Hp; specialize (Hp o Ho).
    inversion Hp; assumption.
  - inversion Hxq as [| ? ? Hx _]; subst.
    apply Forall_forall; intros o Ho; rewrite conflicts_sym.
    rewrite Forall_forall in Hx; auto.
Qed.

Lemma book_totals_row_shape (r : row) :
  row_ok BookTotals_table r ->
  exists v1 v2 v3,
    r = [("book_id", v1); ("total_tokens", v2); ("total_types", v3)].
Proof.
  intros (Hshape & _).
  destruct r as [| [k1 v1] [| [k2 v2] [| [k3 v3] [| ? ?]]]]; try discriminate.
  simpl in Hshape; injection Hshape as -> -> ->.
  exists v1, v2, v3; reflexivity.
Qed.

Lemma has_totals_split (db : Database) (b tok typ : Z) :
  has_totals db b
  = match split_conflict ["book_id"] (totals_row b tok typ) (book_totals db) with
    | Some _ => true
    | None => false
    end.
Proof.
  unfold has_totals; induction (book_totals db) as [| o rows IH];
    cbn [existsb split_conflict]; [reflexivity |].
  rewrite conflicts_book_id.
  destruct (column_is "book_id" (VInt b) o); [reflexivity |].
  rewrite IH; cbn [orb].
  destruct (split_conflict _ _ rows) as [[[? ?] ?] |]; reflexivity.
Qed.

(** C3 as it is worded fails: with no book_totals row for the book, the
    statement of [upsert_stmt] inserts none when one of its integers is no
    64-bit integer (the driver raises [OverflowError]), whether foreign keys
    are enforced or not, nor when foreign keys are enforced and there is no
    such book. *)
Lemma upsert_stmt_not_always_inserted :
  has_totals (alpha_db false) 1 = false
  /\ has_totals (alpha_db true) 1 = false
  /\ has_totals (alpha_db true) 7 = false
  /\ exec (upsert_stmt 1 9223372036854775808 1) (alpha_db false)
     = Err (OverflowError "Python int too large to convert to SQLite INTEGER")
  /\ exec (upsert_stmt 1 9223372036854775808 1) (alpha_db true)
     = Err (OverflowError "Python int too large to convert to SQLite INTEGER")
  /\ exec (upsert_stmt 7 6 4) (alpha_db true)
     = Err (IntegrityError "FOREIGN KEY constraint failed").
Proof. repeat split; reflexivity. Qed.

(** C3, as the code has it: with three 64-bit integers, the statement of
    [upsert_stmt] appends the row (book_id, total_tokens, total_types) when
    book_totals has no row for the book (with foreign keys enforced, the
    book must exist), and otherwise replaces the book's row by one with both
    totals overwritten; the rows of other books and the other tables are
    left as they were. *)
Theorem upsert_stmt_inserts_or_overwrites (db : Database) (b tok typ : Z) :
  reachable db ->
  int64 b = true -> int64 tok = true -> int64 typ = true ->
  (foreign_keys db = true -> has_totals db b = false -> has_book db b = true) ->
  exists db',
    exec (upsert_stmt b tok typ) db = Ok db'
    /\ (forall m, m <> BookTotals -> rows_of db' m = rows_of db m)
    /\ (has_totals db b = false ->
        book_totals db' = book_totals db ++ [totals_row b tok typ])
    /\ (has_totals db b = true ->
        exists before old after,
          book_totals db = before ++ old :: after
          /\ get old "book_id" = VInt b
          /\ book_totals db' = before ++ totals_row b tok typ :: after
          /\ forall r, In r (before ++ after) -> get r "book_id" <> VInt b).
Proof.
  intros Hdb Hb Htok Htyp Hfk.
  rewrite exec_upsert_stmt by (rewrite Hb, Htok, Htyp; reflexivity).
  rewrite (has_totals_split db b tok typ) in *.
  destruct (split_conflict ["book_id"] (totals_row b tok typ) (book_totals db))
    as [[[before old] after] |] eqn:E.
  - apply split_conflict_Some in E; destruct E as (Erows & Hold & _).
    rewrite conflicts_book_id in Hold.
    apply value_eqb_eq in Hold.
    pose proof (reachable_db_ok db Hdb BookTotals) as Hok.
    change (rows_of db BookTotals) with (book_totals db) in Hok; rewrite Erows in Hok.
    destruct Hok as [Hrows Hkeys].
    assert (Hshape : row_ok BookTotals_table old).
    { apply Forall_app in Hrows; destruct Hrows as [_ Hr]; inversion Hr; assumption. }
    apply book_totals_row_shape in Hshape; destruct Hshape as (v1 & v2 & v3 & ->).
    change (get [("book_id", v1); ("total_tokens", v2); ("total_types", v3)] "book_id")
      with v1 in Hold; subst v1.
    assert (Hno : Forall (fun o => conflicts ["book_id"] o (totals_row b tok typ) = false)
                         (before ++ after)).
    { rewrite Forall_forall in Hkeys.
      pose proof (distinct_on_middle _ _ _ _ (Hkeys ["book_id"] (or_introl eq_refl))) as H.
      rewrite Forall_forall in *; intros o Ho.
      etransitivity; [| exact (H o Ho)].
      apply conflicts_same_key; intros c [<- | []]; reflexivity. }
    change (assign [("total_tokens", VInt tok); ("total_types", VInt typ)]
              [("book_id", VInt b); ("total_tokens", v2); ("total_types", v3)])
      with (totals_row b tok typ).
    cbv zeta.
    assert (Hcheck : check_row BookTotals_table (before ++ after) (totals_row b tok typ) = Ok tt).
    { unfold check_row.
      change (not_null_ok BookTotals_table (totals_row b tok typ)) with true.
      change (checks_ok BookTotals_table (totals_row b tok typ)) with true.
      cbn [require bind]; apply require_true.
      unfold unique_ok; apply forallb_forall; intros k Hk.
      change (In k [["book_id"]]) in Hk; destruct Hk as [<- | []].
      apply forallb_forall; intros o Ho.
      rewrite Forall_forall in Hno; rewrite (Hno o Ho); reflexivity. }
    rewrite Hcheck; cbn [bind].
    eexists; split; [reflexivity |]; split; [| split].
    + intros m Hm; destruct m; try reflexivity; congruence.
    + discriminate.
    + intros _.
      exists before, [("book_id", VInt b); ("total_tokens", v2); ("total_types", v3)], after.
      repeat split; auto.
      intros r Hr Er.
      rewrite Forall_forall in Hno; specialize (Hno r Hr).
      rewrite conflicts_book_id in Hno; unfold column_is in Hno.
      rewrite Er, value_eqb_refl in Hno; discriminate.
  - assert (Hbook : negb (foreign_keys db) || has_book db b = true).
    { destruct (foreign_keys db); [apply Hfk; reflexivity | reflexivity]. }
    rewrite Hbook; cbn [require bind].
    eexists; split; [reflexivity |]; split; [| split].
    + intros m Hm; destruct m; try reflexivity; congruence.
    + reflexivity.
    + discriminate.
Qed.

Lemma upsert_stmt_inserts_or_overwrites_witness :
  exists db',
    exec (upsert_stmt 1 6 4) (alpha_db true) = Ok db'
    /\ book_totals db' = [totals_row 1 6 4].
Proof.
  destruct (upsert_stmt_inserts_or_overwrites (alpha_db true) 1 6 4)
    as (db' & Hexec & _ & Hnew & _).
  - apply alpha_db_reachable.
  - reflexivity.
  - reflexivity.
  - reflexivity.
  - reflexivity.
  - exists db'; split; [exact Hexec | apply Hnew; reflexivity].
Defined.

Lemma assign_idempotent (vals r : row) : assign vals (assign vals r) = assign vals r.
Proof.
  unfold assign; rewrite map_map; apply map_ext; intros [k v]; simpl.
  destruct (lookup vals k); reflexivity.
Qed.

Lemma get_assign_unwritten (vals r : row) (c : string) :
  lookup vals c = None -> get (assign vals r) c = get r c.
Proof.
  intros H; rewrite get_assign, H; unfold get.
  destruct (lookup r c); reflexivity.
Qed.

(** C4: trying the statement of [upsert_stmt] a second time with the same
    arguments leaves the store exactly as the first try left it, whatever
    the store was. *)
Theorem upsert_stmt_idempotent (db : Database) (b tok typ : Z) :
  run (upsert_stmt b tok typ) (run (upsert_stmt b tok typ) db)
  = run (upsert_stmt b tok typ) db.
Proof.
  unfold run at 2 3.
  destruct (exec (upsert_stmt b tok typ) db) as [db1 | e] eqn:E;
    [| unfold run; rewrite E; reflexivity].
  assert (Hagain : exec (upsert_stmt b tok typ) db1 = Ok db1);
    [| unfold run; rewrite Hagain; reflexivity].
  destruct (int64 b && int64 tok && int64 typ) eqn:Hbound;
    [| rewrite exec_upsert_stmt_overflow in E by exact Hbound; discriminate].
  rewrite exec_upsert_stmt in E by exact Hbound.
  destruct (split_conflict ["book_id"] (totals_row b tok typ) (book_totals db))
    as [[[before old] after] |] eqn:Es.
  - cbv zeta in E; ok_inv E; subst db1.
    apply split_conflict_Some in Es; destruct Es as (_ & Hold & Hbefore).
    rewrite exec_upsert_stmt by exact Hbound.
    change (book_totals (set_rows db BookTotals ?rows)) with rows.
    rewrite (split_conflict_app _ _ _ before after Hbefore).
    + cbv zeta; rewrite assign_idempotent.
      destruct a; rewrite E_1; cbn [bind].
      rewrite set_rows_set_rows; reflexivity.
    + rewrite conflicts_book_id in *; unfold column_is in *.
      rewrite get_assign_unwritten by reflexivity; exact Hold.
  - ok_inv E; subst db1.
    apply split_conflict_None in Es.
    rewrite exec_upsert_stmt by exact Hbound.
    change (book_totals (set_rows db BookTotals ?rows)) with rows.
    rewrite (split_conflict_app _ _ _ (book_totals db) [] Es).
    + cbv zeta.
      change (assign [("total_tokens", VInt tok); ("total_types", VInt typ)]
                (totals_row b tok typ)) with (totals_row b tok typ).
      assert (Hcheck : check_row BookTotals_table (book_totals db ++ [])
                                 (totals_row b tok typ) = Ok tt).
      { unfold check_row.
        change (not_null_ok BookTotals_table (totals_row b tok typ)) with true.
        change (checks_ok BookTotals_table (totals_row b tok typ)) with true.
        cbn [require bind]; apply require_true.
        unfold unique_ok; apply forallb_forall; intros k Hk.
        change (In k [["book_id"]]) in Hk; destruct Hk as [<- | []].
        rewrite app_nil_r; apply forallb_forall; intros o Ho.
        rewrite Forall_forall in Es; rewrite (Es o Ho); reflexivity. }
      rewrite Hcheck; cbn [bind].
      rewrite set_rows_set_rows; reflexivity.
    + rewrite conflicts_book_id; unfold column_is; simpl; apply Z.eqb_refl.
Qed.

(** * Deleting a book *)

Lemma indexed_db_reachable (fk : bool) : reachable (indexed_db fk).
Proof.
  apply (reachable_transaction indexed_statements (alpha_db fk));
    [apply alpha_db_reachable | destruct fk; reflexivity].
Qed.

Example cascaded_deletes_of_book :
  cascaded_deletes Book (VInt 1) = [Delete Chapter (column_is "book_id" (VInt 1))].
Proof. reflexivity. Qed.

(** C6 does not hold of the code: deleting the indexed book "Alpha" through
    the session does not delete its book_vocab row.  With foreign keys off
    the book and its chapter go and the book_vocab row (and the totals row)
    stay, referring to a book that is no more; with foreign keys on the
    reference from book_vocab, which has no ON DELETE action, makes the
    whole deletion fail. *)
Theorem delete_book_keeps_book_vocab :
  session_delete_book (indexed_db false) 1
  = Ok {| foreign_keys := false;
          language_ids := [1];
          books := [];
          chapters := [];
          tokens := tokens (alpha_db false);
          book_vocab := [[("book_id", VInt 1); ("token_id", VInt 1);
                          ("token_count", VInt 1)]];
          token_progress := [];
          book_totals := [totals_row 1 1 1] |}
  /\ session_delete_book (indexed_db true) 1
     = Err (IntegrityError "FOREIGN KEY constraint failed").
Proof. split; reflexivity. Qed.

(** The sibling references do delete: once the book_vocab row is out of the
    way, the chapter goes through the relationship's cascade and the totals
    row through its ON DELETE CASCADE. *)
Example delete_book_takes_chapters_and_totals :
  session_delete_book (set_rows (indexed_db true) BookVocab []) 1
  = Ok (set_rows (set_rows (alpha_db true) Book []) BookVocab []).
Proof. reflexivity. Qed.

(** * Advancing the learning stage *)

Lemma find_split {A : Type} (f : A -> bool) (l : list A) (x : A) :
  find f l = Some x ->
  exists before after,
    l = before ++ x :: after /\ f x = true /\ Forall (fun o => f o = false) before.
Proof.
  induction l as [| y l IH]; simpl; [discriminate |].
  destruct (f y) eqn:E.
  - intros H; injection H as <-; exists [], l; repeat split; auto.
  - intros H; destruct (IH H) as (before & after & -> & Hx & Hb).
    exists (y :: before), after; repeat split; auto.
Qed.

Lemma find_app_skip {A : Type} (f : A -> bool) (before after : list A) (x : A) :
  Forall (fun o => f o = false) before -> f x = true ->
  find f (before ++ x :: after) = Some x.
Proof.
  intros Hb Hx; induction Hb as [| y before Hy _ IH]; simpl.
  - rewrite Hx; reflexivity.
  - rewrite Hy; exact IH.
Qed.

Lemma update_rows_untouched (db : Database) (m : model) (where_ : row -> bool) (vals : row)
      (todo done : list row) :
  Forall (fun o => where_ o = false) todo ->
  update_rows db m where_ vals done todo = Ok (done ++ todo).
Proof.
  intros H; revert done; induction H as [| o todo Ho _ IH]; intros done; simpl.
  - rewrite app_nil_r; reflexivity.
  - rewrite Ho, IH, <- app_assoc; reflexivity.
Qed.

(** An UPDATE whose WHERE selects one row replaces that row, provided the
    new row passes the checks. *)
Lemma update_rows_single (db : Database) (m : model) (where_ : row -> bool) (vals : row)
      (before after : list row) (r : row) :
  Forall (fun o => where_ o = false) before -> where_ r = true ->
  Forall (fun o => where_ o = false) after ->
  check_row (schema m) (before ++ after) (assign vals r) = Ok tt ->
  check_fk_child db (schema m) (written vals) (assign vals r) = Ok tt ->
  negb (foreign_keys db) || parent_key_free db m r (assign vals r) = true ->
  update_rows db m where_ vals [] (before ++ r :: after)
  = Ok (before ++ assign vals r :: after).
Proof.
  intros Hb Hr Ha Hcheck Hfk Hparent.
  assert (H : forall done,
             check_row (schema m) (done ++ before ++ after) (assign vals r) = Ok tt ->
             update_rows db m where_ vals done (before ++ r :: after)
             = Ok (done ++ before ++ assign vals r :: after)).
  { clear Hcheck.
    induction Hb as [| o before Ho _ IH]; intros done Hc; simpl.
    - rewrite Hr; simpl in Hc; rewrite Hc, Hfk, Hparent; simpl.
      rewrite (update_rows_untouched _ _ _ _ _ _ Ha), <- app_assoc; reflexivity.
    - rewrite Ho, IH.
      + rewrite <- app_assoc; reflexivity.
      + rewrite <- app_assoc; exact Hc. }
  apply (H []); exact Hcheck.
Qed.

Lemma exec_update_single (db : Database) (m : model) (where_ : row -> bool) (vals : row)
      (before after : list row) (r : row) :
  rows_of db m = before ++ r :: after ->
  check_statement (schema m) vals = Ok tt ->
  Forall (fun o => where_ o = false) before -> where_ r = true ->
  Forall (fun o => where_ o = false) after ->
  check_row (schema m) (before ++ after) (assign vals r) = Ok tt ->
  check_fk_child db (schema m) (written vals) (assign vals r) = Ok tt ->
  negb (foreign_keys db) || parent_key_free db m r (assign vals r) = true ->
  exec (Update m where_ vals) db
  = Ok (set_rows db m (before ++ assign vals r :: after)).
Proof.
  intros Erows Hknown Hb Hr Ha Hcheck Hfk Hparent.
  unfold exec, exec_update; rewrite Hknown, Erows; cbn [bind].
  rewrite (update_rows_single db m where_ vals before after r); auto.
Qed.

Lemma int64_range (n : Z) : min_int64 <= n <= max_int64 <-> int64 n = true.
Proof.
  unfold int64; rewrite andb_true_iff, !Z.leb_le; reflexivity.
Qed.

(** An integer column set to a 64-bit integer: the statement is compiled
    and bound. *)
Lemma check_statement_one (m : model) (c : Column) (n : Z) :
  In c (columns (schema m)) -> int64 n = true ->
  check_statement (schema m) [(name c, VInt n)] = Ok tt.
Proof.
  intros Hc Hn; unfold check_statement, known_columns, bindable; simpl.
  rewrite Hn, andb_true_r.
  assert (H : existsb (String.eqb (name c)) (column_names (schema m)) = true).
  { apply existsb_exists; exists (name c); split;
      [apply in_map; exact Hc | apply String.eqb_refl]. }
  rewrite H; reflexivity.
Qed.

Lemma token_progress_row_shape (r : row) :
  row_ok TokenProgress_table r ->
  exists v1 v2 v3 v4,
    r = [("token_id", v1); ("status", v2); ("learning_stage", v3); ("translation", v4)].
Proof.
  intros (Hshape & _).
  destruct r as [| [k1 v1] [| [k2 v2] [| [k3 v3] [| [k4 v4] [| ? ?]]]]]; try discriminate.
  simpl in Hshape; injection Hshape as -> -> -> ->.
  exists v1, v2, v3, v4; reflexivity.
Qed.

Lemma between_passes (lo n hi : Z) :
  lo <= n <= hi ->
  sql_and (sql_le (VInt lo) (VInt n)) (sql_le (VInt n) (VInt hi)) = Some true.
Proof.
  intros H; unfold sql_le; simpl.
  destruct (Z.compare_spec lo n), (Z.compare_spec n hi); try reflexivity; lia.
Qed.

(** In a store the statements produced, the stage of a LEARNING row is one
    of 1..5. *)
Lemma learning_stage_range (db : Database) (t s : Z) :
  reachable db ->
  status_of db t = Some (VInt (LearningStatus_value LEARNING)) ->
  stage_of db t = Some (VInt s) ->
  1 <= s <= NUM_LEARNING_STAGES.
Proof.
  intros Hdb Hstatus Hstage.
  unfold status_of, stage_of in Hstatus, Hstage.
  destruct (find_progress db t) as [r |] eqn:Efind; [| discriminate].
  simpl in Hstatus, Hstage; injection Hstatus as Hstatus; injection Hstage as Hstage.
  apply find_some in Efind; destruct Efind as [Hin _].
  pose proof (reachable_row_ok db TokenProgress r Hdb Hin) as Hok.
  destruct (token_progress_row_ok r Hok) as [_ Hrange].
  destruct (Hrange Hstatus) as (n & En & Hn); [rewrite Hstage; discriminate |].
  rewrite Hstage in En; injection En as <-; exact Hn.
Qed.

(** One step: a LEARNING row at stage [s] moves to stage [min (s+1) 5],
    stays LEARNING, and the store stays one the statements produce; the
    store after the step is the store before it with that one column of
    that one row rewritten. *)
Lemma advance_step (db : Database) (t s : Z) :
  reachable db ->
  status_of db t = Some (VInt (LearningStatus_value LEARNING)) ->
  stage_of db t = Some (VInt s) ->
  exists db',
    advance db t = Committed db'
    /\ reachable db'
    /\ status_of db' t = Some (VInt (LearningStatus_value LEARNING))
    /\ stage_of db' t = Some (VInt (Z.min (s + 1) NUM_LEARNING_STAGES))
    /\ exists before old after,
         token_progress db = before ++ old :: after
         /\ find_progress db t = Some old
         /\ db' = set_rows db TokenProgress
                    (before
                     ++ assign [("learning_stage",
                                 VInt (Z.min (s + 1) NUM_LEARNING_STAGES))] old
                     :: after).
Proof.
  intros Hdb Hstatus Hstage.
  unfold status_of, stage_of in Hstatus, Hstage.
  destruct (find_progress db t) as [r |] eqn:Efind; [| discriminate].
  simpl in Hstatus, Hstage; injection Hstatus as Hstatus; injection Hstage as Hstage.
  pose proof Efind as Hfind; unfold find_progress in Hfind.
  destruct (find_split _ _ _ Hfind) as (before & after & Erows & Hr & Hbefore).
  clear Hfind.
  pose proof (reachable_db_ok db Hdb TokenProgress) as [Hrows Hkeys].
  change (rows_of db TokenProgress) with (token_progress db) in Hrows, Hkeys.
  rewrite Erows in Hrows, Hkeys.
  assert (Hok : row_ok TokenProgress_table r).
  { apply Forall_app in Hrows; destruct Hrows as [_ H]; inversion H; assumption. }
  pose proof (token_progress_row_ok r Hok) as [_ Hrange].
  destruct (Hrange Hstatus) as (n & En & Hn); [rewrite Hstage; discriminate |].
  rewrite Hstage in En; injection En as <-.
  destruct (token_progress_row_shape r Hok) as (v1 & v2 & v3 & v4 & ->).
  unfold column_is in Hr; apply value_eqb_eq in Hr.
  unfold get in Hr, Hstatus, Hstage; simpl in Hr, Hstatus, Hstage.
  subst v1 v2 v3.
  set (s' := Z.min (s + 1) NUM_LEARNING_STAGES).
  set (old := [("token_id", VInt t); ("status", VInt 1);
               ("learning_stage", VInt s); ("translation", v4)]) in *.
  set (new := [("token_id", VInt t); ("status", VInt 1);
               ("learning_stage", VInt s'); ("translation", v4)]).
  assert (Hs' : 1 <= s' <= 5) by (unfold s', NUM_LEARNING_STAGES in *; lia).
  rewrite Forall_forall in Hkeys.
  pose proof (distinct_on_middle _ _ _ _ (Hkeys ["token_id"] (or_introl eq_refl))) as Hno.
  assert (Hafter : Forall (fun o => column_is "token_id" (VInt t) o = false) after).
  { apply Forall_app in Hno; destruct Hno as [_ Hno].
    rewrite Forall_forall in *; intros o Ho; specialize (Hno o Ho).
    unfold conflicts, column_is in *; simpl in Hno.
    change (get old "token_id") with (VInt t) in Hno.
    destruct (get o "token_id"); simpl in *; [reflexivity | | reflexivity].
    rewrite andb_true_r in Hno; exact Hno. }
  assert (Hexec : exec (Update TokenProgress (column_is "token_id" (VInt t))
                          [("learning_stage", VInt s')]) db
                   = Ok (set_rows db TokenProgress (before ++ new :: after))).
  { apply (exec_update_single db TokenProgress _ [("learning_stage", VInt s')]
             before after old Erows); auto.
    - apply (check_statement_one TokenProgress
               (mapped_column "learning_stage" SmallInteger true)); [simpl; auto |].
      apply int64_range; unfold min_int64, max_int64; lia.
    - apply value_eqb_refl.
    - change (assign [("learning_stage", VInt s')] old) with new.
      unfold check_row.
      change (not_null_ok (schema TokenProgress) new) with true.
      cbn [require bind].
      assert (Hc : checks_ok (schema TokenProgress) new = true).
      { unfold checks_ok; simpl; unfold check_passes; simpl.
        change (get new "learning_stage") with (VInt s').
        rewrite (between_passes 1 s' 5 Hs'); reflexivity. }
      rewrite Hc; cbn [require bind]; apply require_true.
      unfold unique_ok; apply forallb_forall; intros k Hk.
      change (In k [["token_id"]]) in Hk; destruct Hk as [<- | []].
      apply forallb_forall; intros o Ho.
      rewrite Forall_forall in Hno.
      assert (E : conflicts ["token_id"] o new = false).
      { rewrite (conflicts_same_key ["token_id"] new old o);
          [exact (Hno o Ho) | intros c [<- | []]; reflexivity]. }
      rewrite E; reflexivity.
    - unfold check_fk_child, fk_child_ok; simpl.
      rewrite orb_true_r; reflexivity.
    - apply orb_true_r. }
  unfold advance; rewrite Efind.
  change (get old "status") with (VInt (LearningStatus_value LEARNING)).
  change (get old "learning_stage") with (VInt s).
  rewrite value_eqb_refl; fold s'; rewrite Hexec.
  eexists; split; [reflexivity |]; split; [| split; [| split]].
  - apply (reachable_exec db _ _ Hdb Hexec).
  - exact (f_equal (option_map (fun r => get r "status"))
                   (find_app_skip (column_is "token_id" (VInt t)) before after new
                                  Hbefore (value_eqb_refl _))).
  - exact (f_equal (option_map (fun r => get r "learning_stage"))
                   (find_app_skip (column_is "token_id" (VInt t)) before after new
                                  Hbefore (value_eqb_refl _))).
  - exists before, old, after; split; [exact Erows |]; split; reflexivity.
Qed.

Lemma advance_times_stage (n : nat) :
  forall (db : Database) (t s : Z),
    reachable db ->
    status_of db t = Some (VInt (LearningStatus_value LEARNING)) ->
    stage_of db t = Some (VInt s) -> 1 <= s <= NUM_LEARNING_STAGES ->
    exists db',
      advance_times n db t = Committed db'
      /\ reachable db'
      /\ status_of db' t = Some (VInt (LearningStatus_value LEARNING))
      /\ stage_of db' t = Some (VInt (Z.min (s + Z.of_nat n) NUM_LEARNING_STAGES)).
Proof.
  induction n as [| n IH]; intros db t s Hdb Hstatus Hstage Hs.
  - exists db; repeat split; auto.
    rewrite Hstage; do 2 f_equal; simpl; lia.
  - destruct (advance_step db t s Hdb Hstatus Hstage)
      as (db1 & Hadv & Hdb1 & Hst1 & Hsg1 & _).
    destruct (IH db1 t _ Hdb1 Hst1 Hsg1) as (db' & Htimes & Hdb' & Hst' & Hsg').
    { unfold NUM_LEARNING_STAGES in *; lia. }
    exists db'; repeat split; auto.
    + simpl; rewrite Hadv; exact Htimes.
    + rewrite Hsg'; do 2 f_equal; unfold NUM_LEARNING_STAGES in *; lia.
Qed.

(** C7: [advance] on a LEARNING row at stage [s] is committed and rewrites
    nothing but the stage of that row, which becomes [s + 1], or stays 5
    when it was 5; [n] calls in a row are all committed and leave the row
    LEARNING at stage [min (s + n) 5].  So from stage 1, five calls reach
    stage 5, and a sixth is committed too and leaves the stage at 5.  A row
    whose status is not LEARNING is not advanced: the call is rejected as a
    validation error. *)
Theorem advance_caps_at_five (db : Database) (t s : Z) :
  reachable db ->
  status_of db t = Some (VInt (LearningStatus_value LEARNING)) ->
  stage_of db t = Some (VInt s) ->
  (exists before old after,
      token_progress db = before ++ old :: after
      /\ find_progress db t = Some old
      /\ advance db t
         = Committed
             (set_rows db TokenProgress
                (before
                 ++ assign [("learning_stage",
                             VInt (if s <? NUM_LEARNING_STAGES then s + 1
                                   else NUM_LEARNING_STAGES))] old
                 :: after)))
  /\ (forall n : nat,
        exists dbn,
          advance_times n db t = Committed dbn
          /\ status_of dbn t = Some (VInt (LearningStatus_value LEARNING))
          /\ stage_of dbn t = Some (VInt (Z.min (s + Z.of_nat n) NUM_LEARNING_STAGES)))
  /\ (s = 1 ->
      exists db5 db6,
        advance_times 5 db t = Committed db5
        /\ stage_of db5 t = Some (VInt NUM_LEARNING_STAGES)
        /\ advance db5 t = Committed db6
        /\ stage_of db6 t = Some (VInt NUM_LEARNING_STAGES)
        /\ status_of db6 t = Some (VInt (LearningStatus_value LEARNING)))
  /\ (forall other st,
         status_of other t = Some st -> st <> VInt (LearningStatus_value LEARNING) ->
         advance other t = Rejected ValidationError).
Proof.
  intros Hdb Hstatus Hstage.
  pose proof (learning_stage_range db t s Hdb Hstatus Hstage) as Hs.
  split; [| split; [| split]].
  - destruct (advance_step db t s Hdb Hstatus Hstage)
      as (db1 & Hadv & _ & _ & _ & before & old & after & Erows & Hfind & ->).
    exists before, old, after; split; [exact Erows |]; split; [exact Hfind |].
    rewrite Hadv.
    replace (if s <? NUM_LEARNING_STAGES then s + 1 else NUM_LEARNING_STAGES)
      with (Z.min (s + 1) NUM_LEARNING_STAGES); [reflexivity |].
    destruct (Z.ltb_spec s NUM_LEARNING_STAGES); unfold NUM_LEARNING_STAGES in *; lia.
  - intros n.
    destruct (advance_times_stage n db t s Hdb Hstatus Hstage Hs)
      as (dbn & Hn & _ & Hst & Hsg).
    exists dbn; split; [exact Hn |]; split; [exact Hst | exact Hsg].
  - intros ->.
    destruct (advance_times_stage 5 db t 1 Hdb Hstatus Hstage Hs)
      as (db5 & H5 & Hdb5 & Hst5 & Hsg5).
    change (Z.min (1 + Z.of_nat 5) NUM_LEARNING_STAGES) with NUM_LEARNING_STAGES in Hsg5.
    destruct (advance_step db5 t _ Hdb5 Hst5 Hsg5) as (db6 & H6 & _ & Hst6 & Hsg6 & _).
    exists db5, db6; repeat split; auto.
  - intros other st Hst Hne; unfold status_of in Hst; unfold advance.
    destruct (find_progress other t) as [r |]; [| discriminate].
    simpl in Hst; injection Hst as Hst.
    destruct (value_eqb (get r "status") (VInt (LearningStatus_value LEARNING))) eqn:E;
      [| reflexivity].
    apply value_eqb_eq in E; congruence.
Qed.

Lemma advance_caps_at_five_witness :
  (exists db1,
      advance_times 1
        (run (Insert TokenProgress
                [("token_id", VInt 1); ("status", VInt 1); ("learning_stage", VInt 1)])
             (alpha_db true)) 1 = Committed db1
      /\ stage_of db1 1 = Some (VInt 2))
  /\ exists db5 db6,
       advance_times 5
         (run (Insert TokenProgress
                 [("token_id", VInt 1); ("status", VInt 1); ("learning_stage", VInt 1)])
              (alpha_db true)) 1 = Committed db5
       /\ stage_of db5 1 = Some (VInt 5)
       /\ advance db5 1 = Committed db6
       /\ stage_of db6 1 = Some (VInt 5).
Proof.
  destruct (advance_caps_at_five
              (run (Insert TokenProgress
                      [("token_id", VInt 1); ("status", VInt 1); ("learning_stage", VInt 1)])
                   (alpha_db true)) 1 1)
    as (_ & Hn & H56 & _).
  - apply (reachable_exec (alpha_db true)
             (Insert TokenProgress
                [("token_id", VInt 1); ("status", VInt 1); ("learning_stage", VInt 1)]));
      [apply alpha_db_reachable | reflexivity].
  - reflexivity.
  - reflexivity.
  - split.
    + destruct (Hn 1%nat) as (db1 & H1 & _ & Hs1).
      exists db1; split; [exact H1 | exact Hs1].
    + destruct (H56 eq_refl) as (db5 & db6 & H5 & Hs5 & H6 & Hs6 & _).
      exists db5, db6; repeat split; assumption.
Defined.

(** One call from stage 1, computed: the row moves to stage 2 and nothing
    else changes. *)
Example advance_once :
  advance (run (Insert TokenProgress
                  [("token_id", VInt 1); ("status", VInt 1); ("learning_stage", VInt 1);
                   ("translation", VText "assis")])
               (alpha_db true)) 1
  = Committed
      (set_rows (alpha_db true) TokenProgress
         [[("token_id", VInt 1); ("status", VInt 1); ("learning_stage", VInt 2);
           ("translation", VText "assis")]]).
Proof. reflexivity. Qed.

(** Scenario C of the spec, computed: six calls from stage 1. *)
Example scenario_c :
  option_map (fun db => stage_of db 1)
    (match advance_times 6
             (run (Insert TokenProgress
                     [("token_id", VInt 1); ("status", VInt 1); ("learning_stage", VInt 1)])
                  (alpha_db true)) 1 with
     | Committed db => Some db
     | Rejected _ => None
     end)
  = Some (Some (VInt 5)).
Proof. reflexivity. Qed.

(** * Further properties of the schema *)

(** ** Columns of a new row *)

Lemma get_named {A : Type} (nm : A -> string) (f : A -> value) (l : list A) (x : A) :
  NoDup (map nm l) -> In x l ->
  get (map (fun c => (nm c, f c)) l) (nm x) = f x.
Proof.
  unfold get; induction l as [| y l IH]; simpl; intros Hnd Hx; [destruct Hx |].
  inversion Hnd as [| ? ? Hy Hnd']; subst.
  destruct Hx as [-> | Hx].
  - rewrite String.eqb_refl; reflexivity.
  - destruct (String.eqb (nm y) (nm x)) eqn:E.
    + apply String.eqb_eq in E; exfalso; apply Hy.
      rewrite E; apply in_map; exact Hx.
    + apply IH; assumption.
Qed.

Lemma column_names_NoDup (m : model) : NoDup (column_names (schema m)).
Proof.
  assert (H : nodup string_dec (column_names (schema m)) = column_names (schema m))
    by (destruct m; vm_compute; reflexivity).
  rewrite <- H; apply NoDup_nodup.
Qed.

Lemma get_new_row (m : model) (existing : list row) (vals : row) (c : Column) :
  In c (columns (schema m)) ->
  get (new_row (schema m) existing vals) (name c)
  = stored_value (schema m) existing vals c.
Proof.
  intros Hc; unfold new_row.
  apply (get_named name (stored_value (schema m) existing vals));
    [apply column_names_NoDup | exact Hc].
Qed.

Lemma stored_value_given (t : Table) (existing : list row) (vals : row) (c : Column) :
  get vals (name c) <> VNull -> stored_value t existing vals c = get vals (name c).
Proof.
  unfold stored_value; destruct (get vals (name c)); [contradiction | reflexivity | reflexivity].
Qed.

(** ** Primary keys *)

Lemma primary_key_is_unique_key (m : model) :
  In (primary_key_columns (schema m)) (unique_keys (schema m)).
Proof. destruct m; simpl; auto. Qed.

Lemma primary_key_not_null (m : model) :
  key_not_null (schema m) (primary_key_columns (schema m)) = true.
Proof. destruct m; reflexivity. Qed.

Lemma primary_key_column (m : model) (c : string) :
  In c (primary_key_columns (schema m)) ->
  exists col, In col (columns (schema m)) /\ name col = c.
Proof.
  unfold primary_key_columns; intros H.
  apply in_map_iff in H; destruct H as (col & Hname & Hin).
  apply filter_In in Hin; destruct Hin as [Hin _].
  exists col; auto.
Qed.

(** X1: in every store the statements can produce, no two rows of a table
    have the same primary key (one progress row per token, one totals row
    per book, one index row per book and token, ...), and an INSERT that
    repeats the primary key of a stored row is refused. *)
Theorem primary_keys_unique (db : Database) (m : model) :
  reachable db ->
  unique_on (primary_key_columns (schema m)) (rows_of db m)
  /\ forall old vals,
       In old (rows_of db m) ->
       same_on (primary_key_columns (schema m)) old vals ->
       refused (Insert m vals) db.
Proof.
  intros Hdb; split.
  - apply unique_key_enforced;
      [exact Hdb | apply primary_key_is_unique_key | apply primary_key_not_null].
  - intros old vals Hold Hs.
    destruct (reachable_row_ok db m old Hdb Hold) as (_ & Hn & _).
    assert (Hnn : forall c, In c (primary_key_columns (schema m)) -> get old c <> VNull).
    { intros c Hc; apply (key_not_null_get (schema m) _ old c (primary_key_not_null m) Hn Hc). }
    apply (duplicate_key_refused db m (primary_key_columns (schema m)) old);
      [apply primary_key_is_unique_key | exact Hold | exact Hnn |].
    intros c Hc; destruct (primary_key_column m c Hc) as (col & Hin & <-).
    rewrite get_new_row by exact Hin.
    rewrite stored_value_given; [apply Hs; exact Hc |].
    rewrite <- (Hs _ Hc); apply Hnn; exact Hc.
Qed.

Lemma primary_keys_unique_witness :
  refused (Insert TokenProgress [("token_id", VInt 1); ("status", VInt 2)])
          (run (Insert TokenProgress
                  [("token_id", VInt 1); ("status", VInt 1); ("learning_stage", VInt 1)])
               (alpha_db true)).
Proof.
  destruct (primary_keys_unique
              (run (Insert TokenProgress
                      [("token_id", VInt 1); ("status", VInt 1); ("learning_stage", VInt 1)])
                   (alpha_db true)) TokenProgress) as [_ H].
  - apply (reachable_exec (alpha_db true)
             (Insert TokenProgress
                [("token_id", VInt 1); ("status", VInt 1); ("learning_stage", VInt 1)]));
      [apply alpha_db_reachable | reflexivity].
  - apply (H [("token_id", VInt 1); ("status", VInt 1); ("learning_stage", VInt 1);
              ("translation", VNull)]).
    + simpl; auto.
    + intros c [<- | []]; reflexivity.
Defined.

(** ** NOT NULL columns *)

(** X2: in every store the statements can produce, no row of any table
    holds NULL in a column declared NOT NULL (nullable=False or part of the
    primary key). *)
Theorem not_null_columns_hold (db : Database) (m : model) (r : row) (c : Column) :
  reachable db -> In r (rows_of db m) ->
  In c (columns (schema m)) -> nullable c = false ->
  get r (name c) <> VNull.
Proof.
  intros Hdb Hr Hc Hn.
  destruct (reachable_row_ok db m r Hdb Hr) as (_ & Hnn & _).
  apply (not_null_ok_column (schema m) r c Hnn Hc Hn).
Qed.

Lemma not_null_columns_hold_witness :
  get [("id", VInt 1); ("language_id", VInt 1); ("norm", VText "sat"); ("kind", VInt 1)]
      "norm" <> VNull.
Proof.
  apply (not_null_columns_hold (alpha_db true) Token
           [("id", VInt 1); ("language_id", VInt 1); ("norm", VText "sat"); ("kind", VInt 1)]
           (mapped_column "norm" (String_ 255) false)).
  - apply alpha_db_reachable.
  - simpl; auto.
  - simpl; auto.
  - reflexivity.
Defined.

(** X3: an INSERT that leaves unset a NOT NULL column which has no default,
    no server default and is not the table's rowid is refused, in any
    table. *)
Theorem required_column_unset_refused (db : Database) (m : model) (vals : row) (c : Column) :
  In c (columns (schema m)) -> nullable c = false ->
  default c = None -> server_default c = None ->
  autoincrement (schema m) c = false ->
  get vals (name c) = VNull ->
  refused (Insert m vals) db.
Proof.
  intros Hc Hnull Hd Hsd Hai Hv; apply refused_intro; intros db' H.
  simpl in H; apply exec_insert_Ok in H; destruct H as (_ & (_ & Hn & _) & _).
  apply (not_null_ok_column _ _ c Hn Hc Hnull).
  rewrite get_new_row by exact Hc.
  unfold stored_value; rewrite Hv, Hd, Hsd, Hai; reflexivity.
Qed.

Lemma required_column_unset_refused_witness :
  refused (Insert Book [("language_id", VInt 1)]) (alpha_db true).
Proof.
  apply (required_column_unset_refused (alpha_db true) Book [("language_id", VInt 1)]
           (mapped_column "title" (String_ 500) false)); try reflexivity.
  simpl; auto.
Defined.

(** The primary keys of token_progress and book_totals are rowids although
    they are foreign keys as well: left unset they are assigned by the
    store, and the row is committed when the id assigned names a parent. *)
Example unset_token_id_is_assigned :
  exec (Insert TokenProgress [("status", VInt 2)]) (alpha_db true)
  = Ok (set_rows (alpha_db true) TokenProgress
          [[("token_id", VInt 1); ("status", VInt 2); ("learning_stage", VNull);
            ("translation", VNull)]])
  /\ exec (Insert BookTotals [("total_tokens", VInt 6); ("total_types", VInt 4)])
          (alpha_db true)
     = Ok (set_rows (alpha_db true) BookTotals [totals_row 1 6 4])
  /\ refused (Insert BookVocab [("token_id", VInt 1); ("token_count", VInt 2)])
             (alpha_db true).
Proof.
  split; [reflexivity |]; split; [reflexivity |].
  split; [eexists; reflexivity | reflexivity].
Qed.

(** ** Foreign keys on INSERT *)

(** X4: with foreign keys enforced, an INSERT whose foreign-key column
    holds a value that names no parent row is refused, in any table. *)
Theorem dangling_reference_refused (db : Database) (m : model) (vals : row)
        (c : Column) (fk : ForeignKey) :
  foreign_keys db = true ->
  In c (columns (schema m)) -> foreign_key c = Some fk ->
  get vals (name c) <> VNull ->
  parent_has db (target fk) (get vals (name c)) = false ->
  refused (Insert m vals) db.
Proof.
  intros Hfk Hc Hf Hset Hnone; apply refused_intro; intros db' H.
  simpl in H; apply exec_insert_Ok in H; destruct H as (_ & _ & _ & Hok).
  specialize (Hok Hfk); unfold fk_child_ok in Hok.
  rewrite forallb_forall in Hok; specialize (Hok c Hc); rewrite Hf in Hok.
  rewrite get_new_row, stored_value_given, Hnone in Hok by assumption.
  destruct (get vals (name c)); [contradiction | discriminate | discriminate].
Qed.

Lemma dangling_reference_refused_witness :
  refused (Insert BookVocab [("book_id", VInt 7); ("token_id", VInt 1); ("token_count", VInt 2)])
          (alpha_db true).
Proof.
  apply (dangling_reference_refused (alpha_db true) BookVocab _
           (with_primary_key
              (with_foreign_key (references (ColumnOf Book "id"))
                 (mapped_column "book_id" Integer false)))
           (references (ColumnOf Book "id"))); try reflexivity.
  - simpl; auto.
  - simpl; discriminate.
Defined.

(** ** Row ids *)

(** The value stored in a rowid column that is left unset. *)
Lemma stored_value_rowid (m : model) (existing : list row) (vals : row) (c : Column) :
  In c (columns (schema m)) -> autoincrement (schema m) c = true ->
  get vals (name c) = VNull ->
  stored_value (schema m) existing vals c
  = VInt (next_rowid (int_values existing (name c))).
Proof.
  intros Hc Hai Hv; unfold stored_value; rewrite Hv.
  destruct m; simpl in Hc;
    repeat (destruct Hc as [<- | Hc]; [first [reflexivity | discriminate Hai] |]);
    destruct Hc.
Qed.

(** X5: when an INSERT that leaves the rowid column of a table unset is
    committed, the new row is the last of the table and its id is an
    integer that no stored row has; it is greater than every stored id as
    long as these are below the greatest 64-bit integer. *)
Theorem unset_id_is_fresh (db db' : Database) (m : model) (vals : row) (c : Column) :
  In c (columns (schema m)) -> autoincrement (schema m) c = true ->
  get vals (name c) = VNull ->
  exec (Insert m vals) db = Ok db' ->
  exists r n,
    rows_of db' m = rows_of db m ++ [r]
    /\ get r (name c) = VInt n
    /\ (forall old, In old (rows_of db m) -> get old (name c) <> VInt n)
    /\ ((forall old k, In old (rows_of db m) -> get old (name c) = VInt k -> k < max_int64) ->
        forall old k, In old (rows_of db m) -> get old (name c) = VInt k -> k < n).
Proof.
  intros Hc Hai Hv H; simpl in H; apply exec_insert_Ok in H; destruct H as (-> & _).
  exists (new_row (schema m) (rows_of db m) vals),
         (next_rowid (int_values (rows_of db m) (name c))).
  split; [destruct m; reflexivity |]; split; [| split].
  - rewrite get_new_row by exact Hc.
    apply stored_value_rowid; assumption.
  - intros old Hold E.
    apply (next_rowid_unused (int_values (rows_of db m) (name c))).
    eapply int_values_In; eassumption.
  - intros Hmax old k Hold Hk.
    apply next_rowid_above; [| eapply int_values_In; eassumption].
    intros x Hx; unfold int_values in Hx; apply in_flat_map in Hx.
    destruct Hx as (o & Ho & Hx).
    destruct (get o (name c)) as [| j | j] eqn:Eo; simpl in Hx; try contradiction.
    destruct Hx as [<- | []]; eapply Hmax; eassumption.
Qed.

Lemma unset_id_is_fresh_witness :
  exists r n,
    tokens (run (Insert Token [("language_id", VInt 1); ("norm", VText "cat")])
                (alpha_db true))
    = tokens (alpha_db true) ++ [r]
    /\ get r "id" = VInt n
    /\ (forall old, In old (tokens (alpha_db true)) -> get old "id" <> VInt n)
    /\ ((forall old k, In old (tokens (alpha_db true)) -> get old "id" = VInt k ->
                       k < max_int64) ->
        forall old k, In old (tokens (alpha_db true)) -> get old "id" = VInt k -> k < n).
Proof.
  apply (unset_id_is_fresh (alpha_db true) _ Token
           [("language_id", VInt 1); ("norm", VText "cat")]
           (with_primary_key (mapped_column "id" Integer false))); try reflexivity.
  simpl; auto.
Defined.

(** A store in which the greatest 64-bit integer is an id: the next id is
    one that is not in use. *)
Example rowid_after_the_greatest :
  exists id,
    exec (Insert Token [("language_id", VInt 1); ("norm", VText "cat")])
         (set_rows (alpha_db true) Token
            [[("id", VInt 1); ("language_id", VInt 1); ("norm", VText "sat");
              ("kind", VInt 1)];
             [("id", VInt max_int64); ("language_id", VInt 1); ("norm", VText "mat");
              ("kind", VInt 1)]])
    = Ok (set_rows (alpha_db true) Token
            [[("id", VInt 1); ("language_id", VInt 1); ("norm", VText "sat");
              ("kind", VInt 1)];
             [("id", VInt max_int64); ("language_id", VInt 1); ("norm", VText "mat");
              ("kind", VInt 1)];
             [("id", VInt id); ("language_id", VInt 1); ("norm", VText "cat");
              ("kind", VInt 1)]])
    /\ id <> 1 /\ id <> max_int64.
Proof. exists 2; repeat split; discriminate. Qed.

(** ** When an INSERT is committed *)

Lemma exec_insert_commits (db : Database) (m : model) (vals r : row) :
  check_statement (schema m) vals = Ok tt ->
  new_row (schema m) (rows_of db m) vals = r ->
  not_null_ok (schema m) r = true ->
  checks_ok (schema m) r = true ->
  unique_ok (schema m) (rows_of db m) r = true ->
  (foreign_keys db = true -> fk_child_ok db (schema m) (fun _ => true) r = true) ->
  exec (Insert m vals) db = Ok (set_rows db m (rows_of db m ++ [r])).
Proof.
  intros Hk Hr Hn Hc Hu Hfk; unfold exec, exec_insert, check_row, check_fk_child.
  rewrite Hk; cbn [bind]; rewrite Hr, Hn, Hc, Hu; cbn [require bind].
  destruct (foreign_keys db); [rewrite Hfk by reflexivity |]; reflexivity.
Qed.

Lemma check_statement_intro (t : Table) (vals : row) :
  known_columns t vals = true -> bindable vals = true -> check_statement t vals = Ok tt.
Proof. unfold check_statement; intros -> ->; reflexivity. Qed.

Lemma check_statement_Ok (t : Table) (vals : row) (u : unit) :
  check_statement t vals = Ok u -> known_columns t vals = true /\ bindable vals = true.
Proof. unfold check_statement; intros H; ok_inv H; auto. Qed.

(** A committed INSERT had values that could be bound. *)
Lemma exec_insert_bound (db db' : Database) (m : model) (vals : row) :
  exec (Insert m vals) db = Ok db' -> bindable vals = true.
Proof.
  simpl; unfold exec_insert; intros H; ok_inv H.
  apply check_statement_Ok in H_1; apply H_1.
Qed.

Lemma exec_insert_Ok_exists (db : Database) (m : model) (vals : row) :
  (exists db', exec (Insert m vals) db = Ok db') ->
  row_ok (schema m) (new_row (schema m) (rows_of db m) vals)
  /\ unique_ok (schema m) (rows_of db m) (new_row (schema m) (rows_of db m) vals) = true
  /\ (foreign_keys db = true ->
      fk_child_ok db (schema m) (fun _ => true)
                  (new_row (schema m) (rows_of db m) vals) = true).
Proof.
  intros [db' H]; simpl in H; apply exec_insert_Ok in H.
  destruct H as (_ & H1 & H2 & H3); auto.
Qed.

Lemma no_conflict_from_unique_ok (t : Table) (k : list string) (rows : list row)
      (r old : row) :
  unique_ok t rows r = true -> In k (unique_keys t) -> In old rows ->
  conflicts k old r = false.
Proof.
  intros Hu Hk Hold; apply unique_ok_Forall in Hu.
  rewrite Forall_forall in Hu; specialize (Hu k Hk).
  rewrite Forall_forall in Hu; auto.
Qed.

Lemma existsb_Zeqb_In (n : Z) (l : list Z) : existsb (Z.eqb n) l = true <-> In n l.
Proof.
  rewrite existsb_exists; split.
  - intros (x & Hx & E); apply Z.eqb_eq in E; subst; exact Hx.
  - intros H; exists n; split; [exact H | apply Z.eqb_refl].
Qed.

(** X6: whenever the INSERT of a book with its language and title only is
    committed, the book is the last row of the table, with an id that no
    other book has, is_archived False (the column's default) and NULL in
    the optional columns. *)
Theorem book_created_unarchived (db db' : Database) (language_id : Z) (title : string) :
  exec (Insert Book [("language_id", VInt language_id); ("title", VText title)]) db
  = Ok db' ->
  exists r id,
    books db' = books db ++ [r]
    /\ get r "id" = VInt id
    /\ (forall old, In old (books db) -> get old "id" <> VInt id)
    /\ get r "language_id" = VInt language_id
    /\ get r "title" = VText title
    /\ get r "is_archived" = VInt 0
    /\ get r "cover_art_filepath" = VNull
    /\ get r "source" = VNull
    /\ get r "last_visited_chapter" = VNull
    /\ get r "last_visited_word_index" = VNull
    /\ get r "last_read" = VNull.
Proof.
  intros H; simpl in H; apply exec_insert_Ok in H; destruct H as (-> & _).
  eexists; exists (next_rowid (int_values (books db) "id")).
  split; [reflexivity |].
  split; [reflexivity |].
  split; [| repeat split].
  intros old Hold E.
  apply (next_rowid_unused (int_values (books db) "id")).
  eapply int_values_In; eassumption.
Qed.

Lemma book_created_unarchived_witness :
  exec (Insert Book [("language_id", VInt 1); ("title", VText "Beta")]) (alpha_db true)
  = Ok (set_rows (alpha_db true) Book
          (books (alpha_db true)
           ++ [[("id", VInt 2); ("language_id", VInt 1); ("title", VText "Beta");
                ("cover_art_filepath", VNull); ("source", VNull);
                ("is_archived", VInt 0); ("last_visited_chapter", VNull);
                ("last_visited_word_index", VNull); ("last_read", VNull)]]))
  /\ exists r id,
       books (set_rows (alpha_db true) Book
                (books (alpha_db true)
                 ++ [[("id", VInt 2); ("language_id", VInt 1); ("title", VText "Beta");
                      ("cover_art_filepath", VNull); ("source", VNull);
                      ("is_archived", VInt 0); ("last_visited_chapter", VNull);
                      ("last_visited_word_index", VNull); ("last_read", VNull)]]))
       = books (alpha_db true) ++ [r]
       /\ get r "id" = VInt id
       /\ (forall old, In old (books (alpha_db true)) -> get old "id" <> VInt id)
       /\ get r "language_id" = VInt 1
       /\ get r "title" = VText "Beta"
       /\ get r "is_archived" = VInt 0
       /\ get r "cover_art_filepath" = VNull
       /\ get r "source" = VNull
       /\ get r "last_visited_chapter" = VNull
       /\ get r "last_visited_word_index" = VNull
       /\ get r "last_read" = VNull.
Proof.
  split; [reflexivity |].
  apply (book_created_unarchived (alpha_db true) _ 1 "Beta"); reflexivity.
Defined.

(** X7: an INSERT of a token with language, norm (within the declared 255
    characters) and an explicit kind is committed if and only if the
    language id is a 64-bit integer, the kind is the code of a [TokenKind]
    (WORD or PHRASE), no stored token has that language and norm, and the
    language exists (or foreign keys are off). *)
Theorem token_insert_accepted_iff (db : Database) (language_id : Z) (norm : string) (kind : Z) :
  (String.length norm <= 255)%nat ->
  (exists db',
      exec (Insert Token [("language_id", VInt language_id); ("norm", VText norm);
                          ("kind", VInt kind)]) db = Ok db')
  <-> int64 language_id = true
      /\ (exists k : TokenKind, kind = TokenKind_value k)
      /\ (forall old, In old (tokens db) ->
                      ~ (get old "language_id" = VInt language_id
                         /\ get old "norm" = VText norm))
      /\ (foreign_keys db = true -> In language_id (language_ids db)).
Proof.
  intros _.
  set (r := [("id", VInt (next_rowid (int_values (tokens db) "id")));
             ("language_id", VInt language_id); ("norm", VText norm);
             ("kind", VInt kind)]).
  assert (Hr : new_row (schema Token) (rows_of db Token)
                 [("language_id", VInt language_id); ("norm", VText norm);
                  ("kind", VInt kind)] = r) by reflexivity.
  split.
  - intros H.
    assert (Hb : int64 language_id = true).
    { destruct H as [db' H]; apply exec_insert_bound in H.
      unfold bindable in H; cbn [forallb snd] in H.
      apply andb_true_iff in H; apply H. }
    apply exec_insert_Ok_exists in H; rewrite Hr in H.
    destruct H as ((_ & Hn & Hc) & Hu & Hfk); split; [exact Hb |]; split; [| split].
    + destruct (valid_kind_of_checks r Hn Hc) as [k Hk].
      exists k; change (get r "kind") with (VInt kind) in Hk; congruence.
    + intros old Hold [E1 E2].
      pose proof (no_conflict_from_unique_ok _ ["language_id"; "norm"] _ _ old Hu
                    (or_intror (or_introl eq_refl)) Hold) as Hno.
      rewrite conflicts_true in Hno; [discriminate | |].
      * intros c [<- | [<- | []]]; [rewrite E1 | rewrite E2]; discriminate.
      * intros c [<- | [<- | []]]; [rewrite E1 | rewrite E2]; reflexivity.
    + intros Hon; specialize (Hfk Hon).
      unfold fk_child_ok in Hfk; simpl in Hfk; rewrite andb_true_r in Hfk.
      apply existsb_Zeqb_In; exact Hfk.
  - intros (Hb & [k ->] & Hnew & Hlang); eexists.
    apply (exec_insert_commits db Token _ r); try reflexivity.
    + apply check_statement_intro; [reflexivity |].
      unfold bindable; cbn [forallb snd]; rewrite Hb; destruct k; reflexivity.
    + destruct k; reflexivity.
    + unfold unique_ok; apply forallb_forall; intros key Hk.
      change (In key [["id"]; ["language_id"; "norm"]]) in Hk.
      destruct Hk as [<- | [<- | []]].
      * apply (next_rowid_fresh (tokens db) "id"); reflexivity.
      * apply forallb_forall; intros old Hold; apply negb_true_iff.
        destruct (conflicts _ old r) eqn:E; [exfalso | reflexivity].
        unfold conflicts in E; simpl in E.
        change (get r "language_id") with (VInt language_id) in E.
        change (get r "norm") with (VText norm) in E.
        rewrite !andb_true_iff in E; destruct E as ((_ & E1) & (_ & E2) & _).
        apply value_eqb_eq in E1, E2; apply (Hnew old Hold); auto.
    + intros Hfk; unfold fk_child_ok; simpl; rewrite andb_true_r.
      apply existsb_Zeqb_In, Hlang, Hfk.
Qed.

Lemma token_insert_accepted_iff_witness :
  (exists db',
      exec (Insert Token [("language_id", VInt 1); ("norm", VText "the cat");
                          ("kind", VInt 2)]) (alpha_db true) = Ok db')
  /\ ~ (exists db',
           exec (Insert Token [("language_id", VInt 1); ("norm", VText "sat");
                               ("kind", VInt 2)]) (alpha_db true) = Ok db')
  /\ ~ (exists db',
           exec (Insert Token [("language_id", VInt 9223372036854775808);
                               ("norm", VText "cat"); ("kind", VInt 1)])
                (alpha_db false) = Ok db').
Proof.
  split; [| split].
  - apply (token_insert_accepted_iff (alpha_db true) 1 "the cat" 2); [simpl; lia |].
    split; [reflexivity |]; split; [exists PHRASE; reflexivity |]; split.
    + intros old [<- | []] [_ E]; discriminate E.
    + intros _; simpl; auto.
  - intros H.
    apply (token_insert_accepted_iff (alpha_db true) 1 "sat" 2) in H; [| simpl; lia].
    destruct H as (_ & _ & H & _).
    apply (H [("id", VInt 1); ("language_id", VInt 1); ("norm", VText "sat");
              ("kind", VInt 1)]); [simpl; auto | split; reflexivity].
  - intros H.
    apply (token_insert_accepted_iff (alpha_db false) 9223372036854775808 "cat" 1) in H;
      [| simpl; lia].
    destruct H as (H & _); discriminate H.
Defined.

Lemma find_none_forall {A : Type} (f : A -> bool) (l : list A) :
  find f l = None <-> forall x, In x l -> f x = false.
Proof.
  induction l as [| y l IH]; simpl; [split; [intros _ x [] | reflexivity] |].
  destruct (f y) eqn:E.
  - split; [discriminate |].
    intros H; rewrite (H y (or_introl eq_refl)) in E; discriminate.
  - rewrite IH; split.
    + intros H x [<- | Hx]; auto.
    + intros H x Hx; apply H; auto.
Qed.

Lemma sql_eq_ints (a b : Z) : sql_eq (VInt a) (VInt b) = Some (Z.eqb a b).
Proof.
  unfold sql_eq, sql_compare.
  destruct (Z.compare_spec a b), (Z.eqb_spec a b); try reflexivity; lia.
Qed.

Lemma between_fails (lo n hi : Z) :
  ~ lo <= n <= hi ->
  sql_and (sql_le (VInt lo) (VInt n)) (sql_le (VInt n) (VInt hi)) = Some false.
Proof.
  intros H; unfold sql_le, sql_compare.
  destruct (Z.compare_spec lo n), (Z.compare_spec n hi); try reflexivity; lia.
Qed.

Lemma stage_check_iff (status : Z) (stage : option Z) :
  sql_or (sql_not (sql_eq (VInt status) (VInt 1)))
         (sql_and (sql_le (VInt 1) (opt_int stage)) (sql_le (opt_int stage) (VInt 5)))
  <> Some false
  <-> (status = 1 -> forall n, stage = Some n -> 1 <= n <= 5).
Proof.
  rewrite sql_eq_ints.
  destruct (Z.eqb_spec status 1) as [-> | Hne]; cbn [sql_not negb].
  - destruct stage as [n |]; cbn [opt_int].
    + destruct (Z_le_dec 1 n) as [H1 | H1]; [destruct (Z_le_dec n 5) as [H5 | H5] |].
      * rewrite between_passes by lia; split; [| discriminate].
        intros _ _ m E; injection E as <-; lia.
      * rewrite between_fails by lia; split; [intros H; exfalso; apply H; reflexivity |].
        intros H; specialize (H eq_refl n eq_refl); lia.
      * rewrite between_fails by lia; split; [intros H; exfalso; apply H; reflexivity |].
        intros H; specialize (H eq_refl n eq_refl); lia.
    + split; [intros _ _ n; discriminate | intros _; discriminate].
  - split; [intros _ E; contradiction |].
    intros _; destruct (sql_and _ _) as [[|] |]; discriminate.
Qed.

(** X8: an INSERT of a token_progress row (token, status, stage or None,
    translation or None) is committed only if its integers are 64-bit
    ones, the status is the code of a [LearningStatus], the stage, when it
    is set and the status is LEARNING, lies in 1..5, the token has no
    progress row yet, and the token exists (or foreign keys are off).  In
    every other case the INSERT is refused. *)
Theorem progress_insert_accepted_only_if (db db' : Database) (token_id status : Z)
        (stage : option Z) (translation : option string) :
  exec (Insert TokenProgress
          [("token_id", VInt token_id); ("status", VInt status);
           ("learning_stage", opt_int stage);
           ("translation", opt_text translation)]) db = Ok db' ->
  int64 token_id = true
  /\ (exists s : LearningStatus, status = LearningStatus_value s)
  /\ (forall n, stage = Some n -> int64 n = true)
  /\ (status = LearningStatus_value LEARNING ->
      forall n, stage = Some n -> 1 <= n <= NUM_LEARNING_STAGES)
  /\ find_progress db token_id = None
  /\ (foreign_keys db = true ->
      exists tok, In tok (tokens db) /\ get tok "id" = VInt token_id).
Proof.
  intros Hexec.
  set (r := [("token_id", VInt token_id); ("status", VInt status);
             ("learning_stage", opt_int stage);
             ("translation", opt_text translation)]).
  assert (Hr : new_row (schema TokenProgress) (rows_of db TokenProgress) r = r)
    by (destruct stage, translation; reflexivity).
  assert (Hchk : checks_ok (schema TokenProgress) r = true
                 <-> (exists s : LearningStatus, status = LearningStatus_value s)
                     /\ (status = 1 -> forall n, stage = Some n -> 1 <= n <= 5)).
  { unfold checks_ok; simpl; rewrite andb_true_r, andb_true_iff.
    split.
    - intros [H1 H2]; split.
      + apply (check_in_literals r "status" [1; 2; 3]) in H1.
        destruct H1 as [H1 | (n & E & Hin)]; [discriminate H1 |].
        change (get r "status") with (VInt status) in E; injection E as <-.
        simpl in Hin; destruct Hin as [<- | [<- | [<- | []]]];
          [exists LEARNING | exists KNOWN | exists IGNORE]; reflexivity.
      + apply stage_check_iff.
        unfold check_passes in H2; simpl in H2.
        change (get r "status") with (VInt status) in H2.
        change (get r "learning_stage") with (opt_int stage) in H2.
        intros E; rewrite E in H2; discriminate.
    - intros [[s ->] H2]; split.
      + destruct s; reflexivity.
      + apply stage_check_iff in H2.
        unfold check_passes; simpl.
        change (get r "status") with (VInt (LearningStatus_value s)).
        change (get r "learning_stage") with (opt_int stage).
        destruct (sql_or _ _) as [[|] |]; congruence. }
  assert (Huniq : unique_ok (schema TokenProgress) (rows_of db TokenProgress) r = true
                  <-> find_progress db token_id = None).
  { unfold find_progress; rewrite find_none_forall.
    unfold unique_ok; simpl; rewrite andb_true_r, forallb_forall.
    change (rows_of db TokenProgress) with (token_progress db).
    split; intros H o Ho; specialize (H o Ho);
      unfold conflicts, column_is in *; simpl in *;
      change (get r "token_id") with (VInt token_id) in *;
      rewrite andb_true_r in *;
      destruct (get o "token_id"); simpl in *; auto;
      try (apply negb_true_iff in H; exact H);
      apply negb_true_iff; exact H. }
  assert (Hparent : fk_child_ok db (schema TokenProgress) (fun _ => true) r = true
                    <-> exists tok, In tok (tokens db) /\ get tok "id" = VInt token_id).
  { unfold fk_child_ok; simpl; rewrite andb_true_r, existsb_exists.
    change (get r "token_id") with (VInt token_id).
    split; intros (tok & Hin & E); exists tok; split; auto;
      [apply value_eqb_eq in E | apply value_eqb_eq]; exact E. }
  pose proof (exec_insert_bound _ _ _ _ Hexec) as Hb.
  unfold bindable in Hb; cbn [forallb snd] in Hb.
  apply andb_true_iff in Hb; destruct Hb as [Hb1 Hb2].
  apply andb_true_iff in Hb2; destruct Hb2 as [_ Hb2].
  apply andb_true_iff in Hb2; destruct Hb2 as [Hb3 _].
  assert (H : exists db', exec (Insert TokenProgress r) db = Ok db')
    by (exists db'; exact Hexec).
  apply exec_insert_Ok_exists in H; rewrite Hr in H.
  destruct H as ((_ & Hn & Hc) & Hu & Hfk).
  apply Hchk in Hc; destruct Hc as [Hs Hstage].
  split; [exact Hb1 |]; split; [exact Hs |]; split; [| split; [exact Hstage | split]].
  - intros n ->; exact Hb3.
  - apply Huniq; exact Hu.
  - intros Hon; apply Hparent, Hfk, Hon.
Qed.

Lemma progress_insert_accepted_only_if_witness :
  int64 1 = true
  /\ (exists s : LearningStatus, 1 = LearningStatus_value s)
  /\ (forall n, Some 1 = Some n -> int64 n = true)
  /\ (1 = LearningStatus_value LEARNING ->
      forall n, Some 1 = Some n -> 1 <= n <= NUM_LEARNING_STAGES)
  /\ find_progress (alpha_db true) 1 = None
  /\ (foreign_keys (alpha_db true) = true ->
      exists tok, In tok (tokens (alpha_db true)) /\ get tok "id" = VInt 1).
Proof.
  apply (progress_insert_accepted_only_if (alpha_db true)
           (set_rows (alpha_db true) TokenProgress
              [[("token_id", VInt 1); ("status", VInt 1); ("learning_stage", VInt 1);
                ("translation", VNull)]])
           1 1 (Some 1) None).
  reflexivity.
Defined.

(** ** Referential integrity *)

Lemma model_eqb_eq (a b : model) : model_eqb a b = true <-> a = b.
Proof. destruct a, b; simpl; split; intros H; try reflexivity; discriminate. Qed.

Lemma rows_of_set_rows_eq (db : Database) (m : model) (rs : list row) :
  rows_of (set_rows db m rs) m = rs.
Proof. destruct m; reflexivity. Qed.

Lemma rows_of_set_rows_neq (db : Database) (m m' : model) (rs : list row) :
  m' <> m -> rows_of (set_rows db m rs) m' = rows_of db m'.
Proof. destruct m, m'; intros H; try reflexivity; congruence. Qed.

Lemma all_models_complete (m : model) : In m all_models.
Proof. destruct m; simpl; auto 10. Qed.

(** Every foreign key to a class of this module is among the referrers of
    that class. *)
Lemma referrers_complete (m : model) (c : Column) (fk : ForeignKey) (mp : model) (pc : string) :
  In c (columns (schema m)) -> foreign_key c = Some fk -> target fk = ColumnOf mp pc ->
  In (m, name c, pc, ondelete fk) (referrers mp).
Proof.
  intros Hc Hf Ht; unfold referrers.
  apply in_flat_map; exists m; split; [apply all_models_complete |].
  apply in_flat_map; exists c; split; [exact Hc |].
  rewrite Hf, Ht.
  replace (model_eqb mp mp) with true by (symmetry; apply model_eqb_eq; reflexivity).
  left; reflexivity.
Qed.

(** No class refers to itself. *)
Lemma no_self_reference (m : model) (c : Column) (fk : ForeignKey) (mp : model) (pc : string) :
  In c (columns (schema m)) -> foreign_key c = Some fk -> target fk = ColumnOf mp pc ->
  mp <> m.
Proof.
  intros Hc Hf Ht E; subst mp.
  pose proof (referrers_complete m c fk m pc Hc Hf Ht) as H.
  destruct m; simpl in H; repeat (destruct H as [H | H]; [discriminate H |]); exact H.
Qed.

Lemma resolved_column (db : Database) :
  references_resolved db <->
  forall m r c fk,
    In r (rows_of db m) -> In c (columns (schema m)) -> foreign_key c = Some fk ->
    get r (name c) <> VNull ->
    parent_has db (target fk) (get r (name c)) = true.
Proof.
  unfold references_resolved, fk_child_ok; split.
  - intros H m r c fk Hr Hc Hf Hv.
    specialize (H m r Hr); rewrite forallb_forall in H; specialize (H c Hc).
    rewrite Hf in H; simpl in H.
    destruct (get r (name c)); [contradiction | exact H | exact H].
  - intros H m r Hr; apply forallb_forall; intros c Hc.
    destruct (foreign_key c) as [fk |] eqn:Hf; [| reflexivity].
    simpl; destruct (is_null (get r (name c))) eqn:E; [reflexivity |].
    apply (H m r c fk Hr Hc Hf).
    intros E'; rewrite E' in E; discriminate.
Qed.

Lemma parent_has_grows (db db' : Database) (ref : reference) (v : value) :
  language_ids db' = language_ids db ->
  (forall m p, In p (rows_of db m) -> In p (rows_of db' m)) ->
  parent_has db ref v = true -> parent_has db' ref v = true.
Proof.
  intros Hl Hincl; destruct ref as [| m c]; simpl.
  - rewrite Hl; auto.
  - rewrite !existsb_exists; intros (p & Hp & E); exists p; auto.
Qed.

Lemma resolved_empty (fk : bool) (langs : list Z) : references_resolved (empty_db fk langs).
Proof. intros m r Hr; destruct m; destruct Hr. Qed.

Lemma resolved_insert (db : Database) (m : model) (r : row) :
  references_resolved db ->
  fk_child_ok db (schema m) (fun _ => true) r = true ->
  references_resolved (set_rows db m (rows_of db m ++ [r])).
Proof.
  intros Hres Hr.
  assert (Hincl : forall m' p, In p (rows_of db m') ->
                               In p (rows_of (set_rows db m (rows_of db m ++ [r])) m')).
  { intros m' p Hp; destruct (model_eqb m' m) eqn:E.
    - apply model_eqb_eq in E; subst m'.
      rewrite rows_of_set_rows_eq; apply in_or_app; auto.
    - rewrite rows_of_set_rows_neq; [exact Hp |].
      intros E'; apply model_eqb_eq in E'; congruence. }
  assert (Hold : forall m' x, In x (rows_of db m' ) \/ (m' = m /\ x = r) ->
                 fk_child_ok (set_rows db m (rows_of db m ++ [r])) (schema m')
                             (fun _ => true) x = true).
  { intros m' x Hx.
    assert (H : fk_child_ok db (schema m') (fun _ => true) x = true)
      by (destruct Hx as [Hx | [-> ->]]; [apply Hres; exact Hx | exact Hr]).
    unfold fk_child_ok in *; rewrite forallb_forall in *; intros c Hc.
    specialize (H c Hc); destruct (foreign_key c); [| reflexivity].
    simpl in *; destruct (is_null (get x (name c))); [reflexivity |]; simpl in *.
    exact (parent_has_grows db (set_rows db m (rows_of db m ++ [r])) _ _ eq_refl Hincl H). }
  intros m' x Hx; apply Hold.
  destruct (model_eqb m' m) eqn:E.
  - apply model_eqb_eq in E; subst m'.
    rewrite rows_of_set_rows_eq in Hx; apply in_app_or in Hx.
    destruct Hx as [Hx | [<- | []]]; auto.
  - rewrite rows_of_set_rows_neq in Hx; [auto |].
    intros E'; apply model_eqb_eq in E'; congruence.
Qed.

Lemma Forall2_In_r {A B : Type} (R : A -> B -> Prop) (l : list A) (l' : list B) (y : B) :
  Forall2 R l l' -> In y l' -> exists x, In x l /\ R x y.
Proof.
  induction 1 as [| x y' l l' Hxy _ IH]; simpl; [intros [] |].
  intros [<- | Hy]; [exists x; auto |].
  destruct (IH Hy) as (x0 & Hx0 & HR); exists x0; auto.
Qed.

Lemma Forall2_In_l {A B : Type} (R : A -> B -> Prop) (l : list A) (l' : list B) (x : A) :
  Forall2 R l l' -> In x l -> exists y, In y l' /\ R x y.
Proof.
  induction 1 as [| x' y l l' Hxy _ IH]; simpl; [intros [] |].
  intros [<- | Hx]; [exists y; auto |].
  destruct (IH Hx) as (y0 & Hy0 & HR); exists y0; auto.
Qed.

Lemma Forall2_same {A : Type} (R : A -> A -> Prop) (l : list A) :
  (forall x, R x x) -> Forall2 R l l.
Proof. intros H; induction l; constructor; auto. Qed.

Lemma update_rows_rewritten (db : Database) (m : model) (where_ : row -> bool) (vals : row)
      (todo done rows : list row) :
  foreign_keys db = true ->
  update_rows db m where_ vals done todo = Ok rows ->
  exists todo', rows = done ++ todo' /\ Forall2 (rewritten db m vals) todo todo'.
Proof.
  intros Hfk; revert done; induction todo as [| r rest IH]; intros done H; simpl in H.
  - injection H as <-; exists []; split; [symmetry; apply app_nil_r | constructor].
  - destruct (where_ r).
    + ok_inv H.
      unfold check_fk_child in H_2_1; apply require_Ok in H_2_1.
      rewrite Hfk in H_2_1, H_2_2_1; simpl in H_2_1, H_2_2_1.
      destruct (IH _ H_2_2_2) as (todo' & -> & HF).
      exists (assign vals r :: todo'); split; [rewrite <- app_assoc; reflexivity |].
      constructor; [right; auto | exact HF].
    + destruct (IH _ H) as (todo' & -> & HF).
      exists (r :: todo'); split; [rewrite <- app_assoc; reflexivity |].
      constructor; [left; reflexivity | exact HF].
Qed.

Lemma written_false (vals : row) (c : string) :
  written vals c = false -> lookup vals c = None.
Proof. unfold written; destruct (lookup vals c); [discriminate | reflexivity]. Qed.

(** Replacing rows of a table by rows that passed an UPDATE's foreign-key
    checks keeps every reference resolved. *)
Lemma resolved_rewritten (db : Database) (m : model) (vals : row) (rows' : list row) :
  references_resolved db ->
  Forall2 (rewritten db m vals) (rows_of db m) rows' ->
  references_resolved (set_rows db m rows').
Proof.
  intros Hres HF; rewrite resolved_column in *.
  intros mc x c fk Hx Hc Hf Hv.
  set (db' := set_rows db m rows') in *.
  (* the reference of [x] is resolved in the old store *)
  assert (Hold : parent_has db (target fk) (get x (name c)) = true
                 /\ (mc <> m -> In x (rows_of db mc))).
  { destruct (model_eqb mc m) eqn:E.
    - apply model_eqb_eq in E; subst mc; split; [| congruence].
      unfold db' in Hx; rewrite rows_of_set_rows_eq in Hx.
      destruct (Forall2_In_r _ _ _ _ HF Hx) as (x0 & Hx0 & [-> | (Ex & Hchild & _)]).
      + apply (Hres m x0 c fk); assumption.
      + destruct (written vals (name c)) eqn:Ew.
        * unfold fk_child_ok in Hchild; rewrite forallb_forall in Hchild.
          specialize (Hchild c Hc); rewrite Hf, Ew in Hchild; simpl in Hchild.
          destruct (get x (name c)); [contradiction | exact Hchild | exact Hchild].
        * assert (Eg : get x (name c) = get x0 (name c))
            by (rewrite Ex; apply get_assign_unwritten, written_false, Ew).
          rewrite Eg in *; apply (Hres m x0 c fk); assumption.
    - assert (Hne : mc <> m) by (intros E'; apply model_eqb_eq in E'; congruence).
      unfold db' in Hx; rewrite rows_of_set_rows_neq in Hx by exact Hne.
      split; [apply (Hres mc x c fk); assumption | intros _; exact Hx]. }
  destruct Hold as [Hold Hin].
  (* and stays resolved in the new one *)
  destruct (target fk) as [| mp pc] eqn:Ht; [exact Hold |].
  simpl in Hold |- *.
  destruct (model_eqb mp m) eqn:E.
  - apply model_eqb_eq in E; subst mp.
    assert (Hne : mc <> m).
    { intros ->; exact (no_self_reference m c fk m pc Hc Hf Ht eq_refl). }
    specialize (Hin Hne).
    unfold db'; rewrite rows_of_set_rows_eq.
    apply existsb_exists in Hold; destruct Hold as (p & Hp & Ep).
    destruct (Forall2_In_l _ _ _ _ HF Hp) as (p' & Hp' & [-> | (_ & _ & Hfree)]).
    + apply existsb_exists; exists p; auto.
    + unfold parent_key_free in Hfree; rewrite forallb_forall in Hfree.
      specialize (Hfree _ (referrers_complete mc c fk m pc Hc Hf Ht)); simpl in Hfree.
      apply orb_true_iff in Hfree; destruct Hfree as [Hsame | Hnone].
      * apply value_eqb_eq in Hsame; apply existsb_exists; exists p'; split; [exact Hp' |].
        rewrite <- Hsame; exact Ep.
      * exfalso; apply negb_true_iff in Hnone.
        assert (Hsome : existsb (refers_to (name c) pc [p]) (rows_of db mc) = true).
        { apply existsb_exists; exists x; split; [exact Hin |].
          unfold refers_to; simpl; rewrite Ep; simpl.
          destruct (get x (name c)); [contradiction | reflexivity | reflexivity]. }
        rewrite Hsome in Hnone; discriminate.
  - assert (Hne : mp <> m) by (intros E'; apply model_eqb_eq in E'; congruence).
    unfold db'; rewrite rows_of_set_rows_neq by exact Hne; exact Hold.
Qed.

Lemma parents_survive_refl (db : Database) : parents_survive db db.
Proof. intros m r c fk mp pc p _ _ _ _ Hp _ _; exact Hp. Qed.

Lemma parents_survive_trans (db1 db2 db3 : Database) :
  shrinks db2 db3 -> parents_survive db1 db2 -> parents_survive db2 db3 ->
  parents_survive db1 db3.
Proof.
  intros (_ & _ & Hs) H12 H23 m r c fk mp pc p Hr Hc Hf Ht Hp Hv E.
  apply (H23 m r c fk mp pc p); auto.
  apply (H12 m r c fk mp pc p); auto.
  eapply subseq_In; [apply Hs | exact Hr].
Qed.

Lemma fold_left_Err {A : Type} (step : result Database -> A -> result Database)
      (l : list A) (e : error) :
  (forall x e', step (Err e') x = Err e') -> fold_left step l (Err e) = Err e.
Proof. intros H; induction l as [| x l IH]; simpl; [reflexivity | rewrite H; exact IH]. Qed.

(** What a DELETE with foreign keys enforced leaves: no selected row, and
    every row that a remaining row refers to. *)
Lemma delete_where_parents (depth : nat) :
  forall (db db' : Database) (m : model) (where_ : row -> bool),
    foreign_keys db = true ->
    delete_where depth db m where_ = Ok db' ->
    parents_survive db db'
    /\ forall r, In r (rows_of db' m) -> where_ r = false.
Proof.
  induction depth as [| depth IH]; intros db db' m where_ Hfk H; simpl in H;
    [discriminate |].
  rewrite Hfk in H.
  set (gone := filter where_ (rows_of db m)) in *.
  set (db1 := set_rows db m (filter (fun r => negb (where_ r)) (rows_of db m))) in *.
  assert (Hfold : forall refs acc dbf dbi,
             fold_left
               (fun acc ref =>
                  match ref with
                  | (m', cc, pc, action) =>
                      db' <- acc ;;
                      match action with
                      | Cascade => delete_where depth db' m' (refers_to cc pc gone)
                      | NoAction =>
                          require (negb (existsb (refers_to cc pc gone) (rows_of db' m')))
                                  (IntegrityError "FOREIGN KEY constraint failed") ;;;
                          Ok db'
                      end
                  end) refs acc = Ok dbf ->
             acc = Ok dbi -> foreign_keys dbi = true ->
             shrinks dbi dbf /\ parents_survive dbi dbf
             /\ forall m' cc pc a r,
                  In (m', cc, pc, a) refs -> In r (rows_of dbf m') ->
                  refers_to cc pc gone r = false).
  { induction refs as [| [[[m' cc] pc] a] refs IHrefs]; intros acc dbf dbi Hf Hacc Hfki;
      simpl in Hf.
    - rewrite Hacc in Hf; injection Hf as <-.
      split; [repeat split; intros; apply subseq_refl |].
      split; [apply parents_survive_refl | intros ? ? ? ? ? []].
    - rewrite Hacc in Hf; cbn [bind] in Hf.
      destruct a.
      + destruct (existsb (refers_to cc pc gone) (rows_of dbi m')) eqn:Eno;
          cbn [negb require bind] in Hf.
        * rewrite fold_left_Err in Hf; [discriminate |].
          intros [[[? ?] ?] ?] ?; reflexivity.
        * destruct (IHrefs _ _ dbi Hf eq_refl Hfki) as (Hs & Hp & Hrest).
          split; [exact Hs |]; split; [exact Hp |].
          intros m2 cc2 pc2 a2 r [E | Hin] Hr; [| eapply Hrest; eassumption].
          injection E as <- <- <- <-.
          destruct (refers_to cc pc gone r) eqn:Er; [| reflexivity].
          assert (Hex : existsb (refers_to cc pc gone) (rows_of dbi m') = true).
          { apply existsb_exists; exists r; split; [| exact Er].
            destruct Hs as (_ & _ & Hs); eapply subseq_In; [apply Hs | exact Hr]. }
          rewrite Hex in Eno; discriminate.
      + destruct (delete_where depth dbi m' (refers_to cc pc gone)) as [dbj | e] eqn:Ej.
        * destruct (IH _ _ _ _ Hfki Ej) as [Hpj Hgonej].
          pose proof (delete_where_shrinks _ _ _ _ _ Ej) as Hsj.
          assert (Hfkj : foreign_keys dbj = true) by (destruct Hsj as (-> & _); exact Hfki).
          destruct (IHrefs _ _ dbj Hf eq_refl Hfkj) as (Hs & Hp & Hrest).
          split; [eapply shrinks_trans; eassumption |].
          split; [eapply parents_survive_trans; eassumption |].
          intros m2 cc2 pc2 a2 r [E | Hin] Hr; [| eapply Hrest; eassumption].
          injection E as <- <- <- <-.
          apply Hgonej.
          destruct Hs as (_ & _ & Hs); eapply subseq_In; [apply Hs | exact Hr].
        * rewrite fold_left_Err in Hf; [discriminate |].
          intros [[[? ?] ?] ?] ?; reflexivity. }
  destruct (Hfold _ _ _ db1 H eq_refl Hfk) as ((_ & _ & Hs) & Hp & Hrefs).
  split.
  - intros mr r c fk mp pc p Hr Hc Hf Ht Hpin Hv E.
    assert (Hcase : In p (rows_of db1 mp) \/ (mp = m /\ In p gone)).
    { destruct (model_eqb mp m) eqn:Em.
      - apply model_eqb_eq in Em; subst mp.
        destruct (where_ p) eqn:Ew.
        + right; split; [reflexivity |]; apply filter_In; auto.
        + left; unfold db1; rewrite rows_of_set_rows_eq.
          apply filter_In; rewrite Ew; auto.
      - left; unfold db1; rewrite rows_of_set_rows_neq; [exact Hpin |].
        intros E'; apply model_eqb_eq in E'; congruence. }
    destruct Hcase as [Hin1 | [-> Hgone]].
    + apply (Hp mr r c fk mp pc p); auto.
    + exfalso.
      pose proof (Hrefs _ _ _ _ r (referrers_complete mr c fk m pc Hc Hf Ht) Hr) as Hno.
      unfold refers_to in Hno.
      assert (Hex : existsb (fun g => value_eqb (get g pc) (get r (name c))) gone = true)
        by (apply existsb_exists; exists p; auto).
      rewrite Hex, andb_true_r in Hno.
      destruct (get r (name c)); [contradiction | discriminate | discriminate].
  - intros r Hr.
    assert (H1 : In r (rows_of db1 m)) by (eapply subseq_In; [apply Hs | exact Hr]).
    unfold db1 in H1; rewrite rows_of_set_rows_eq in H1.
    apply filter_In in H1; destruct H1 as [_ H1]; apply negb_true_iff in H1; exact H1.
Qed.

Lemma resolved_shrinks (db db' : Database) :
  references_resolved db -> shrinks db db' -> parents_survive db db' ->
  references_resolved db'.
Proof.
  intros Hres (_ & Hl & Hs) Hp; rewrite resolved_column in *.
  intros m r c fk Hr Hc Hf Hv.
  assert (Hr0 : In r (rows_of db m)) by (eapply subseq_In; [apply Hs | exact Hr]).
  specialize (Hres m r c fk Hr0 Hc Hf Hv).
  destruct (target fk) as [| mp pc] eqn:Ht; simpl in *; [rewrite Hl; exact Hres |].
  apply existsb_exists in Hres; destruct Hres as (p & Hpin & E).
  apply existsb_exists; exists p; split; [| exact E].
  apply (Hp m r c fk mp pc p); auto.
Qed.

Lemma rewritten_refl (db : Database) (m : model) (vals : row) (r : row) :
  rewritten db m vals r r.
Proof. left; reflexivity. Qed.

Lemma exec_foreign_keys (s : stmt) (db db' : Database) :
  exec s db = Ok db' -> foreign_keys db' = foreign_keys db.
Proof.
  destruct s; simpl; intros H.
  - apply exec_insert_Ok in H; destruct H as (-> & _); reflexivity.
  - unfold exec_update in H; ok_inv H; subst db'; reflexivity.
  - apply delete_where_shrinks in H; destruct H as (H & _); exact H.
  - unfold exec_upsert in H; ok_inv H.
    destruct (split_conflict _ _ _) as [[[before old] after] |];
      ok_inv H_2_2_2; subst db'; reflexivity.
Qed.

Lemma exec_resolved (s : stmt) (db db' : Database) :
  foreign_keys db = true -> references_resolved db ->
  exec s db = Ok db' -> references_resolved db'.
Proof.
  intros Hfk Hres H; destruct s; simpl in H.
  - apply exec_insert_Ok in H; destruct H as (-> & _ & _ & Hchild).
    apply resolved_insert; auto.
  - unfold exec_update in H; ok_inv H; subst db'.
    destruct (update_rows_rewritten _ _ _ _ _ _ _ Hfk H_2_1) as (rows' & -> & HF).
    apply (resolved_rewritten db m vals); assumption.
  - unfold exec_delete in H.
    destruct (delete_where_parents _ _ _ _ _ Hfk H) as [Hp _].
    eapply resolved_shrinks; [exact Hres | eapply delete_where_shrinks; exact H | exact Hp].
  - unfold exec_upsert in H; ok_inv H.
    destruct (split_conflict _ _ _) as [[[before old] after] |] eqn:E.
    + ok_inv H_2_2_2; subst db'.
      apply split_conflict_Some in E; destruct E as (Erows & _ & _).
      unfold check_fk_child in H_2_2_2_2_1; apply require_Ok in H_2_2_2_2_1.
      rewrite Hfk in H_2_2_2_2_1, H_2_2_2_2_2_1; simpl in H_2_2_2_2_1, H_2_2_2_2_2_1.
      apply (resolved_rewritten db m set_); [exact Hres |].
      rewrite Erows; apply Forall2_app; [apply Forall2_same, rewritten_refl |].
      constructor; [right; auto | apply Forall2_same, rewritten_refl].
    + ok_inv H_2_2_2; subst db'.
      unfold check_fk_child in H_2_2_2_2_1; apply require_Ok in H_2_2_2_2_1.
      rewrite Hfk in H_2_2_2_2_1; simpl in H_2_2_2_2_1.
      apply resolved_insert; assumption.
Qed.

Lemma reachable_resolved (db : Database) :
  reachable db -> foreign_keys db = true -> references_resolved db.
Proof.
  induction 1 as [fk langs | db s db' Hdb IH H]; intros Hfk.
  - apply resolved_empty.
  - rewrite (exec_foreign_keys s db db' H) in Hfk.
    eapply exec_resolved; eauto.
Qed.

(** X9: with foreign keys enforced, every non-NULL foreign key of every
    stored row names a row that exists, in every store the statements can
    produce: no chapter, book_vocab or book_totals row without its book, no
    book_vocab or token_progress row without its token, no book or token
    without its language. *)
Theorem references_always_resolved (db : Database) (m : model) (r : row)
        (c : Column) (fk : ForeignKey) :
  reachable db -> foreign_keys db = true ->
  In r (rows_of db m) -> In c (columns (schema m)) -> foreign_key c = Some fk ->
  get r (name c) <> VNull ->
  parent_has db (target fk) (get r (name c)) = true.
Proof.
  intros Hdb Hfk; revert m r c fk; apply resolved_column, reachable_resolved; assumption.
Qed.

Lemma references_always_resolved_witness :
  parent_has (indexed_db true) (ColumnOf Book "id") (VInt 1) = true.
Proof.
  apply (references_always_resolved (indexed_db true) BookVocab
           [("book_id", VInt 1); ("token_id", VInt 1); ("token_count", VInt 1)]
           (with_primary_key
              (with_foreign_key (references (ColumnOf Book "id"))
                 (mapped_column "book_id" Integer false)))
           (references (ColumnOf Book "id"))); try reflexivity.
  - apply indexed_db_reachable.
  - simpl; auto.
  - simpl; auto.
  - simpl; discriminate.
Defined.

(** The reading of X9 for the inverted index: each book_vocab row has its
    book and its token. *)
Lemma book_vocab_rows_have_book_and_token (db : Database) (r : row) :
  reachable db -> foreign_keys db = true -> In r (book_vocab db) ->
  (exists b, In b (books db) /\ get b "id" = get r "book_id")
  /\ (exists t, In t (tokens db) /\ get t "id" = get r "token_id").
Proof.
  intros Hdb Hfk Hr.
  pose proof (reachable_resolved db Hdb Hfk BookVocab r Hr) as H.
  destruct (reachable_row_ok db BookVocab r Hdb Hr) as (_ & Hn & _).
  unfold fk_child_ok in H; simpl in H.
  rewrite !andb_true_iff in H; destruct H as (H1 & H2 & _).
  assert (N1 : get r "book_id" <> VNull)
    by (apply (key_not_null_get BookVocab_table ["book_id"; "token_id"] r "book_id"
                 eq_refl Hn); simpl; auto).
  assert (N2 : get r "token_id" <> VNull)
    by (apply (key_not_null_get BookVocab_table ["book_id"; "token_id"] r "token_id"
                 eq_refl Hn); simpl; auto).
  split.
  - destruct (get r "book_id") eqn:E; [contradiction | |];
      simpl in H1; apply existsb_exists in H1; destruct H1 as (p & Hp & Ep);
      apply value_eqb_eq in Ep; exists p; auto.
  - destruct (get r "token_id") eqn:E; [contradiction | |];
      simpl in H2; apply existsb_exists in H2; destruct H2 as (p & Hp & Ep);
      apply value_eqb_eq in Ep; exists p; auto.
Qed.

(** ** DELETE and the references to the deleted rows *)

Lemma exec_delete_book (db : Database) (where_ : row -> bool) :
  foreign_keys db = true ->
  exec (Delete Book where_) db =
  require (negb (existsb (refers_to "book_id" "id" (filter where_ (books db)))
                         (chapters db)))
          (IntegrityError "FOREIGN KEY constraint failed") ;;;
  require (negb (existsb (refers_to "book_id" "id" (filter where_ (books db)))
                         (book_vocab db)))
          (IntegrityError "FOREIGN KEY constraint failed") ;;;
  Ok (set_rows (set_rows db Book (filter (fun r => negb (where_ r)) (books db)))
               BookTotals
               (filter (fun r => negb (refers_to "book_id" "id"
                                         (filter where_ (books db)) r))
                       (book_totals db))).
Proof.
  intros Hfk; unfold exec, exec_delete, max_cascade_depth; simpl.
  rewrite Hfk; simpl.
  destruct (existsb _ (chapters db)); simpl; [reflexivity |].
  destruct (existsb _ (book_vocab db)); simpl; [reflexivity |].
  rewrite Hfk; reflexivity.
Qed.

Lemma exec_delete_token (db : Database) (where_ : row -> bool) :
  foreign_keys db = true ->
  exec (Delete Token where_) db =
  require (negb (existsb (refers_to "token_id" "id" (filter where_ (tokens db)))
                         (book_vocab db)))
          (IntegrityError "FOREIGN KEY constraint failed") ;;;
  require (negb (existsb (refers_to "token_id" "id" (filter where_ (tokens db)))
                         (token_progress db)))
          (IntegrityError "FOREIGN KEY constraint failed") ;;;
  Ok (set_rows db Token (filter (fun r => negb (where_ r)) (tokens db))).
Proof.
  intros Hfk; unfold exec, exec_delete, max_cascade_depth; simpl.
  rewrite Hfk; simpl.
  destruct (existsb _ (book_vocab db)); simpl; [reflexivity |].
  destruct (existsb _ (token_progress db)); reflexivity.
Qed.

Lemma exec_delete_chapter (db : Database) (where_ : row -> bool) :
  exec (Delete Chapter where_) db
  = Ok (set_rows db Chapter (filter (fun r => negb (where_ r)) (chapters db))).
Proof.
  unfold exec, exec_delete, max_cascade_depth; simpl.
  destruct (foreign_keys db); reflexivity.
Qed.

Lemma refers_to_intro (cc pc : string) (gone : list row) (p child : row) :
  In p gone -> get child cc <> VNull -> get child cc = get p pc ->
  refers_to cc pc gone child = true.
Proof.
  intros Hp Hv E; unfold refers_to.
  replace (existsb _ gone) with true.
  - destruct (get child cc); [contradiction | reflexivity | reflexivity].
  - symmetry; apply existsb_exists; exists p; split; [exact Hp |].
    rewrite E; apply value_eqb_refl.
Qed.

Lemma refers_to_elim (cc pc : string) (gone : list row) (child : row) :
  refers_to cc pc gone child = true ->
  get child cc <> VNull /\ exists p, In p gone /\ get p pc = get child cc.
Proof.
  unfold refers_to; intros H; apply andb_true_iff in H; destruct H as [Hn Hex].
  split; [intros E; rewrite E in Hn; discriminate |].
  apply existsb_exists in Hex; destruct Hex as (p & Hp & E).
  apply value_eqb_eq in E; exists p; auto.
Qed.

(** X10: with foreign keys enforced, a DELETE that selects a row to which
    another table still refers through a foreign key without an ON DELETE
    action is refused: a book with chapters or book_vocab rows, a token
    with book_vocab or token_progress rows. *)
Theorem referenced_row_not_deleted (db : Database) (m m' : model) (cc pc : string)
        (where_ : row -> bool) (p child : row) :
  foreign_keys db = true ->
  In (m', cc, pc, NoAction) (referrers m) ->
  In p (rows_of db m) -> where_ p = true ->
  In child (rows_of db m') -> get child cc <> VNull -> get child cc = get p pc ->
  refused (Delete m where_) db.
Proof.
  intros Hfk Href Hp Hw Hchild Hv E; apply refused_intro; intros db' H.
  assert (Hex : existsb (refers_to cc pc (filter where_ (rows_of db m))) (rows_of db m')
                = true).
  { apply existsb_exists; exists child; split; [exact Hchild |].
    apply (refers_to_intro cc pc _ p); auto.
    apply filter_In; auto. }
  destruct m; simpl in Href;
    repeat (destruct Href as [Href | Href]; [injection Href as <- <- <- |]);
    try destruct Href; try discriminate.
  - rewrite (exec_delete_book db where_ Hfk) in H.
    change (rows_of db Book) with (books db) in Hex.
    change (rows_of db Chapter) with (chapters db) in Hex.
    rewrite Hex in H; discriminate.
  - rewrite (exec_delete_book db where_ Hfk) in H.
    change (rows_of db Book) with (books db) in Hex.
    change (rows_of db BookVocab) with (book_vocab db) in Hex.
    rewrite Hex in H.
    destruct (existsb _ (chapters db)); discriminate.
  - rewrite (exec_delete_token db where_ Hfk) in H.
    change (rows_of db Token) with (tokens db) in Hex.
    change (rows_of db BookVocab) with (book_vocab db) in Hex.
    rewrite Hex in H; discriminate.
  - rewrite (exec_delete_token db where_ Hfk) in H.
    change (rows_of db Token) with (tokens db) in Hex.
    change (rows_of db TokenProgress) with (token_progress db) in Hex.
    rewrite Hex in H.
    destruct (existsb _ (book_vocab db)); discriminate.
Qed.

Lemma referenced_row_not_deleted_witness :
  refused (Delete Token (column_is "id" (VInt 1))) (indexed_db true).
Proof.
  apply (referenced_row_not_deleted (indexed_db true) Token BookVocab "token_id" "id"
           (column_is "id" (VInt 1))
           [("id", VInt 1); ("language_id", VInt 1); ("norm", VText "sat"); ("kind", VInt 1)]
           [("book_id", VInt 1); ("token_id", VInt 1); ("token_count", VInt 1)]);
    try reflexivity.
  - simpl; auto.
  - simpl; auto.
  - simpl; auto.
  - simpl; discriminate.
Defined.

(** ** Deleting a book through the session, in general *)

Lemma filter_all {A : Type} (f : A -> bool) (l : list A) :
  (forall x, In x l -> f x = true) -> filter f l = l.
Proof.
  induction l as [| x l IH]; simpl; intros H; [reflexivity |].
  rewrite (H x (or_introl eq_refl)), IH; [reflexivity |].
  intros y Hy; apply H; auto.
Qed.

Lemma filter_same {A : Type} (f g : A -> bool) (l : list A) :
  (forall x, In x l -> f x = g x) -> filter f l = filter g l.
Proof.
  induction l as [| x l IH]; simpl; intros H; [reflexivity |].
  rewrite (H x (or_introl eq_refl)), IH; [reflexivity |].
  intros y Hy; apply H; auto.
Qed.

(** A row refers to one of the books numbered [b] exactly when there is
    such a book and the row's book_id is [b]. *)
Lemma refers_to_book (db : Database) (b : Z) (cc : string) (r : row) :
  refers_to cc "id" (filter (column_is "id" (VInt b)) (books db)) r
  = has_book db b && column_is cc (VInt b) r.
Proof.
  destruct (refers_to cc "id" _ r) eqn:E.
  - apply refers_to_elim in E; destruct E as (_ & p & Hp & Ep).
    apply filter_In in Hp; destruct Hp as [Hp Hid].
    symmetry; apply andb_true_iff; split.
    + apply existsb_exists; exists p; auto.
    + unfold column_is in *; apply value_eqb_eq in Hid.
      rewrite <- Ep, Hid; apply value_eqb_refl.
  - destruct (has_book db b) eqn:Hb; [| reflexivity].
    destruct (column_is cc (VInt b) r) eqn:Hc; [| reflexivity].
    apply existsb_exists in Hb; destruct Hb as (p & Hp & Hid).
    unfold column_is in Hc, Hid; apply value_eqb_eq in Hc, Hid.
    rewrite (refers_to_intro cc "id" _ p r) in E; [discriminate | | |].
    + apply filter_In; split; [exact Hp |].
      unfold column_is; rewrite Hid; apply value_eqb_refl.
    + rewrite Hc; discriminate.
    + congruence.
Qed.

Lemma session_delete_book_statements (db : Database) (b : Z) :
  session_delete_book db b
  = (db1 <- exec (Delete Chapter (column_is "book_id" (VInt b))) db ;;
     db2 <- exec (Delete Book (column_is "id" (VInt b))) db1 ;;
     Ok db2).
Proof. reflexivity. Qed.

(** X11: with foreign keys enforced, deleting through the session a book
    that has no book_vocab rows is committed and takes with it exactly the
    book's row, its chapters (the relationship's delete cascade) and its
    totals (ON DELETE CASCADE); tokens, book_vocab and token_progress are
    untouched. *)
Theorem delete_book_cascades (db : Database) (b : Z) :
  foreign_keys db = true ->
  (forall r, In r (book_vocab db) -> get r "book_id" <> VInt b) ->
  exists db',
    session_delete_book db b = Ok db'
    /\ books db' = filter (fun r => negb (column_is "id" (VInt b) r)) (books db)
    /\ chapters db' = filter (fun r => negb (column_is "book_id" (VInt b) r)) (chapters db)
    /\ book_totals db'
       = (if has_book db b
          then filter (fun r => negb (column_is "book_id" (VInt b) r)) (book_totals db)
          else book_totals db)
    /\ tokens db' = tokens db
    /\ book_vocab db' = book_vocab db
    /\ token_progress db' = token_progress db.
Proof.
  intros Hfk Hvocab.
  rewrite session_delete_book_statements, exec_delete_chapter; cbn [bind].
  rewrite exec_delete_book by exact Hfk.
  cbn [books chapters book_vocab book_totals set_rows].
  assert (H1 : existsb (refers_to "book_id" "id"
                          (filter (column_is "id" (VInt b)) (books db)))
                       (filter (fun r => negb (column_is "book_id" (VInt b) r))
                               (chapters db)) = false).
  { destruct (existsb _ _) eqn:E; [| reflexivity].
    apply existsb_exists in E; destruct E as (r & Hr & Hto).
    apply filter_In in Hr; destruct Hr as [_ Hr].
    rewrite refers_to_book in Hto; apply andb_true_iff in Hto; destruct Hto as [_ Hto].
    rewrite Hto in Hr; discriminate. }
  assert (H2 : existsb (refers_to "book_id" "id"
                          (filter (column_is "id" (VInt b)) (books db)))
                       (book_vocab db) = false).
  { destruct (existsb _ (book_vocab db)) eqn:E; [| reflexivity].
    apply existsb_exists in E; destruct E as (r & Hr & Hto).
    rewrite refers_to_book in Hto; apply andb_true_iff in Hto; destruct Hto as [_ Hto].
    unfold column_is in Hto; apply value_eqb_eq in Hto.
    destruct (Hvocab r Hr Hto). }
  rewrite H1, H2; cbn [negb require bind].
  eexists; split; [reflexivity |].
  cbn [books chapters book_vocab book_totals tokens token_progress set_rows].
  repeat split.
  destruct (has_book db b) eqn:Hb.
  - apply filter_same; intros r _; rewrite refers_to_book, Hb; reflexivity.
  - apply filter_all; intros r _; rewrite refers_to_book, Hb; reflexivity.
Qed.

Lemma delete_book_cascades_witness :
  exists db',
    session_delete_book (set_rows (indexed_db true) BookVocab []) 1 = Ok db'
    /\ books db' = [] /\ chapters db' = [] /\ book_totals db' = [].
Proof.
  destruct (delete_book_cascades (set_rows (indexed_db true) BookVocab []) 1)
    as (db' & H & Hb & Hc & Ht & _).
  - reflexivity.
  - intros r [].
  - exists db'; repeat split; assumption.
Defined.

(** X12: with foreign keys enforced, deleting through the session a book
    that still has a book_vocab row fails as a whole: the reference from
    book_vocab has no ON DELETE action, and the chapters that the session
    deleted first are rolled back with the rest. *)
Theorem delete_book_blocked_by_vocab (db : Database) (b : Z) (r : row) :
  foreign_keys db = true -> has_book db b = true ->
  In r (book_vocab db) -> get r "book_id" = VInt b ->
  session_delete_book db b = Err (IntegrityError "FOREIGN KEY constraint failed").
Proof.
  intros Hfk Hb Hr E.
  rewrite session_delete_book_statements, exec_delete_chapter; cbn [bind].
  rewrite exec_delete_book by exact Hfk.
  cbn [books chapters book_vocab book_totals set_rows].
  assert (H2 : existsb (refers_to "book_id" "id"
                          (filter (column_is "id" (VInt b)) (books db)))
                       (book_vocab db) = true).
  { apply existsb_exists; exists r; split; [exact Hr |].
    rewrite refers_to_book, Hb; unfold column_is; rewrite E; apply value_eqb_refl. }
  rewrite H2.
  destruct (existsb _ (filter _ (chapters db))); reflexivity.
Qed.

Lemma delete_book_blocked_by_vocab_witness :
  session_delete_book (indexed_db true) 1
  = Err (IntegrityError "FOREIGN KEY constraint failed").
Proof.
  apply (delete_book_blocked_by_vocab (indexed_db true) 1
           [("book_id", VInt 1); ("token_id", VInt 1); ("token_count", VInt 1)]);
    try reflexivity.
  simpl; auto.
Defined.

(** X13: with foreign keys off, deleting a book through the session is
    always committed and removes the book's row and its chapters only:
    book_vocab and book_totals rows of the book stay behind, as do tokens
    and token_progress. *)
Theorem delete_book_without_foreign_keys (db : Database) (b : Z) :
  foreign_keys db = false ->
  exists db',
    session_delete_book db b = Ok db'
    /\ books db' = filter (fun r => negb (column_is "id" (VInt b) r)) (books db)
    /\ chapters db' = filter (fun r => negb (column_is "book_id" (VInt b) r)) (chapters db)
    /\ book_vocab db' = book_vocab db
    /\ book_totals db' = book_totals db
    /\ tokens db' = tokens db
    /\ token_progress db' = token_progress db.
Proof.
  intros Hfk.
  rewrite session_delete_book_statements, exec_delete_chapter; cbn [bind].
  unfold exec, exec_delete, max_cascade_depth; simpl; rewrite Hfk; simpl.
  eexists; split; [reflexivity | repeat split].
Qed.

Lemma delete_book_without_foreign_keys_witness :
  exists db',
    session_delete_book (indexed_db false) 1 = Ok db'
    /\ books db' = []
    /\ book_vocab db' = [[("book_id", VInt 1); ("token_id", VInt 1); ("token_count", VInt 1)]].
Proof.
  destruct (delete_book_without_foreign_keys (indexed_db false) 1)
    as (db' & H & Hb & _ & Hv & _); [reflexivity |].
  exists db'; repeat split; assumption.
Defined.

(** ** The totals upsert, composed and looked up *)

Lemma split_conflict_same_key (cols : list string) (r r' : row) (rows : list row) :
  same_on cols r r' -> split_conflict cols r rows = split_conflict cols r' rows.
Proof.
  intros Hs; induction rows as [| o rows IH]; simpl; [reflexivity |].
  rewrite (conflicts_same_key cols r r' o Hs), IH; reflexivity.
Qed.

Lemma totals_rows_same_key (b x y x' y' : Z) :
  same_on ["book_id"] (totals_row b x y) (totals_row b x' y').
Proof. intros c [<- | []]; reflexivity. Qed.

(** The conflict branch of the upsert on a store the statements produced:
    the book's row is replaced by the new totals. *)
Lemma upsert_overwrites (db : Database) (b x y : Z) (before after : list row) (old : row) :
  reachable db ->
  int64 b && int64 x && int64 y = true ->
  split_conflict ["book_id"] (totals_row b x y) (book_totals db)
  = Some (before, old, after) ->
  exec (upsert_stmt b x y) db
  = Ok (set_rows db BookTotals (before ++ totals_row b x y :: after))
  /\ Forall (fun o => column_is "book_id" (VInt b) o = false) (before ++ after)
  /\ column_is "book_id" (VInt b) old = true.
Proof.
  intros Hdb Hbound E; rewrite exec_upsert_stmt by exact Hbound.
  rewrite E; cbv zeta.
  apply split_conflict_Some in E; destruct E as (Erows & Hold & _).
  rewrite conflicts_book_id in Hold.
  pose proof (reachable_db_ok db Hdb BookTotals) as [Hrows Hkeys].
  change (rows_of db BookTotals) with (book_totals db) in Hrows, Hkeys.
  rewrite Erows in Hrows, Hkeys.
  assert (Hshape : row_ok BookTotals_table old).
  { apply Forall_app in Hrows; destruct Hrows as [_ Hr]; inversion Hr; assumption. }
  apply book_totals_row_shape in Hshape; destruct Hshape as (v1 & v2 & v3 & ->).
  pose proof Hold as Hkey; unfold column_is, get in Hkey; simpl in Hkey.
  apply value_eqb_eq in Hkey; subst v1.
  rewrite Forall_forall in Hkeys.
  pose proof (distinct_on_middle _ _ _ _ (Hkeys ["book_id"] (or_introl eq_refl))) as Hno.
  assert (Hfree : Forall (fun o => column_is "book_id" (VInt b) o = false) (before ++ after)).
  { rewrite Forall_forall in *; intros o Ho.
    rewrite <- (conflicts_book_id o b x y).
    etransitivity; [| exact (Hno o Ho)].
    apply conflicts_same_key; intros c [<- | []]; reflexivity. }
  change (assign [("total_tokens", VInt x); ("total_types", VInt y)]
            [("book_id", VInt b); ("total_tokens", v2); ("total_types", v3)])
    with (totals_row b x y).
  assert (Hcheck : check_row BookTotals_table (before ++ after) (totals_row b x y) = Ok tt).
  { unfold check_row.
    change (not_null_ok BookTotals_table (totals_row b x y)) with true.
    change (checks_ok BookTotals_table (totals_row b x y)) with true.
    cbn [require bind]; apply require_true.
    unfold unique_ok; apply forallb_forall; intros k Hk.
    change (In k [["book_id"]]) in Hk; destruct Hk as [<- | []].
    apply forallb_forall; intros o Ho.
    rewrite Forall_forall in Hfree.
    rewrite conflicts_book_id, (Hfree o Ho); reflexivity. }
  rewrite Hcheck; cbn [bind]; auto.
Qed.

(** X14: on a store the statements produced, an upsert of a book's totals
    followed by another upsert for the same book, with totals that are
    64-bit integers, leaves the store exactly as the second upsert alone
    would: the last totals win. *)
Theorem upsert_stmt_last_wins (db : Database) (b x1 y1 x2 y2 : Z) :
  reachable db ->
  int64 x2 = true -> int64 y2 = true ->
  run (upsert_stmt b x2 y2) (run (upsert_stmt b x1 y1) db)
  = run (upsert_stmt b x2 y2) db.
Proof.
  intros Hdb Hx2 Hy2.
  unfold run at 2.
  destruct (exec (upsert_stmt b x1 y1) db) as [db1 | e] eqn:E1; [| reflexivity].
  assert (Hdb1 : reachable db1) by (eapply reachable_exec; eassumption).
  pose proof (exec_upsert_stmt_bound _ _ _ _ _ E1) as Hbound1.
  assert (Hbound2 : int64 b && int64 x2 && int64 y2 = true).
  { rewrite !andb_true_iff in Hbound1; destruct Hbound1 as [[-> _] _].
    rewrite Hx2, Hy2; reflexivity. }
  destruct (split_conflict ["book_id"] (totals_row b x1 y1) (book_totals db))
    as [[[before old] after] |] eqn:Es.
  - destruct (upsert_overwrites db b x1 y1 _ _ _ Hdb Hbound1 Es) as (H1 & Hfree & Hold).
    rewrite H1 in E1; injection E1 as <-.
    rewrite (split_conflict_same_key _ _ _ _ (totals_rows_same_key b x1 y1 x2 y2)) in Es.
    destruct (upsert_overwrites db b x2 y2 _ _ _ Hdb Hbound2 Es) as (H2 & _ & _).
    assert (Es1 : split_conflict ["book_id"] (totals_row b x2 y2)
                    (book_totals (set_rows db BookTotals
                                    (before ++ totals_row b x1 y1 :: after)))
                  = Some (before, totals_row b x1 y1, after)).
    { apply split_conflict_Some in Es; destruct Es as (_ & _ & Hb).
      apply split_conflict_app; [exact Hb |].
      rewrite conflicts_book_id; unfold column_is; simpl; apply Z.eqb_refl. }
    destruct (upsert_overwrites _ b x2 y2 _ _ _ Hdb1 Hbound2 Es1) as (H3 & _ & _).
    unfold run; rewrite H2, H3, set_rows_set_rows; reflexivity.
  - pose proof E1 as E1'; rewrite exec_upsert_stmt in E1' by exact Hbound1.
    rewrite Es in E1'; ok_inv E1'; subst db1.
    assert (Es2 : split_conflict ["book_id"] (totals_row b x2 y2) (book_totals db) = None).
    { rewrite <- (split_conflict_same_key _ _ _ _ (totals_rows_same_key b x1 y1 x2 y2)).
      exact Es. }
    assert (Es1 : split_conflict ["book_id"] (totals_row b x2 y2)
                    (book_totals (set_rows db BookTotals
                                    (book_totals db ++ [totals_row b x1 y1])))
                  = Some (book_totals db, totals_row b x1 y1, [])).
    { apply split_conflict_None in Es2.
      apply split_conflict_app; [exact Es2 |].
      rewrite conflicts_book_id; unfold column_is; simpl; apply Z.eqb_refl. }
    destruct (upsert_overwrites _ b x2 y2 _ _ _ Hdb1 Hbound2 Es1) as (H3 & _ & _).
    unfold run; rewrite H3, exec_upsert_stmt by exact Hbound2.
    rewrite Es2, E1'_1; cbn [require bind].
    rewrite set_rows_set_rows; reflexivity.
Qed.

Lemma upsert_stmt_last_wins_witness :
  run (upsert_stmt 1 7 5) (run (upsert_stmt 1 6 4) (alpha_db true))
  = run (upsert_stmt 1 7 5) (alpha_db true).
Proof.
  apply (upsert_stmt_last_wins (alpha_db true) 1 6 4 7 5);
    [apply alpha_db_reachable | reflexivity | reflexivity].
Defined.

(** Without the bound the last totals need not win: a second upsert with
    an integer beyond 64 bits is not executed and the first totals stay. *)
Example upsert_stmt_overflow_keeps_first :
  run (upsert_stmt 1 9223372036854775808 5) (run (upsert_stmt 1 6 4) (alpha_db true))
  = set_rows (alpha_db true) BookTotals [totals_row 1 6 4]
  /\ run (upsert_stmt 1 9223372036854775808 5) (alpha_db true) = alpha_db true.
Proof. split; reflexivity. Qed.

Lemma find_skip {A : Type} (f : A -> bool) (l1 l2 : list A) (x : A) :
  f x = false -> find f (l1 ++ x :: l2) = find f (l1 ++ l2).
Proof.
  intros Hx; induction l1 as [| y l1 IH]; simpl; [rewrite Hx; reflexivity |].
  destruct (f y); [reflexivity | exact IH].
Qed.

Lemma filter_none {A : Type} (f : A -> bool) (l : list A) :
  Forall (fun x => f x = false) l -> filter f l = [].
Proof.
  induction 1 as [| x l Hx _ IH]; simpl; [reflexivity | rewrite Hx; exact IH].
Qed.

Lemma column_is_other (b b' : Z) (r : row) :
  b' <> b -> column_is "book_id" (VInt b) r = true ->
  column_is "book_id" (VInt b') r = false.
Proof.
  unfold column_is; intros Hne H; apply value_eqb_eq in H; rewrite H; simpl.
  apply Z.eqb_neq; congruence.
Qed.

(** X15: after a committed upsert on a store the statements produced, the
    totals looked up for the book are the ones given, book_totals holds
    exactly one row for the book, and the totals looked up for any other
    book are what they were. *)
Theorem upsert_then_lookup (db db' : Database) (b x y : Z) :
  reachable db -> exec (upsert_stmt b x y) db = Ok db' ->
  totals_of db' b = Some (totals_row b x y)
  /\ filter (column_is "book_id" (VInt b)) (book_totals db') = [totals_row b x y]
  /\ forall b', b' <> b -> totals_of db' b' = totals_of db b'.
Proof.
  intros Hdb H.
  pose proof (exec_upsert_stmt_bound _ _ _ _ _ H) as Hbound.
  assert (Hnew : column_is "book_id" (VInt b) (totals_row b x y) = true)
    by (unfold column_is; simpl; apply Z.eqb_refl).
  assert (Hform : exists before after,
             book_totals db' = before ++ totals_row b x y :: after
             /\ Forall (fun o => column_is "book_id" (VInt b) o = false) (before ++ after)
             /\ forall b', b' <> b ->
                  find (column_is "book_id" (VInt b')) (book_totals db)
                  = find (column_is "book_id" (VInt b')) (before ++ after)).
  { destruct (split_conflict ["book_id"] (totals_row b x y) (book_totals db))
      as [[[before old] after] |] eqn:Es.
    - destruct (upsert_overwrites db b x y _ _ _ Hdb Hbound Es) as (H1 & Hfree & Hold).
      rewrite H1 in H; injection H as <-.
      apply split_conflict_Some in Es; destruct Es as (Erows & _ & _).
      exists before, after; repeat split; auto.
      intros b' Hne; rewrite Erows; apply find_skip.
      apply (column_is_other b b' old Hne Hold).
    - rewrite exec_upsert_stmt in H by exact Hbound.
      rewrite Es in H; ok_inv H; subst db'.
      apply split_conflict_None in Es.
      exists (book_totals db), []; rewrite app_nil_r; repeat split; auto.
      rewrite Forall_forall in *; intros o Ho.
      rewrite <- (conflicts_book_id o b x y); auto. }
  destruct Hform as (before & after & Erows & Hfree & Hother).
  apply Forall_app in Hfree; destruct Hfree as [Hb Ha].
  unfold totals_of; rewrite Erows; split; [| split].
  - apply find_app_skip; assumption.
  - rewrite filter_app; simpl; rewrite Hnew, (filter_none _ _ Hb), (filter_none _ _ Ha).
    reflexivity.
  - intros b' Hne; rewrite (Hother b' Hne); apply find_skip.
    apply (column_is_other b b' _ Hne Hnew).
Qed.

Lemma upsert_then_lookup_witness :
  totals_of (run (upsert_stmt 1 6 4) (alpha_db true)) 1 = Some (totals_row 1 6 4).
Proof.
  destruct (upsert_then_lookup (alpha_db true)
              (run (upsert_stmt 1 6 4) (alpha_db true)) 1 6 4) as [H _].
  - apply alpha_db_reachable.
  - reflexivity.
  - exact H.
Defined.

(** ** Chapters and inverted-index rows: when an INSERT is committed *)

Lemma no_pair_conflict_iff (c1 c2 : string) (rows : list row) (r : row) :
  get r c1 <> VNull -> get r c2 <> VNull ->
  forallb (fun o => negb (conflicts [c1; c2] o r)) rows = true
  <-> forall old, In old rows -> ~ (get old c1 = get r c1 /\ get old c2 = get r c2).
Proof.
  intros N1 N2; rewrite forallb_forall; split; intros H old Hold.
  - intros [E1 E2]; specialize (H old Hold); apply negb_true_iff in H.
    rewrite conflicts_true in H; [discriminate | |].
    + intros c [<- | [<- | []]]; congruence.
    + intros c [<- | [<- | []]]; assumption.
  - apply negb_true_iff.
    destruct (conflicts [c1; c2] old r) eqn:E; [exfalso | reflexivity].
    unfold conflicts in E; simpl in E.
    rewrite !andb_true_iff in E; destruct E as ((_ & E1) & (_ & E2) & _).
    apply value_eqb_eq in E1, E2; apply (H old Hold); auto.
Qed.

Lemma parent_has_column (db : Database) (m : model) (v : value) :
  parent_has db (ColumnOf m "id") v = existsb (column_is "id" v) (rows_of db m).
Proof. reflexivity. Qed.

(** X16: an INSERT of a chapter (book, number, content, word count) is
    committed only if its integers are 64-bit ones, the book has no chapter
    of that number yet, and the book exists (or foreign keys are off).  In
    every other case the INSERT is refused. *)
Theorem chapter_insert_accepted_only_if (db db' : Database) (book_id chapter_number : Z)
        (content : string) (word_count : Z) :
  exec (Insert Chapter [("book_id", VInt book_id);
                        ("chapter_number", VInt chapter_number);
                        ("content", VText content);
                        ("word_count", VInt word_count)]) db = Ok db' ->
  int64 book_id = true /\ int64 chapter_number = true /\ int64 word_count = true
  /\ (forall old, In old (chapters db) ->
                  ~ (get old "book_id" = VInt book_id
                     /\ get old "chapter_number" = VInt chapter_number))
  /\ (foreign_keys db = true -> has_book db book_id = true).
Proof.
  intros Hexec.
  set (r := [("id", VInt (next_rowid (int_values (chapters db) "id")));
             ("book_id", VInt book_id); ("chapter_number", VInt chapter_number);
             ("content", VText content); ("word_count", VInt word_count)]).
  assert (Hpair : forallb (fun o => negb (conflicts ["book_id"; "chapter_number"] o r))
                          (chapters db) = true
                  <-> forall old, In old (chapters db) ->
                                  ~ (get old "book_id" = VInt book_id
                                     /\ get old "chapter_number" = VInt chapter_number)).
  { apply (no_pair_conflict_iff "book_id" "chapter_number" (chapters db) r); discriminate. }
  pose proof (exec_insert_bound _ _ _ _ Hexec) as Hb.
  unfold bindable in Hb; cbn [forallb snd] in Hb.
  rewrite !andb_true_iff in Hb; destruct Hb as (Hb1 & Hb2 & _ & Hb3 & _).
  assert (H : exists db', exec (Insert Chapter
                                  [("book_id", VInt book_id);
                                   ("chapter_number", VInt chapter_number);
                                   ("content", VText content);
                                   ("word_count", VInt word_count)]) db = Ok db')
    by (exists db'; exact Hexec).
  apply exec_insert_Ok_exists in H.
  change (new_row (schema Chapter) (rows_of db Chapter) _) with r in H.
  destruct H as (_ & Hu & Hfk).
  split; [exact Hb1 |]; split; [exact Hb2 |]; split; [exact Hb3 |]; split.
  - apply Hpair, forallb_forall; intros o Ho; apply negb_true_iff.
    apply (no_conflict_from_unique_ok _ _ _ _ o Hu (or_intror (or_introl eq_refl)) Ho).
  - intros Hon; specialize (Hfk Hon).
    unfold fk_child_ok in Hfk; simpl in Hfk; rewrite andb_true_r in Hfk; exact Hfk.
Qed.

Lemma chapter_insert_accepted_only_if_witness :
  int64 1 = true /\ int64 2 = true /\ int64 3 = true
  /\ (forall old, In old (chapters (indexed_db true)) ->
                  ~ (get old "book_id" = VInt 1 /\ get old "chapter_number" = VInt 2))
  /\ (foreign_keys (indexed_db true) = true -> has_book (indexed_db true) 1 = true).
Proof.
  apply (chapter_insert_accepted_only_if (indexed_db true)
           (set_rows (indexed_db true) Chapter
              (chapters (indexed_db true)
               ++ [[("id", VInt 2); ("book_id", VInt 1); ("chapter_number", VInt 2);
                    ("content", VText "the cat sat"); ("word_count", VInt 3)]]))
           1 2 "the cat sat" 3).
  reflexivity.
Defined.

(** X17: an INSERT of a book_vocab row (book, token, count) is committed if
    and only if the three integers are 64-bit ones, the book has no row for
    that token yet, and the book and the token exist (or foreign keys are
    off); the count may be any 64-bit integer. *)
Theorem book_vocab_insert_accepted_iff (db : Database) (book_id token_id token_count : Z) :
  (exists db',
      exec (Insert BookVocab [("book_id", VInt book_id); ("token_id", VInt token_id);
                              ("token_count", VInt token_count)]) db = Ok db')
  <-> int64 book_id = true /\ int64 token_id = true /\ int64 token_count = true
      /\ (forall old, In old (book_vocab db) ->
                   ~ (get old "book_id" = VInt book_id
                      /\ get old "token_id" = VInt token_id))
      /\ (foreign_keys db = true ->
          has_book db book_id = true /\ has_token db token_id = true).
Proof.
  set (r := [("book_id", VInt book_id); ("token_id", VInt token_id);
             ("token_count", VInt token_count)]).
  assert (Hpair : forallb (fun o => negb (conflicts ["book_id"; "token_id"] o r))
                          (book_vocab db) = true
                  <-> forall old, In old (book_vocab db) ->
                                  ~ (get old "book_id" = VInt book_id
                                     /\ get old "token_id" = VInt token_id)).
  { apply (no_pair_conflict_iff "book_id" "token_id" (book_vocab db) r); discriminate. }
  split.
  - intros H.
    assert (Hb : bindable r = true)
      by (destruct H as [db' H]; apply exec_insert_bound in H; exact H).
    unfold bindable in Hb; cbn [forallb snd r] in Hb.
    rewrite !andb_true_iff in Hb; destruct Hb as (Hb1 & Hb2 & Hb3 & _).
    apply exec_insert_Ok_exists in H.
    change (new_row (schema BookVocab) (rows_of db BookVocab) _) with r in H.
    destruct H as (_ & Hu & Hfk).
    split; [exact Hb1 |]; split; [exact Hb2 |]; split; [exact Hb3 |]; split.
    + apply Hpair, forallb_forall; intros o Ho; apply negb_true_iff.
      apply (no_conflict_from_unique_ok _ _ _ _ o Hu (or_introl eq_refl) Ho).
    + intros Hon; specialize (Hfk Hon).
      unfold fk_child_ok in Hfk; simpl in Hfk.
      rewrite andb_true_r in Hfk; apply andb_true_iff in Hfk; exact Hfk.
  - intros (Hb1 & Hb2 & Hb3 & Hnew & Hparents); eexists.
    apply (exec_insert_commits db BookVocab _ r); try reflexivity.
    + apply check_statement_intro; [reflexivity |].
      unfold bindable; cbn [forallb snd r]; rewrite Hb1, Hb2, Hb3; reflexivity.
    + unfold unique_ok; apply forallb_forall; intros key Hk.
      change (In key [["book_id"; "token_id"]]) in Hk.
      destruct Hk as [<- | []]; apply Hpair; exact Hnew.
    + intros Hon; unfold fk_child_ok; simpl; rewrite andb_true_r.
      apply andb_true_iff, Hparents, Hon.
Qed.

(** ** Transitions of a progress row by UPDATE *)

Lemma progress_checks_iff (r : row) (status : Z) (stage : option Z) :
  get r "status" = VInt status -> get r "learning_stage" = opt_int stage ->
  checks_ok TokenProgress_table r = true
  <-> (exists s : LearningStatus, status = LearningStatus_value s)
      /\ (status = LearningStatus_value LEARNING ->
          forall n, stage = Some n -> 1 <= n <= NUM_LEARNING_STAGES).
Proof.
  intros Es Eg; unfold checks_ok; simpl; rewrite andb_true_r, andb_true_iff.
  split.
  - intros [H1 H2]; split.
    + apply (check_in_literals r "status" [1; 2; 3]) in H1.
      destruct H1 as [H1 | (n & E & Hin)]; [congruence |].
      rewrite Es in E; injection E as <-.
      simpl in Hin; destruct Hin as [<- | [<- | [<- | []]]];
        [exists LEARNING | exists KNOWN | exists IGNORE]; reflexivity.
    + apply stage_check_iff.
      unfold check_passes in H2; simpl in H2; rewrite Es, Eg in H2.
      intros E; rewrite E in H2; discriminate.
  - intros [[s ->] H2]; split.
    + unfold check_passes; simpl; rewrite Es; destruct s; reflexivity.
    + apply stage_check_iff in H2.
      unfold check_passes; simpl; rewrite Es, Eg.
      destruct (sql_or _ _) as [[|] |]; congruence.
Qed.

(** An UPDATE that is committed has checked the new version of every row
    its WHERE selects. *)
Lemma update_rows_checked (db : Database) (m : model) (where_ : row -> bool) (vals : row)
      (todo done rows : list row) (r : row) :
  update_rows db m where_ vals done todo = Ok rows ->
  In r todo -> where_ r = true ->
  not_null_ok (schema m) (assign vals r) = true
  /\ checks_ok (schema m) (assign vals r) = true.
Proof.
  revert done; induction todo as [| x rest IH]; intros done H Hr Hw; [destruct Hr |].
  simpl in H; destruct Hr as [-> | Hr].
  - rewrite Hw in H; ok_inv H.
    apply check_row_Ok in H_1; destruct H_1 as (Hn & Hc & _); auto.
  - destruct (where_ x).
    + ok_inv H; eapply IH; eassumption.
    + eapply IH; eassumption.
Qed.

Lemma progress_row_located (db : Database) (t : Z) (old : row) :
  reachable db -> find_progress db t = Some old ->
  exists before after st sg tr,
    token_progress db = before ++ old :: after
    /\ old = [("token_id", VInt t); ("status", st); ("learning_stage", sg);
              ("translation", tr)]
    /\ Forall (fun o => column_is "token_id" (VInt t) o = false) before
    /\ Forall (fun o => column_is "token_id" (VInt t) o = false) after
    /\ Forall (fun o => conflicts ["token_id"] o old = false) (before ++ after).
Proof.
  intros Hdb Hfind; unfold find_progress in Hfind.
  destruct (find_split _ _ _ Hfind) as (before & after & Erows & Hr & Hbefore).
  pose proof (reachable_db_ok db Hdb TokenProgress) as [Hrows Hkeys].
  change (rows_of db TokenProgress) with (token_progress db) in Hrows, Hkeys.
  rewrite Erows in Hrows, Hkeys.
  assert (Hok : row_ok TokenProgress_table old).
  { apply Forall_app in Hrows; destruct Hrows as [_ H]; inversion H; assumption. }
  destruct (token_progress_row_shape old Hok) as (v1 & v2 & v3 & v4 & ->).
  unfold column_is in Hr; apply value_eqb_eq in Hr.
  unfold get in Hr; simpl in Hr; subst v1.
  rewrite Forall_forall in Hkeys.
  pose proof (distinct_on_middle _ _ _ _ (Hkeys ["token_id"] (or_introl eq_refl))) as Hno.
  exists before, after, v2, v3, v4; repeat split; auto.
  apply Forall_app in Hno; destruct Hno as [_ Hno].
  rewrite Forall_forall in *; intros o Ho; specialize (Hno o Ho).
  unfold conflicts, column_is in *; simpl in Hno.
  change (get [("token_id", VInt t); ("status", v2); ("learning_stage", v3);
               ("translation", v4)] "token_id") with (VInt t) in Hno.
  destruct (get o "token_id"); simpl in *; [reflexivity | | reflexivity].
  rewrite andb_true_r in Hno; exact Hno.
Qed.

(** X18: on a store the statements produced, an UPDATE that sets the status
    and the stage (or None) of a token's progress row is committed, and
    then read back as written, if and only if the status is the code of a
    [LearningStatus], the stage, when it is set, is a 64-bit integer, and
    when the status is LEARNING besides, lies in 1..5.  So a row can be
    moved to KNOWN or IGNORE with its stage kept or cleared, and to
    LEARNING with no stage or a stage of 1..5, and nowhere else. *)
Theorem progress_update_accepted_iff (db : Database) (token_id status : Z)
        (stage : option Z) (old : row) :
  reachable db -> find_progress db token_id = Some old ->
  (exists db',
      exec (Update TokenProgress (column_is "token_id" (VInt token_id))
              [("status", VInt status); ("learning_stage", opt_int stage)]) db = Ok db'
      /\ status_of db' token_id = Some (VInt status)
      /\ stage_of db' token_id = Some (opt_int stage))
  <-> (exists s : LearningStatus, status = LearningStatus_value s)
      /\ (forall n, stage = Some n -> int64 n = true)
      /\ (status = LearningStatus_value LEARNING ->
          forall n, stage = Some n -> 1 <= n <= NUM_LEARNING_STAGES).
Proof.
  intros Hdb Hfind.
  destruct (progress_row_located db token_id old Hdb Hfind)
    as (before & after & st & sg & tr & Erows & -> & Hbefore & Hafter & Hno).
  set (vals := [("status", VInt status); ("learning_stage", opt_int stage)]).
  set (new := [("token_id", VInt token_id); ("status", VInt status);
               ("learning_stage", opt_int stage); ("translation", tr)]).
  assert (Hnew : assign vals [("token_id", VInt token_id); ("status", st);
                              ("learning_stage", sg); ("translation", tr)] = new)
    by reflexivity.
  assert (Hchk : checks_ok TokenProgress_table new = true
                 <-> (exists s : LearningStatus, status = LearningStatus_value s)
                     /\ (status = LearningStatus_value LEARNING ->
                         forall n, stage = Some n -> 1 <= n <= NUM_LEARNING_STAGES))
    by (apply progress_checks_iff; reflexivity).
  split.
  - intros (db' & H & _).
    unfold exec, exec_update in H; ok_inv H.
    apply check_statement_Ok in H_1; destruct H_1 as [_ Hb].
    unfold bindable in Hb; cbn [forallb snd vals] in Hb.
    rewrite !andb_true_iff in Hb; destruct Hb as (_ & Hb & _).
    assert (Hchecked : checks_ok TokenProgress_table new = true).
    { change (rows_of db TokenProgress) with (token_progress db) in H_2_1.
      rewrite Erows in H_2_1.
      destruct (update_rows_checked _ _ _ _ _ _ _ _ H_2_1 (in_elt _ _ _)) as [_ Hc].
      - apply value_eqb_refl.
      - rewrite Hnew in Hc; exact Hc. }
    apply Hchk in Hchecked; destruct Hchecked as [Hs Hstage].
    split; [exact Hs |]; split; [| exact Hstage].
    intros n ->; exact Hb.
  - intros (Hs & Hbound & Hstage).
    assert (Hok : checks_ok TokenProgress_table new = true)
      by (apply Hchk; split; assumption).
    exists (set_rows db TokenProgress (before ++ new :: after)); split; [| split].
    + rewrite <- Hnew.
      apply (exec_update_single db TokenProgress _ vals before after _ Erows); auto.
      * apply check_statement_intro; [reflexivity |].
        unfold bindable; cbn [forallb snd vals].
        destruct Hs as [k ->].
        replace (int64 (LearningStatus_value k)) with true by (destruct k; reflexivity).
        destruct stage as [n |]; cbn [opt_int];
          [rewrite (Hbound n eq_refl) |]; reflexivity.
      * apply value_eqb_refl.
      * rewrite Hnew; unfold check_row.
        change (not_null_ok (schema TokenProgress) new) with true.
        change (schema TokenProgress) with TokenProgress_table.
        rewrite Hok; cbn [require bind]; apply require_true.
        unfold unique_ok; apply forallb_forall; intros k Hk.
        change (In k [["token_id"]]) in Hk; destruct Hk as [<- | []].
        apply forallb_forall; intros o Ho.
        rewrite Forall_forall in Hno.
        assert (E : conflicts ["token_id"] o new = false).
        { etransitivity; [| exact (Hno o Ho)].
          apply conflicts_same_key; intros c [<- | []]; reflexivity. }
        rewrite E; reflexivity.
      * unfold check_fk_child, fk_child_ok; simpl.
        rewrite orb_true_r; reflexivity.
      * apply orb_true_r.
    + exact (f_equal (option_map (fun r => get r "status"))
                     (find_app_skip (column_is "token_id" (VInt token_id)) before after new
                                    Hbefore (value_eqb_refl _))).
    + exact (f_equal (option_map (fun r => get r "learning_stage"))
                     (find_app_skip (column_is "token_id" (VInt token_id)) before after new
                                    Hbefore (value_eqb_refl _))).
Qed.

Lemma progress_update_accepted_iff_witness :
  exists db',
    exec (Update TokenProgress (column_is "token_id" (VInt 1))
            [("status", VInt 2); ("learning_stage", VInt 3)])
         (run (Insert TokenProgress
                 [("token_id", VInt 1); ("status", VInt 1); ("learning_stage", VInt 3)])
              (alpha_db true)) = Ok db'
    /\ status_of db' 1 = Some (VInt 2)
    /\ stage_of db' 1 = Some (VInt 3).
Proof.
  apply (progress_update_accepted_iff
           (run (Insert TokenProgress
                   [("token_id", VInt 1); ("status", VInt 1); ("learning_stage", VInt 3)])
                (alpha_db true)) 1 2 (Some 3)
           [("token_id", VInt 1); ("status", VInt 1); ("learning_stage", VInt 3);
            ("translation", VNull)]).
  - apply (reachable_exec (alpha_db true)
             (Insert TokenProgress
                [("token_id", VInt 1); ("status", VInt 1); ("learning_stage", VInt 3)]));
      [apply alpha_db_reachable | reflexivity].
  - reflexivity.
  - split; [exists KNOWN; reflexivity |]; split;
      [intros n E; injection E as <-; reflexivity | intros E; discriminate E].
Defined.

(** X19: on a store the statements produced, the statement of
    [upsert_stmt] is committed if and only if its three integers are 64-bit
    ones and the book already has a totals row, or the book exists, or
    foreign keys are off; with foreign keys enforced, totals for a book
    that does not exist are refused. *)
Theorem upsert_stmt_committed_iff (db : Database) (b x y : Z) :
  reachable db ->
  (exists db', exec (upsert_stmt b x y) db = Ok db')
  <-> int64 b = true /\ int64 x = true /\ int64 y = true
      /\ (foreign_keys db = true -> has_totals db b = false -> has_book db b = true).
Proof.
  intros Hdb.
  destruct (int64 b && int64 x && int64 y) eqn:Hbound.
  - pose proof Hbound as Hb.
    rewrite !andb_true_iff in Hb; destruct Hb as [[Hb Hx] Hy].
    rewrite (has_totals_split db b x y).
    destruct (split_conflict ["book_id"] (totals_row b x y) (book_totals db))
      as [[[before old] after] |] eqn:Es.
    + destruct (upsert_overwrites db b x y _ _ _ Hdb Hbound Es) as (H & _).
      split; [intros _; repeat split; auto; intros _ E; discriminate E
             | intros _; eexists; exact H].
    + rewrite exec_upsert_stmt by exact Hbound.
      rewrite Es; split.
      * intros [db' H]; repeat split; auto.
        intros Hfk _; ok_inv H.
        rewrite Hfk in H_1; exact H_1.
      * intros (_ & _ & _ & H); eexists.
        destruct (foreign_keys db); [rewrite H by reflexivity |]; reflexivity.
  - split.
    + intros [db' H]; apply exec_upsert_stmt_bound in H; congruence.
    + intros (Hb & Hx & Hy & _); rewrite Hb, Hx, Hy in Hbound; discriminate.
Qed.

Lemma upsert_stmt_committed_iff_witness :
  ~ exists db', exec (upsert_stmt 7 6 4) (alpha_db true) = Ok db'.
Proof.
  intros H.
  apply (upsert_stmt_committed_iff (alpha_db true) 7 6 4 (alpha_db_reachable true)) in H.
  destruct H as (_ & _ & _ & H).
  discriminate H; reflexivity.
Defined.
